(** * Admin Policy Based External Route: node controller

    A shallow embedding of
    [go-controller/pkg/ovn/controller/apbroute/node_controller.go].

    The controller owns three work queues (policies, namespaces, pods) and
    delegates every decision about the cache to its [externalPolicyManager].
    Each Go function of the file is embedded as a program over the calls it
    makes to its collaborators (listers, manager, work queues, klog, wait
    group).  A program is run against a handler that answers the calls and
    threads the state of the collaborators, so that a theorem about a program
    holds for every implementation of the listers, of the manager and of the
    queues. *)

From Stdlib Require Import ZArith.
From stdpp Require Import base strings gmap sets list.

Local Open Scope string_scope.
Local Open Scope Z_scope.
Local Open Scope list_scope.

(** ** Kubernetes objects *)

(** [metav1.Time]: the instant, counted from Go's zero [time.Time]. *)
Record Time := { instant : Z }.

(** [IsZero] on a pointer to [metav1.Time]: a nil pointer or the zero instant. *)
Definition Time_IsZero (t : option Time) : bool :=
  match t with
  | None => true
  | Some t => bool_decide (instant t = 0)
  end.

(** A Go map that may be nil; indexing a nil map yields the zero value. *)
Definition gomap := option (gmap string string).

Definition gomap_index (m : gomap) (k : string) : string :=
  match m with
  | None => EmptyString
  | Some m => default EmptyString (m !! k)
  end.

(** [sets.Set[string]] is a Go map and may be nil; [Len], [Equal] and [Union]
    only look at the elements. *)
Definition StringSet := option (gset string).

Definition set_elems (s : StringSet) : gset string := default ∅ s.
Definition Set_Len (s : StringSet) : Z := Z.of_nat (size (set_elems s)).
Definition Set_Equal (s1 s2 : StringSet) : bool :=
  bool_decide (set_elems s1 = set_elems s2).
(** [Union] clones the receiver: the result is never nil. *)
Definition Set_Union (s1 s2 : StringSet) : StringSet :=
  Some (set_elems s1 ∪ set_elems s2).

(** Modelled from the spec: the CRD types of the policy are not part of the
    sources; a policy has a namespace selector ([From]), static gateway IPs
    and dynamic gateway specs (a pod selector and a BFD flag).  Selectors are
    label maps that must all be present on the selected object. *)
Record DynamicHop := {
  hop_PodSelector : gmap string string;
  hop_BFDEnabled : bool;
}.

Record ExternalRouteSpec := {
  spec_From : gmap string string;
  spec_StaticIPs : gset string;
  spec_DynamicHops : list DynamicHop;
}.

Record AdminPolicyBasedExternalRoute := {
  apb_Name : string;
  apb_Generation : Z;
  apb_DeletionTimestamp : option Time;
  apb_Spec : ExternalRouteSpec;
}.

Record Namespace := {
  ns_Name : string;
  ns_ResourceVersion : string;
  ns_DeletionTimestamp : option Time;
  ns_Labels : gomap;
}.

Record Pod := {
  pod_Namespace : string;
  pod_Name : string;
  pod_Labels : gomap;
  pod_Annotations : gomap;
  pod_DeletionTimestamp : option Time;
  (** [Status.PodIPs], a slice that may be nil *)
  pod_PodIPs : option (list string);
}.

(** [nettypes.NetworkStatusAnnot] *)
Definition NetworkStatusAnnot : string := "k8s.v1.cni.cncf.io/network-status".

(** [ktypes.NamespacedName] *)
Record NamespacedName := { nn_Namespace : string; nn_Name : string }.

(** A value of type [interface{}] as the informers and the queues carry it:
    a typed pointer (possibly nil), a tombstone, or anything else. *)
Inductive object :=
| Nil
| PolicyPtr (p : option AdminPolicyBasedExternalRoute)
| NamespacePtr (n : option Namespace)
| PodPtr (p : option Pod)
| DeletedFinalStateUnknown (key : string) (obj : object)
| Other (descr : string).

(** ** Errors *)

(** Operands of a format string, kept unrendered. *)
Inductive operand :=
| OpString (s : string)
| OpType (o : object)
| OpValue (o : object).

Inductive StatusReason := StatusReasonNotFound | StatusReasonOther (r : string).

Inductive error :=
| StatusError (reason : StatusReason) (msg : string)
| ErrorsNew (msg : string)
| Errorf (format : string) (args : list operand)
(** [fmt.Errorf] with a [%w] verb; [wrapped] is its operand *)
| Errorf_w (format : string) (args : list operand) (wrapped : error).

(** [apierrors.IsNotFound] looks through wrapped errors; nil is not NotFound. *)
Fixpoint error_IsNotFound (e : error) : bool :=
  match e with
  | StatusError StatusReasonNotFound _ => true
  | StatusError (StatusReasonOther _) _ => false
  | ErrorsNew _ => false
  | Errorf _ _ => false
  | Errorf_w _ _ e' => error_IsNotFound e'
  end.

Definition IsNotFound (err : option error) : bool :=
  match err with
  | None => false
  | Some e => error_IsNotFound e
  end.

Definition nonnil {A} (x : option A) : bool :=
  match x with Some _ => true | None => false end.

(** ** Calls to the collaborators *)

Inductive queue := routeQueue | namespaceQueue | podQueue.

Inductive klogFn := Infof | Warningf | V2_InfoS.

Inductive logOperand :=
| LOp (o : operand)
| LErr (e : error).

(** Address of a [namespaceInfo] in the manager's cache. *)
Definition loc := positive.

Inductive call :=
(* listers *)
| RouteLister_Get (name : string)
| NamespaceLister_Get (name : string)
| PodLister_Get (namespace name : string)
(* externalPolicyManager: policies *)
| Mgr_processDeletePolicy (name : string)
| Mgr_getRoutePolicyFromCache (name : string)
| Mgr_processAddPolicy (routePolicy : AdminPolicyBasedExternalRoute)
| Mgr_processUpdatePolicy (currentPolicy newPolicy : AdminPolicyBasedExternalRoute)
(* externalPolicyManager: namespaces *)
| Mgr_processDeleteNamespace (name : string)
| Mgr_getPoliciesForNamespace (name : string)
| Mgr_getNamespaceInfoFromCache (name : string)
| Mgr_unlockNamespaceInfoCache (name : string)
| Mgr_newNamespaceInfoInCache (name : string)
| Mgr_processAddNamespace (namespace : Namespace) (cacheInfo : option loc)
| Mgr_processUpdateNamespace (name : string) (currentPolicies newPolicies : StringSet)
    (cacheInfo : option loc)
(* externalPolicyManager: pods and gateway IPs *)
| Mgr_filterNamespacesUsingPodGateway (key : NamespacedName)
| Mgr_processDeletePod (pod : Pod) (namespaces : StringSet)
| Mgr_processAddPod (pod : Pod)
| Mgr_processUpdatePod (pod : Pod) (namespaces : StringSet)
| Mgr_getDynamicGatewayIPsForTargetNamespace (name : string)
| Mgr_getStaticGatewayIPsForTargetNamespace (name : string)
(* fields of a [*namespaceInfo] *)
| Load_markForDelete (l : loc)
| Load_Policies (l : loc)
| Store_Policies (l : loc) (v : StringSet)
(* workqueue.RateLimitingInterface *)
| Queue_Get (q : queue)
| Queue_Done (q : queue) (obj : object)
| Queue_NumRequeues (q : queue) (obj : object)
| Queue_AddRateLimited (q : queue) (obj : object)
| Queue_Forget (q : queue) (obj : object)
| Queue_Add (q : queue) (obj : object)
(* klog, utilruntime, sync.WaitGroup *)
| Klog (f : klogFn) (format : string) (args : list logOperand)
| HandleError (e : error)
| WaitGroup_Add (n : Z)
| WaitGroup_Done.

(** What each call returns. *)
Definition resp (c : call) : Type :=
  match c with
  | RouteLister_Get _ | NamespaceLister_Get _ | PodLister_Get _ _ => option error
  | Mgr_processDeletePolicy _ => option error
  | Mgr_getRoutePolicyFromCache _ => AdminPolicyBasedExternalRoute * bool * bool
  | Mgr_processAddPolicy _ | Mgr_processUpdatePolicy _ _ => option error
  | Mgr_processDeleteNamespace _ => option error
  | Mgr_getPoliciesForNamespace _ => StringSet * option error
  | Mgr_getNamespaceInfoFromCache _ => option loc * bool
  | Mgr_unlockNamespaceInfoCache _ => unit
  | Mgr_newNamespaceInfoInCache _ => option loc
  | Mgr_processAddNamespace _ _ | Mgr_processUpdateNamespace _ _ _ _ => option error
  | Mgr_filterNamespacesUsingPodGateway _ => StringSet
  | Mgr_processDeletePod _ _ | Mgr_processAddPod _ | Mgr_processUpdatePod _ _ => option error
  | Mgr_getDynamicGatewayIPsForTargetNamespace _
  | Mgr_getStaticGatewayIPsForTargetNamespace _ => StringSet * option error
  | Load_markForDelete _ => bool
  | Load_Policies _ => StringSet
  | Store_Policies _ _ => unit
  | Queue_Get _ => object * bool
  | Queue_NumRequeues _ _ => Z
  | Queue_Done _ _ | Queue_AddRateLimited _ _ | Queue_Forget _ _ | Queue_Add _ _ => unit
  | Klog _ _ _ | HandleError _ | WaitGroup_Add _ | WaitGroup_Done => unit
  end.

(** ** Programs *)

Inductive prog (R : Type) : Type :=
| Ret (r : R)
| Call (c : call) (k : resp c → prog R)
| Panic (msg : string).
Arguments Ret {R} r.
Arguments Call {R} c k.
Arguments Panic {R} msg.

Fixpoint bind {A B} (m : prog A) (f : A → prog B) : prog B :=
  match m with
  | Ret a => f a
  | Call c k => Call c (λ x, bind (k x) f)
  | Panic msg => Panic msg
  end.

#[global] Instance prog_ret : MRet prog := @Ret.
#[global] Instance prog_bind : MBind prog := λ A B f m, bind m f.

Definition do (c : call) : prog (resp c) := Call c Ret.

(** [defer d; body]: the deferred call runs when the body returns and also
    when it panics. *)
Fixpoint defer {R} (d : prog unit) (body : prog R) : prog R :=
  match body with
  | Ret r => bind d (λ _, Ret r)
  | Call c k => Call c (λ x, defer d (k x))
  | Panic msg => bind d (λ _, Panic msg)
  end.

(** Dereference of a pointer that may be nil. *)
Definition deref {A} (p : option A) : prog A :=
  match p with
  | Some a => Ret a
  | None => Panic "invalid memory address or nil pointer dereference"
  end.

Definition klog (f : klogFn) (format : string) (args : list logOperand) : prog unit :=
  do (Klog f format args).

Definition LStr (s : string) : logOperand := LOp (OpString s).

(** ** Running a program *)

Inductive outcome (R : Type) :=
| Returned (r : R)
| Panicked (msg : string).
Arguments Returned {R} r.
Arguments Panicked {R} msg.

(** A handler answers each call and updates the collaborators' state. *)
Definition handler (S : Type) := ∀ c : call, S → resp c * S.

(** klog, [utilruntime.HandleError] and the wait group do not touch the
    listers, the manager or the queues: they are recorded and answered
    without the handler. *)
Definition silent (c : call) : option (resp c) :=
  match c return option (resp c) with
  | Klog _ _ _ => Some tt
  | HandleError _ => Some tt
  | WaitGroup_Add _ => Some tt
  | WaitGroup_Done => Some tt
  | _ => None
  end.

(** [exec h p s]: the outcome, the final state and the calls made, in order. *)
Fixpoint exec {S R} (h : handler S) (p : prog R) (s : S) : outcome R * S * list call :=
  match p with
  | Ret r => (Returned r, s, [])
  | Panic msg => (Panicked msg, s, [])
  | Call c k =>
      match silent c with
      | Some x =>
          let '(o, s1, tr) := exec h (k x) s in
          (o, s1, c :: tr)
      | None =>
          let '(x, s1) := h c s in
          let '(o, s2, tr) := exec h (k x) s1 in
          (o, s2, c :: tr)
      end
  end.

Definition result {S R} (r : outcome R * S * list call) : outcome R := r.1.1.
Definition final {S R} (r : outcome R * S * list call) : S := r.1.2.
Definition trace {S R} (r : outcome R * S * list call) : list call := r.2.

(** ** The controller *)

(** [fmt.Errorf(format, name, err)] with a [%w] verb when [err] is not nil. *)
Definition wrapf (format name : string) (err : option error) : option error :=
  match err with
  | Some e => Some (Errorf_w format [OpString name] e)
  | None => None
  end.

Definition syncRoutePolicy (routePolicy : AdminPolicyBasedExternalRoute)
  : prog (option error) :=
  let name := apb_Name routePolicy in
  err ← do (RouteLister_Get name);
  if nonnil err && negb (IsNotFound err) then mret err else
  if IsNotFound err then
    (* DELETE use case *)
    klog Infof "Deleting policy %s" [LStr name];;
    err ← do (Mgr_processDeletePolicy name);
    match err with
    | Some e =>
        mret (Some (Errorf_w "failed to delete Admin Policy Based External Route %s:%w"
                      [OpString name] e))
    | None =>
        klog Infof "Policy %s deleted" [LStr name];;
        mret None
    end
  else
  '(currentPolicy, found, markedForDeletion) ← do (Mgr_getRoutePolicyFromCache name);
  if (markedForDeletion : bool) then
    klog Warningf
      "Attempting to add or update route policy %s when it has been marked for deletion. Skipping..."
      [LStr name];;
    mret None
  else
  if negb found then
    (* ADD use case *)
    klog Infof "Adding policy %s" [LStr name];;
    err ← do (Mgr_processAddPolicy routePolicy);
    match err with
    | Some e =>
        mret (Some (Errorf_w "failed to create Admin Policy Based External Route %s:%w"
                      [OpString name] e))
    | None => mret None
    end
  else
  (* UPDATE use case *)
  klog Infof "Updating policy %s" [LStr name];;
  err ← do (Mgr_processUpdatePolicy currentPolicy routePolicy);
  match err with
  | Some e =>
      mret (Some (Errorf_w "failed to update Admin Policy Based External Route %s:%w"
                    [OpString name] e))
  | None => mret None
  end.

Definition syncNamespace (namespace : Namespace) : prog (option error) :=
  let name := ns_Name namespace in
  err ← do (NamespaceLister_Get name);
  if nonnil err && negb (IsNotFound err) then mret err else
  if IsNotFound err || negb (Time_IsZero (ns_DeletionTimestamp namespace)) then
    (* DELETE use case *)
    klog Infof "Deleting namespace reference %s" [LStr name];;
    do (Mgr_processDeleteNamespace name)
  else
  '(matches, err) ← do (Mgr_getPoliciesForNamespace name);
  if nonnil err then mret err else
  '(cacheInfo, found) ← do (Mgr_getNamespaceInfoFromCache name);
  if negb found && bool_decide (Set_Len matches = 0) then
    (* not cached already and not a target for policies, nothing to do *)
    mret None
  else
  defer (do (Mgr_unlockNamespaceInfoCache name)) (
    (* found && cacheInfo.markForDelete *)
    marked ← (if (found : bool)
              then l ← deref cacheInfo; do (Load_markForDelete l)
              else mret false);
    if (marked : bool) then
      mret (Some (Errorf "cannot add namespace %s because it is currently being deleted"
                    [OpString name]))
    else
    if negb found then
      (* ADD use case *)
      cacheInfo ← do (Mgr_newNamespaceInfoInCache name);
      l ← deref cacheInfo;
      do (Store_Policies l matches);;
      do (Mgr_processAddNamespace namespace cacheInfo)
    else
    l ← deref cacheInfo;
    policies ← do (Load_Policies l);
    if negb (Set_Equal policies matches) then
      (* UPDATE use case; [cacheInfo.Policies] is read again for the argument *)
      policies ← do (Load_Policies l);
      err ← do (Mgr_processUpdateNamespace name policies matches cacheInfo);
      match err with
      | Some e => mret (Some e)
      | None => mret None
      end
    else mret None).

Definition syncPod (pod : Pod) : prog (option error) :=
  let ns := pod_Namespace pod in
  let name := pod_Name pod in
  err ← do (PodLister_Get ns name);
  if nonnil err && negb (IsNotFound err) then mret err else
  namespaces ← do (Mgr_filterNamespacesUsingPodGateway
                     {| nn_Namespace := ns; nn_Name := name |});
  klog Infof "Processing pod reference %s/%s" [LStr ns; LStr name];;
  if IsNotFound err || negb (Time_IsZero (pod_DeletionTimestamp pod)) then
    (* DELETE case *)
    if bool_decide (Set_Len namespaces = 0) then
      (* nothing to do, this pod is not a gateway pod *)
      mret None
    else
    klog Infof "Deleting pod gateway %s/%s" [LStr ns; LStr name];;
    do (Mgr_processDeletePod pod namespaces)
  else
  if bool_decide (Set_Len namespaces = 0) then
    (* ADD case *)
    klog Infof "Adding pod reference %s/%s" [LStr ns; LStr name];;
    do (Mgr_processAddPod pod)
  else
  (* UPDATE case *)
  klog Infof "Updating pod gateway %s/%s" [LStr ns; LStr name];;
  do (Mgr_processUpdatePod pod namespaces).

Definition GetAdminPolicyBasedExternalRouteIPsForTargetNamespace (namespaceName : string)
  : prog (StringSet * option error) :=
  '(gwIPs, err) ← do (Mgr_getDynamicGatewayIPsForTargetNamespace namespaceName);
  if nonnil err then mret (None, err) else
  '(tmpIPs, err) ← do (Mgr_getStaticGatewayIPsForTargetNamespace namespaceName);
  if nonnil err then mret (None, err) else
  mret (Set_Union gwIPs tmpIPs, None).

(** *** Type assertions *)

(** [obj.(T)] panics when [obj] does not hold a [T]. *)
Definition panic_conversion {A} : prog A := Panic "interface conversion".

Definition assertPolicy (obj : object) : prog (option AdminPolicyBasedExternalRoute) :=
  match obj with PolicyPtr p => mret p | _ => panic_conversion end.

Definition assertNamespace (obj : object) : prog (option Namespace) :=
  match obj with NamespacePtr n => mret n | _ => panic_conversion end.

Definition assertPod (obj : object) : prog (option Pod) :=
  match obj with PodPtr p => mret p | _ => panic_conversion end.

(** [pod, ok := obj.(T)]: [None] stands for [ok = false]. *)
Definition assertPod_ok (obj : object) : option (option Pod) :=
  match obj with PodPtr p => Some p | _ => None end.

Definition assertTombstone_ok (obj : object) : option object :=
  match obj with DeletedFinalStateUnknown _ o => Some o | _ => None end.

(** *** Workers *)

Section Workers.

(** The constant is declared in another file of the package. *)
Variable maxRetries : Z.

Definition processNextPolicyWorkItem : prog bool :=
  do (WaitGroup_Add 1);;
  defer (do WaitGroup_Done) (
    '(obj, shutdown) ← do (Queue_Get routeQueue);
    if (shutdown : bool) then mret false else
    defer (do (Queue_Done routeQueue obj)) (
      item ← assertPolicy obj;
      routePolicy ← deref item;
      klog Infof "Processing policy %s" [LStr (apb_Name routePolicy)];;
      err ← syncRoutePolicy routePolicy;
      match err with
      | Some e =>
          n ← do (Queue_NumRequeues routeQueue (PolicyPtr item));
          if bool_decide (n < maxRetries) then
            klog V2_InfoS "Error found while processing policy: %v" [LErr e];;
            do (Queue_AddRateLimited routeQueue (PolicyPtr item));;
            mret true
          else
          klog Warningf "Dropping policy %q out of the queue: %v"
            [LStr (apb_Name routePolicy); LErr e];;
          do (HandleError e);;
          do (Queue_Forget routeQueue obj);;
          mret true
      | None =>
          do (Queue_Forget routeQueue obj);;
          mret true
      end)).

Definition processNextNamespaceWorkItem : prog bool :=
  do (WaitGroup_Add 1);;
  defer (do WaitGroup_Done) (
    '(obj, shutdown) ← do (Queue_Get namespaceQueue);
    if (shutdown : bool) then mret false else
    defer (do (Queue_Done namespaceQueue obj)) (
      item ← assertNamespace obj;
      namespace ← deref item;
      err ← syncNamespace namespace;
      match err with
      | Some e =>
          n ← do (Queue_NumRequeues namespaceQueue obj);
          if bool_decide (n < maxRetries) then
            klog V2_InfoS "Error found while processing namespace %s:%w"
              [LOp (OpValue obj); LErr e];;
            do (Queue_AddRateLimited namespaceQueue obj);;
            mret true
          else
          klog Warningf "Dropping namespace %q out of the queue: %v"
            [LStr (ns_Name namespace); LErr e];;
          do (HandleError e);;
          do (Queue_Forget namespaceQueue obj);;
          mret true
      | None =>
          do (Queue_Forget namespaceQueue obj);;
          mret true
      end)).

Definition processNextPodWorkItem : prog bool :=
  do (WaitGroup_Add 1);;
  defer (do WaitGroup_Done) (
    '(obj, shutdown) ← do (Queue_Get podQueue);
    if (shutdown : bool) then mret false else
    defer (do (Queue_Done podQueue obj)) (
      item ← assertPod obj;
      p ← deref item;
      err ← syncPod p;
      match err with
      | Some e =>
          n ← do (Queue_NumRequeues podQueue obj);
          if bool_decide (n < maxRetries) then
            klog V2_InfoS "Error found while processing pod %s/%s:%w"
              [LStr (pod_Namespace p); LStr (pod_Name p); LErr e];;
            do (Queue_AddRateLimited podQueue obj);;
            mret true
          else
          klog Warningf "Dropping pod %s/%s out of the queue: %s"
            [LStr (pod_Namespace p); LStr (pod_Name p); LErr e];;
          do (HandleError e);;
          do (Queue_Forget podQueue obj);;
          mret true
      | None =>
          do (Queue_Forget podQueue obj);;
          mret true
      end)).

End Workers.

(** *** Pod admission filters *)

Definition onPodAdd (obj : object) : prog unit :=
  match assertPod_ok obj with
  | None =>
      do (HandleError (Errorf "expecting %T but received %T"
                         [OpType (PodPtr None); OpType obj]))
  | Some None =>
      do (HandleError (ErrorsNew "invalid Pod provided to onPodAdd()"))
  | Some (Some pod) =>
      (* no IPs AND no multus network status annotation: skip it *)
      if bool_decide (length (default [] (pod_PodIPs pod)) = 0%nat)
         && bool_decide (String.length
                           (gomap_index (pod_Annotations pod) NetworkStatusAnnot) = 0%nat)
      then mret tt
      else do (Queue_Add podQueue (PodPtr (Some pod)))
  end.

Definition onPodUpdate (oldObj newObj : object) : prog unit :=
  match assertPod_ok oldObj with
  | None =>
      (* the message prints [o], the nil result of the failed assertion *)
      do (HandleError (Errorf "expecting %T but received %T"
                         [OpType (PodPtr None); OpType (PodPtr None)]))
  | Some o =>
      match assertPod_ok newObj with
      | None =>
          do (HandleError (Errorf "expecting %T but received %T"
                             [OpType (PodPtr None); OpType (PodPtr None)]))
      | Some n =>
          match o, n with
          | Some o, Some n =>
              if bool_decide (pod_Labels o = pod_Labels n)
                 && bool_decide (pod_PodIPs o = pod_PodIPs n)
                 && bool_decide (gomap_index (pod_Annotations o) NetworkStatusAnnot
                                 = gomap_index (pod_Annotations n) NetworkStatusAnnot)
              then mret tt
              else do (Queue_Add podQueue newObj)
          | _, _ =>
              do (HandleError (ErrorsNew "invalid Pod provided to onPodUpdate()"))
          end
      end
  end.

Definition onPodDelete (obj : object) : prog unit :=
  let enqueue (pod : option Pod) : prog unit :=
    match pod with
    | Some _ => do (Queue_Add podQueue (PodPtr pod))
    | None => mret tt
    end in
  match assertPod_ok obj with
  | Some pod => enqueue pod
  | None =>
      match assertTombstone_ok obj with
      | None =>
          do (HandleError (Errorf "couldn't get object from tombstone %#v" [OpValue obj]))
      | Some tombstoneObj =>
          match assertPod_ok tombstoneObj with
          | None =>
              do (HandleError
                    (Errorf "tombstone contained object that is not a Pod: %#v"
                       [OpValue tombstoneObj]))
          | Some pod => enqueue pod
          end
      end
  end.

(** *** Namespace and policy admission filters *)

Definition assertNamespace_ok (obj : object) : option (option Namespace) :=
  match obj with NamespacePtr n => Some n | _ => None end.

Definition assertPolicy_ok (obj : object) : option (option AdminPolicyBasedExternalRoute) :=
  match obj with PolicyPtr p => Some p | _ => None end.

Definition onNamespaceAdd (obj : object) : prog unit :=
  match assertNamespace_ok obj with
  | None =>
      do (HandleError (Errorf "expecting %T but received %T"
                         [OpType (NamespacePtr None); OpType obj]))
  | Some None =>
      do (HandleError (ErrorsNew "invalid Namespace provided to onNamespaceAdd()"))
  | Some (Some ns) => do (Queue_Add namespaceQueue (NamespacePtr (Some ns)))
  end.

Definition onNamespaceUpdate (oldObj newObj : object) : prog unit :=
  match assertNamespace_ok oldObj with
  | None =>
      do (HandleError (Errorf "expecting %T but received %T"
                         [OpType (NamespacePtr None); OpType oldObj]))
  | Some oldNamespace =>
      match assertNamespace_ok newObj with
      | None =>
          do (HandleError (Errorf "expecting %T but received %T"
                             [OpType (NamespacePtr None); OpType newObj]))
      | Some newNamespace =>
          match oldNamespace, newNamespace with
          | Some o, Some n =>
              if bool_decide (ns_ResourceVersion o = ns_ResourceVersion n)
                 || negb (Time_IsZero (ns_DeletionTimestamp n))
              then mret tt
              else do (Queue_Add namespaceQueue (NamespacePtr (Some n)))
          | _, _ =>
              do (HandleError (ErrorsNew "invalid Namespace provided to onNamespaceUpdate()"))
          end
      end
  end.

Definition onNamespaceDelete (obj : object) : prog unit :=
  let enqueue (ns : option Namespace) : prog unit :=
    match ns with
    | Some _ => do (Queue_Add namespaceQueue (NamespacePtr ns))
    | None => mret tt
    end in
  match assertNamespace_ok obj with
  | Some ns => enqueue ns
  | None =>
      match assertTombstone_ok obj with
      | None =>
          do (HandleError (Errorf "couldn't get object from tombstone %#v" [OpValue obj]))
      | Some tombstoneObj =>
          match assertNamespace_ok tombstoneObj with
          | None =>
              do (HandleError
                    (Errorf "tombstone contained object that is not a Namespace: %#v"
                       [OpValue tombstoneObj]))
          | Some ns => enqueue ns
          end
      end
  end.

Definition onPolicyAdd (obj : object) : prog unit :=
  match assertPolicy_ok obj with
  | None =>
      do (HandleError (Errorf "expecting %T but received %T"
                         [OpType (PolicyPtr None); OpType obj]))
  | Some None =>
      do (HandleError
            (ErrorsNew "invalid Admin Policy Based External Route provided to onPolicyAdd()"))
  | Some (Some policy) => do (Queue_Add routeQueue (PolicyPtr (Some policy)))
  end.

Definition onPolicyUpdate (oldObj newObj : object) : prog unit :=
  match assertPolicy_ok oldObj with
  | None =>
      do (HandleError (Errorf "expecting %T but received %T"
                         [OpType (PolicyPtr None); OpType oldObj]))
  | Some oldRoutePolicy =>
      match assertPolicy_ok newObj with
      | None =>
          do (HandleError (Errorf "expecting %T but received %T"
                             [OpType (PolicyPtr None); OpType newObj]))
      | Some newRoutePolicy =>
          match oldRoutePolicy, newRoutePolicy with
          | Some o, Some n =>
              if bool_decide (apb_Generation o = apb_Generation n)
                 || negb (Time_IsZero (apb_DeletionTimestamp n))
              then mret tt
              else do (Queue_Add routeQueue newObj)
          | _, _ =>
              do (HandleError
                    (ErrorsNew
                       "invalid Admin Policy Based External Route provided to onPolicyUpdate()"))
          end
      end
  end.

Definition onPolicyDelete (obj : object) : prog unit :=
  let enqueue (policy : option AdminPolicyBasedExternalRoute) : prog unit :=
    match policy with
    | Some _ => do (Queue_Add routeQueue (PolicyPtr policy))
    | None => mret tt
    end in
  match assertPolicy_ok obj with
  | Some policy => enqueue policy
  | None =>
      match assertTombstone_ok obj with
      | None =>
          do (HandleError (Errorf "couldn't get object from tomstone %#v" [OpValue obj]))
      | Some tombstoneObj =>
          match assertPolicy_ok tombstoneObj with
          | None =>
              do (HandleError
                    (Errorf
                       "tombstone contained object that is not an Admin Policy Based External Route %#v"
                       [OpValue tombstoneObj]))
          | Some policy => enqueue policy
          end
      end
  end.

(** *** Worker loops *)

(** [for step() {}] with a bound on the number of iterations: [Some tt] when
    the loop ended because [step] returned false, [None] when the bound was
    reached first. *)
Fixpoint for_loop (fuel : nat) (step : prog bool) : prog (option unit) :=
  match fuel with
  | O => mret None
  | S fuel =>
      continue ← step;
      if (continue : bool) then for_loop fuel step else mret (Some tt)
  end.

Definition runPolicyWorker (maxRetries : Z) (fuel : nat) : prog (option unit) :=
  for_loop fuel (processNextPolicyWorkItem maxRetries).

Definition runNamespaceWorker (maxRetries : Z) (fuel : nat) : prog (option unit) :=
  for_loop fuel (processNextNamespaceWorkItem maxRetries).

Definition runPodWorker (maxRetries : Z) (fuel : nat) : prog (option unit) :=
  for_loop fuel (processNextPodWorkItem maxRetries).

(** * Reference collaborators

    The manager ([externalPolicyManager]) is declared in other files of the
    package; the listers and the work queues come from client-go.  The
    definitions of this part give one implementation of them, written from
    the design document of the controller: the controller is run against it
    on concrete clusters, and the properties that depend on what the manager
    does with its caches are stated against it. *)

#[global] Instance Time_eq_dec : EqDecision Time.
Proof. solve_decision. Defined.
#[global] Instance DynamicHop_eq_dec : EqDecision DynamicHop.
Proof. solve_decision. Defined.
#[global] Instance ExternalRouteSpec_eq_dec : EqDecision ExternalRouteSpec.
Proof. solve_decision. Defined.
#[global] Instance AdminPolicyBasedExternalRoute_eq_dec :
  EqDecision AdminPolicyBasedExternalRoute.
Proof. solve_decision. Defined.
#[global] Instance Namespace_eq_dec : EqDecision Namespace.
Proof. solve_decision. Defined.
#[global] Instance Pod_eq_dec : EqDecision Pod.
Proof. solve_decision. Defined.
#[global] Instance object_eq_dec : EqDecision object.
Proof. solve_decision. Defined.

(** Modelled from the spec: the cache entry of a namespace (the struct
    [namespaceInfo] is declared outside this file): the names of the policies
    matching the namespace, the resolved static and dynamic gateway IPs and
    the tombstone flag.  The per-entry lock is left out: a run is
    sequential. *)
Record namespaceInfo := {
  Policies : StringSet;
  StaticGateways : gset string;
  DynamicGateways : gset string;
  markForDelete : bool;
}.

(** Modelled from the spec: the calls of the dataplane applier. *)
Inductive applierCall :=
| Apply (namespace : string) (desiredGatewayIPs : gset string)
| Withdraw (namespace : string)
| FlushConnTrack (namespace : string).

(** Modelled from the spec: a change queue (the work queue of client-go),
    reduced to what the workers observe: the waiting items, the items being
    processed and one entry per failed attempt. *)
Record queueState := {
  q_items : list object;
  q_processing : list object;
  q_failures : list object;
}.

(** Modelled from the spec: the state of the collaborators, which is the
    three authoritative listings, the manager's caches (cached policies,
    namespace entries, reverse index of the gateway pods), the record of the
    applier calls and the three queues. *)
Record env := {
  (** authoritative listings *)
  routes : gmap string AdminPolicyBasedExternalRoute;
  namespaces : gmap string Namespace;
  pods : gmap (string * string) Pod;
  (** the manager's caches *)
  policyCache : gmap string AdminPolicyBasedExternalRoute;
  nsCache : gmap string namespaceInfo;
  podIndex : gmap (string * string) (gset string);
  (** what the dataplane applier was asked to do, oldest first *)
  applier : list applierCall;
  routeQ : queueState;
  namespaceQ : queueState;
  podQ : queueState;
}.

Definition with_caches (e : env)
    (pc : gmap string AdminPolicyBasedExternalRoute)
    (nc : gmap string namespaceInfo)
    (pi : gmap (string * string) (gset string))
    (ap : list applierCall) : env :=
  {| routes := routes e; namespaces := namespaces e; pods := pods e;
     policyCache := pc; nsCache := nc; podIndex := pi; applier := ap;
     routeQ := routeQ e; namespaceQ := namespaceQ e; podQ := podQ e |}.

Definition with_nsCache (e : env) (nc : gmap string namespaceInfo) : env :=
  with_caches e (policyCache e) nc (podIndex e) (applier e).
Definition with_policyCache (e : env) (pc : gmap string AdminPolicyBasedExternalRoute) : env :=
  with_caches e pc (nsCache e) (podIndex e) (applier e).
Definition with_podIndex (e : env) (pi : gmap (string * string) (gset string)) : env :=
  with_caches e (policyCache e) (nsCache e) pi (applier e).

Definition get_queue (e : env) (q : queue) : queueState :=
  match q with
  | routeQueue => routeQ e
  | namespaceQueue => namespaceQ e
  | podQueue => podQ e
  end.

Definition with_queue (e : env) (q : queue) (st : queueState) : env :=
  {| routes := routes e; namespaces := namespaces e; pods := pods e;
     policyCache := policyCache e; nsCache := nsCache e; podIndex := podIndex e;
     applier := applier e;
     routeQ := match q with routeQueue => st | _ => routeQ e end;
     namespaceQ := match q with namespaceQueue => st | _ => namespaceQ e end;
     podQ := match q with podQueue => st | _ => podQ e end |}.

(** *** Selectors and the gateway resolver *)

Definition labels_of (m : gomap) : gmap string string := default ∅ m.

(** Modelled from the spec: a selector selects the objects that carry all of
    its labels. *)
Definition selects (selector labels : gmap string string) : bool :=
  bool_decide (map_Forall (λ k v, labels !! k = Some v) selector).

(** The listed policies whose names are in [names]. *)
Definition policies_named (e : env) (names : gset string)
  : list AdminPolicyBasedExternalRoute :=
  (map_to_list (filter (λ kv, kv.1 ∈ names) (routes e))).*2.

(** Modelled from the spec: the policies whose [From] selector matches the
    labels of the listed namespace. *)
Definition matching_policies (e : env) (name : string) : gset string :=
  match namespaces e !! name with
  | None => ∅
  | Some ns =>
      dom (filter (λ kv, selects (spec_From (apb_Spec kv.2)) (labels_of (ns_Labels ns)) = true)
             (routes e))
  end.

Definition static_ips (e : env) (names : gset string) : gset string :=
  ⋃ (map (λ p, spec_StaticIPs (apb_Spec p)) (policies_named e names)).

(** A pod is a live gateway for a set of policies when it is not terminating
    and one of their dynamic hops selects it. *)
Definition is_gateway (e : env) (names : gset string) (pod : Pod) : bool :=
  Time_IsZero (pod_DeletionTimestamp pod)
  && existsb (λ hop, selects (hop_PodSelector hop) (labels_of (pod_Labels pod)))
       (concat (map (λ p, spec_DynamicHops (apb_Spec p)) (policies_named e names))).

Definition pod_ips (pod : Pod) : gset string := list_to_set (default [] (pod_PodIPs pod)).

Definition dynamic_ips (e : env) (names : gset string) : gset string :=
  ⋃ (map pod_ips (filter (λ pod, is_gateway e names pod = true) (map_to_list (pods e)).*2)).

(** Modelled from the spec: the gateway resolver, static IPs of the matching
    policies together with the IPs of their live gateway pods. *)
Definition resolve (e : env) (info : namespaceInfo) : namespaceInfo :=
  {| Policies := Policies info;
     StaticGateways := static_ips e (set_elems (Policies info));
     DynamicGateways := dynamic_ips e (set_elems (Policies info));
     markForDelete := markForDelete info |}.

(** Modelled from the spec: re-resolve the entry of a namespace and hand the
    result to the applier; no work is applied to a tombstone. *)
Definition refresh (name : string) (e : env) : env :=
  match nsCache e !! name with
  | None => e
  | Some info =>
      if markForDelete info then e else
      let info' := resolve e info in
      with_caches e (policyCache e) (<[name := info']> (nsCache e)) (podIndex e)
        (applier e ++ [Apply name (StaticGateways info' ∪ DynamicGateways info')])
  end.

Definition refresh_all (names : list string) (e : env) : env :=
  foldr refresh e names.

Definition set_Policies (v : StringSet) (info : namespaceInfo) : namespaceInfo :=
  {| Policies := v; StaticGateways := StaticGateways info;
     DynamicGateways := DynamicGateways info; markForDelete := markForDelete info |}.

Definition empty_info : namespaceInfo :=
  {| Policies := Some ∅; StaticGateways := ∅; DynamicGateways := ∅; markForDelete := false |}.

(** The entry of namespace [name] lives at address [encode name]. *)
Definition addr (name : string) : loc := encode name.
Definition entry_at (e : env) (l : loc) : option namespaceInfo :=
  name ← decode l; nsCache e !! (name : string).
Definition update_at (f : namespaceInfo → namespaceInfo) (l : loc) (e : env) : env :=
  match decode l with
  | Some name => with_nsCache e (alter f (name : string) (nsCache e))
  | None => e
  end.

Definition tombstoned (e : env) (name : string) : bool :=
  match nsCache e !! name with
  | Some info => markForDelete info
  | None => false
  end.

Definition InProgress (name : string) : error :=
  Errorf "namespace %s is being deleted" [OpString name].


(** *** The manager *)

(** Modelled from the spec: a cached policy is reported as marked for
    deletion when a namespace entry it is associated with is a tombstone. *)
Definition policy_tombstoned (e : env) (name : string) : bool :=
  bool_decide (map_Exists
    (λ _ info, name ∈ set_elems (Policies info) ∧ markForDelete info = true) (nsCache e)).

Definition zero_policy : AdminPolicyBasedExternalRoute :=
  {| apb_Name := EmptyString; apb_Generation := 0; apb_DeletionTimestamp := None;
     apb_Spec := {| spec_From := ∅; spec_StaticIPs := ∅; spec_DynamicHops := [] |} |}.

Definition ref_getRoutePolicyFromCache (name : string) (e : env)
  : AdminPolicyBasedExternalRoute * bool * bool :=
  match policyCache e !! name with
  | Some p => (p, true, policy_tombstoned e name)
  | None => (zero_policy, false, false)
  end.

(** Modelled from the spec: associate policy [name] with the entry of
    namespace [ns], creating the entry when there is none; no work is applied
    to a tombstone. *)
Definition attach (name ns : string) (e : env) : env :=
  let info := default empty_info (nsCache e !! ns) in
  if markForDelete info then e else
  refresh ns
    (with_nsCache e
       (<[ns := set_Policies (Some ({[name]} ∪ set_elems (Policies info))) info]> (nsCache e))).

(** Modelled from the spec: remove the association of policy [name] with
    the entry of namespace [ns], whatever the state of the entry (only add
    and update are rejected for a namespace in deletion); the gateway IPs of
    a live entry are then resolved again. *)
Definition detach (name ns : string) (e : env) : env :=
  match nsCache e !! ns with
  | None => e
  | Some info =>
      if bool_decide (name ∈ set_elems (Policies info)) then
        refresh ns
          (with_nsCache e
             (<[ns := set_Policies (Some (set_elems (Policies info) ∖ {[name]})) info]>
                (nsCache e)))
      else e
  end.

(** The listed namespaces selected by the [From] selector of a policy. *)
Definition target_namespaces (e : env) (p : AdminPolicyBasedExternalRoute) : list string :=
  elements (dom (filter
    (λ kv, selects (spec_From (apb_Spec p)) (labels_of (ns_Labels kv.2)) = true)
    (namespaces e))).

(** Modelled from the spec: Add path of a policy, compute the selector
    matches and populate the cache entries. *)
Definition ref_processAddPolicy (p : AdminPolicyBasedExternalRoute) (e : env) : env :=
  let e1 := with_policyCache e (<[apb_Name p := p]> (policyCache e)) in
  foldr (attach (apb_Name p)) e1 (target_namespaces e1 p).

(** Modelled from the spec: Delete path of a policy, remove all cache
    associations for the policy name across every namespace it matched. *)
Definition ref_processDeletePolicy (name : string) (e : env) : env :=
  let e1 := foldr (detach name) e (elements (dom (nsCache e))) in
  with_policyCache e1 (delete name (policyCache e1)).

(** Modelled from the spec: Update path of a policy, the associations of the
    old spec are replaced by those of the new one. *)
Definition ref_processUpdatePolicy (cur new : AdminPolicyBasedExternalRoute) (e : env) : env :=
  ref_processAddPolicy new (ref_processDeletePolicy (apb_Name cur) e).

(** Modelled from the spec: lookup of the entry of a namespace; the entry is
    handed out by address. *)
Definition ref_getNamespaceInfoFromCache (name : string) (e : env) : option loc * bool :=
  match nsCache e !! name with
  | Some _ => (Some (addr name), true)
  | None => (None, false)
  end.

(** Modelled from the spec: Add path of a namespace, resolve the gateway IPs
    of the entry and hand them to the applier. *)
Definition ref_processAddNamespace (ns : Namespace) (e : env) : option error * env :=
  if tombstoned e (ns_Name ns) then (Some (InProgress (ns_Name ns)), e)
  else (None, refresh (ns_Name ns) e).

(** Modelled from the spec: Update path of a namespace, the entry takes the
    new set of policies and is resolved again. *)
Definition ref_processUpdateNamespace (name : string) (new : StringSet) (e : env)
  : option error * env :=
  if tombstoned e name then (Some (InProgress name), e)
  else (None, refresh name (with_nsCache e (alter (set_Policies new) name (nsCache e)))).

(** Modelled from the spec: Delete path of a namespace, the entry is torn
    down entirely; nothing happens when there is no entry. *)
Definition ref_processDeleteNamespace (name : string) (e : env) : env :=
  match nsCache e !! name with
  | None => e
  | Some _ =>
      with_caches e (policyCache e) (delete name (nsCache e))
        ((λ s, s ∖ {[name]}) <$> podIndex e)
        (applier e ++ [Withdraw name; FlushConnTrack name])
  end.

Definition pod_key (pod : Pod) : string * string := (pod_Namespace pod, pod_Name pod).

(** The cached namespaces for which the pod qualifies as a gateway. *)
Definition gateway_targets (e : env) (pod : Pod) : gset string :=
  dom (filter (λ kv, is_gateway e (set_elems (Policies kv.2)) pod = true) (nsCache e)).

Definition first_tombstone (e : env) (names : gset string) : option string :=
  head (filter (λ n, tombstoned e n = true) (elements names)).

(** Modelled from the spec: Add path of a pod, the namespaces it now gateways
    for are recorded in the reverse index and resolved again; work on a
    tombstone fails with the in-progress error. *)
Definition ref_processAddPod (pod : Pod) (e : env) : option error * env :=
  let targets := gateway_targets e pod in
  match first_tombstone e targets with
  | Some n => (Some (InProgress n), e)
  | None =>
      let index := if bool_decide (targets = ∅) then podIndex e
                   else <[pod_key pod := targets]> (podIndex e) in
      (None, refresh_all (elements targets) (with_podIndex e index))
  end.

(** The cluster without the pod [key] in the pod listing. *)
Definition without_pod (key : string * string) (e : env) : env :=
  {| routes := routes e; namespaces := namespaces e; pods := delete key (pods e);
     policyCache := policyCache e; nsCache := nsCache e; podIndex := podIndex e;
     applier := applier e;
     routeQ := routeQ e; namespaceQ := namespaceQ e; podQ := podQ e |}.

(** Modelled from the spec: Delete path of a pod, its contribution is removed
    from each matched namespace and the reverse-index entry is dropped.  The
    cache keeps the dynamic IPs of a namespace as one set, so the set that
    remains is the one the live gateway pods other than this pod resolve to,
    whatever IPs the object of the event carries. *)
Definition drop_pod (e : env) (key : string * string) (info : namespaceInfo)
  : namespaceInfo :=
  {| Policies := Policies info; StaticGateways := StaticGateways info;
     DynamicGateways := dynamic_ips (without_pod key e) (set_elems (Policies info));
     markForDelete := markForDelete info |}.

(** Modelled from the spec: Delete path of a pod on the namespaces of its
    reverse-index entry; work on a tombstone fails with the in-progress error
    and changes nothing. *)
Definition ref_processDeletePod (pod : Pod) (nss : StringSet) (e : env) : option error * env :=
  match first_tombstone e (set_elems nss) with
  | Some n => (Some (InProgress n), e)
  | None =>
      (None,
       with_caches e (policyCache e)
         (foldr (alter (drop_pod e (pod_key pod))) (nsCache e) (elements (set_elems nss)))
         (delete (pod_key pod) (podIndex e))
         (applier e ++ [FlushConnTrack (pod_Namespace pod)]))
  end.

(** Modelled from the spec: Update path of a pod, its old contribution is
    dropped and the current one is resolved again. *)
Definition ref_processUpdatePod (pod : Pod) (nss : StringSet) (e : env) : option error * env :=
  match first_tombstone e (set_elems nss ∪ gateway_targets e pod) with
  | Some n => (Some (InProgress n), e)
  | None =>
      let targets := gateway_targets e pod in
      let index := if bool_decide (targets = ∅) then delete (pod_key pod) (podIndex e)
                   else <[pod_key pod := targets]> (podIndex e) in
      (None, refresh_all (elements (set_elems nss ∪ targets)) (with_podIndex e index))
  end.

(** Modelled from the spec: the resolved IP sets of a namespace as the
    manager exposes them; a namespace without entry has none. *)
Definition ref_gatewayIPs (proj : namespaceInfo → gset string) (name : string) (e : env)
  : StringSet * option error :=
  match nsCache e !! name with
  | Some info => (Some (proj info), None)
  | None => (Some ∅, None)
  end.

(** *** Listers and queues *)

(** Modelled from the spec: [Get] of a source answers the object or
    NotFound. *)
Definition lister_Get {K V} `{Countable K} (m : gmap K V) (k : K) (what : string)
  : option error :=
  match m !! k with
  | Some _ => None
  | None => Some (StatusError StatusReasonNotFound what)
  end.

Definition remove_obj (obj : object) (l : list object) : list object :=
  filter (λ o, o ≠ obj) l.

Definition ref_queue (c : queue) (op : queueState → queueState) (e : env) : env :=
  with_queue e c (op (get_queue e c)).

(** Modelled from the spec: the operations of a change queue.  [Get] on an
    empty queue reports the shutdown; [AddRateLimited] records a failed
    attempt and re-adds the item; [Forget] resets the record; [Add] of an
    item that is already waiting does nothing. *)
Definition q_Get (st : queueState) : (object * bool) * queueState :=
  match q_items st with
  | [] => ((Nil, true), st)
  | obj :: rest =>
      ((obj, false),
       {| q_items := rest; q_processing := obj :: q_processing st;
          q_failures := q_failures st |})
  end.

Definition q_Done (obj : object) (st : queueState) : queueState :=
  {| q_items := q_items st; q_processing := remove_obj obj (q_processing st);
     q_failures := q_failures st |}.

Definition q_NumRequeues (obj : object) (st : queueState) : Z :=
  Z.of_nat (length (filter (λ o, o = obj) (q_failures st))).

Definition q_AddRateLimited (obj : object) (st : queueState) : queueState :=
  {| q_items := q_items st ++ [obj]; q_processing := q_processing st;
     q_failures := obj :: q_failures st |}.

Definition q_Forget (obj : object) (st : queueState) : queueState :=
  {| q_items := q_items st; q_processing := q_processing st;
     q_failures := remove_obj obj (q_failures st) |}.

Definition q_Add (obj : object) (st : queueState) : queueState :=
  {| q_items := if bool_decide (obj ∈ q_items st) then q_items st else q_items st ++ [obj];
     q_processing := q_processing st; q_failures := q_failures st |}.

(** *** The handler *)

(** Modelled from the spec: the answers of the listers, of the manager and
    of the queues, and the fields of the cache entries behind their
    addresses. *)
Definition ref_handler : handler env := λ c e,
  match c return resp c * env with
  | RouteLister_Get name => (lister_Get (routes e) name "adminpolicybasedexternalroute", e)
  | NamespaceLister_Get name => (lister_Get (namespaces e) name "namespace", e)
  | PodLister_Get ns name => (lister_Get (pods e) (ns, name) "pod", e)
  | Mgr_processDeletePolicy name => (None, ref_processDeletePolicy name e)
  | Mgr_getRoutePolicyFromCache name => (ref_getRoutePolicyFromCache name e, e)
  | Mgr_processAddPolicy p => (None, ref_processAddPolicy p e)
  | Mgr_processUpdatePolicy cur new => (None, ref_processUpdatePolicy cur new e)
  | Mgr_processDeleteNamespace name => (None, ref_processDeleteNamespace name e)
  | Mgr_getPoliciesForNamespace name => ((Some (matching_policies e name), None), e)
  | Mgr_getNamespaceInfoFromCache name => (ref_getNamespaceInfoFromCache name e, e)
  | Mgr_unlockNamespaceInfoCache _ => (tt, e)
  | Mgr_newNamespaceInfoInCache name =>
      (Some (addr name), with_nsCache e (<[name := empty_info]> (nsCache e)))
  | Mgr_processAddNamespace ns _ => ref_processAddNamespace ns e
  | Mgr_processUpdateNamespace name _ new _ => ref_processUpdateNamespace name new e
  | Mgr_filterNamespacesUsingPodGateway key =>
      (Some (default ∅ (podIndex e !! (nn_Namespace key, nn_Name key))), e)
  | Mgr_processDeletePod pod nss => ref_processDeletePod pod nss e
  | Mgr_processAddPod pod => ref_processAddPod pod e
  | Mgr_processUpdatePod pod nss => ref_processUpdatePod pod nss e
  | Mgr_getDynamicGatewayIPsForTargetNamespace name => (ref_gatewayIPs DynamicGateways name e, e)
  | Mgr_getStaticGatewayIPsForTargetNamespace name => (ref_gatewayIPs StaticGateways name e, e)
  | Load_markForDelete l => (default false (markForDelete <$> entry_at e l), e)
  | Load_Policies l => (default None (Policies <$> entry_at e l), e)
  | Store_Policies l v => (tt, update_at (set_Policies v) l e)
  | Queue_Get q => let '(r, st) := q_Get (get_queue e q) in (r, with_queue e q st)
  | Queue_Done q obj => (tt, ref_queue q (q_Done obj) e)
  | Queue_NumRequeues q obj => (q_NumRequeues obj (get_queue e q), e)
  | Queue_AddRateLimited q obj => (tt, ref_queue q (q_AddRateLimited obj) e)
  | Queue_Forget q obj => (tt, ref_queue q (q_Forget obj) e)
  | Queue_Add q obj => (tt, ref_queue q (q_Add obj) e)
  | Klog _ _ _ | HandleError _ | WaitGroup_Add _ | WaitGroup_Done => (tt, e)
  end.

(** *** A small cluster *)

Definition empty_queue : queueState :=
  {| q_items := []; q_processing := []; q_failures := [] |}.

Definition policy_P : AdminPolicyBasedExternalRoute :=
  {| apb_Name := "P"; apb_Generation := 1; apb_DeletionTimestamp := None;
     apb_Spec := {| spec_From := {[ "team" := "a" ]};
                    spec_StaticIPs := {[ "10.0.0.5" ]};
                    spec_DynamicHops :=
                      [ {| hop_PodSelector := {[ "role" := "gw" ]};
                           hop_BFDEnabled := false |} ] |} |}.

Definition namespace_ns1 : Namespace :=
  {| ns_Name := "ns1"; ns_ResourceVersion := "7"; ns_DeletionTimestamp := None;
     ns_Labels := Some {[ "team" := "a" ]} |}.

Definition pod_gw1 : Pod :=
  {| pod_Namespace := "gws"; pod_Name := "gw1";
     pod_Labels := Some {[ "role" := "gw" ]};
     pod_Annotations := None;
     pod_DeletionTimestamp := None;
     pod_PodIPs := Some ["192.168.1.9"] |}.

(** The object of a delete or update event for gw1 once its deletion has
    started. *)
Definition pod_gw1_terminating : Pod :=
  {| pod_Namespace := "gws"; pod_Name := "gw1";
     pod_Labels := Some {[ "role" := "gw" ]};
     pod_Annotations := None;
     pod_DeletionTimestamp := Some {| instant := 63900000000 |};
     pod_PodIPs := Some ["192.168.1.9"] |}.

(** The object of a delete event for gw1 that carries another address than
    the one the pod contributed. *)
Definition pod_gw1_moved_terminating : Pod :=
  {| pod_Namespace := "gws"; pod_Name := "gw1";
     pod_Labels := Some {[ "role" := "gw" ]};
     pod_Annotations := None;
     pod_DeletionTimestamp := Some {| instant := 63900000000 |};
     pod_PodIPs := Some ["192.168.1.10"] |}.

(** Policy P, namespace ns1 and pod gw1 are listed; the caches are empty. *)
Definition cluster0 : env :=
  {| routes := {[ "P" := policy_P ]};
     namespaces := {[ "ns1" := namespace_ns1 ]};
     pods := {[ ("gws", "gw1") := pod_gw1 ]};
     policyCache := ∅; nsCache := ∅; podIndex := ∅; applier := [];
     routeQ := empty_queue; namespaceQ := empty_queue; podQ := empty_queue |}.


(** The same cluster once policy P has been reconciled: P is cached and
    the entry of ns1 carries it together with the resolved gateway IPs.
    [marked] says whether the entry is a tombstone. *)
Definition info_ns1 (marked : bool) : namespaceInfo :=
  {| Policies := Some {[ "P" ]};
     StaticGateways := {[ "10.0.0.5" ]};
     DynamicGateways := {[ "192.168.1.9" ]};
     markForDelete := marked |}.

Definition cluster_cached (marked : bool) : env :=
  with_caches cluster0 {[ "P" := policy_P ]} {[ "ns1" := info_ns1 marked ]}
    {[ ("gws", "gw1") := {[ "ns1" ]} ]} [].

(** Policy P has been removed from the listing but is still cached. *)
Definition cluster_unlisted : env :=
  {| routes := ∅;
     namespaces := namespaces cluster0; pods := pods cluster0;
     policyCache := policyCache (cluster_cached false);
     nsCache := nsCache (cluster_cached false);
     podIndex := podIndex (cluster_cached false);
     applier := [];
     routeQ := empty_queue; namespaceQ := empty_queue; podQ := empty_queue |}.

(** A queue holding [obj], which has already failed [n] times. *)
Definition queue_with (obj : object) (n : nat) : queueState :=
  {| q_items := [obj]; q_processing := []; q_failures := replicate n obj |}.

(** The tombstoned cluster with ns1 waiting in the namespace queue after [n]
    failed attempts. *)
Definition cluster_queued (n : nat) : env :=
  with_queue (cluster_cached true) namespaceQueue
    (queue_with (NamespacePtr (Some namespace_ns1)) n).

Definition deleting_error (name : string) : error :=
  Errorf "cannot add namespace %s because it is currently being deleted" [OpString name].

(** The reference handler with gateway lookups that fail, as when the
    manager cannot read the policy listing. *)
Definition listing_error : error := ErrorsNew "policy listing unavailable".

Definition failing_handler (dynamic static : bool) : handler env := λ c,
  match c return env → resp c * env with
  | Mgr_getDynamicGatewayIPsForTargetNamespace name => λ e,
      if dynamic then ((None, Some listing_error), e)
      else ref_handler (Mgr_getDynamicGatewayIPsForTargetNamespace name) e
  | Mgr_getStaticGatewayIPsForTargetNamespace name => λ e,
      if static then ((None, Some listing_error), e)
      else ref_handler (Mgr_getStaticGatewayIPsForTargetNamespace name) e
  | c => ref_handler c
  end.

(** What one run of [syncNamespace] against the reference collaborators
    returns and leaves, in closed form. *)
Definition syncNamespace_on_ref (ns : Namespace) (e : env) : option error * env :=
  let name := ns_Name ns in
  if bool_decide (namespaces e !! name = None)
     || negb (Time_IsZero (ns_DeletionTimestamp ns))
  then (None, ref_processDeleteNamespace name e)
  else
    let matches := Some (matching_policies e name) in
    match nsCache e !! name with
    | None =>
        if bool_decide (Set_Len matches = 0) then (None, e)
        else ref_processAddNamespace ns
               (update_at (set_Policies matches) (addr name)
                  (with_nsCache e (<[name := empty_info]> (nsCache e))))
    | Some info =>
        if markForDelete info then (Some (deleting_error name), e)
        else if Set_Equal (Policies info) matches then (None, e)
        else ref_processUpdateNamespace name matches e
    end.

(** The reference handler with listers that cannot answer. *)
Definition lister_error : error := ErrorsNew "informer cache unavailable".

Definition lister_failing_handler : handler env := λ c,
  match c return env → resp c * env with
  | RouteLister_Get _ => λ e, (Some lister_error, e)
  | NamespaceLister_Get _ => λ e, (Some lister_error, e)
  | PodLister_Get _ _ => λ e, (Some lister_error, e)
  | c => ref_handler c
  end.

(** The reference handler with a manager that reports an entry as found and
    hands out a nil pointer ([found_nil]), or whose
    [newNamespaceInfoInCache] returns nil ([new_nil]). *)
Definition nil_entry_handler (found_nil new_nil : bool) : handler env := λ c,
  match c return env → resp c * env with
  | Mgr_getNamespaceInfoFromCache name => λ e,
      if found_nil then ((None, true), e)
      else ref_handler (Mgr_getNamespaceInfoFromCache name) e
  | Mgr_newNamespaceInfoInCache name => λ e,
      if new_nil then (None, e)
      else ref_handler (Mgr_newNamespaceInfoInCache name) e
  | c => ref_handler c
  end.

(** The reference handler with a manager that cannot compute the policies of
    a namespace. *)
Definition matches_failing_handler : handler env := λ c,
  match c return env → resp c * env with
  | Mgr_getPoliciesForNamespace _ => λ e, ((None, Some listing_error), e)
  | c => ref_handler c
  end.

(** Namespace ns1 with labels that no listed policy selects. *)
Definition namespace_ns1_relabelled : Namespace :=
  {| ns_Name := "ns1"; ns_ResourceVersion := "8"; ns_DeletionTimestamp := None;
     ns_Labels := Some {[ "team" := "b" ]} |}.

(** The reconciled cluster after ns1 has been relabelled in the listing. *)
Definition cluster_relabelled : env :=
  {| routes := routes cluster0;
     namespaces := {[ "ns1" := namespace_ns1_relabelled ]};
     pods := pods cluster0;
     policyCache := policyCache (cluster_cached false);
     nsCache := nsCache (cluster_cached false);
     podIndex := podIndex (cluster_cached false);
     applier := [];
     routeQ := empty_queue; namespaceQ := empty_queue; podQ := empty_queue |}.

(** The object of a delete event for ns1 once its deletion has started. *)
Definition namespace_ns1_terminating : Namespace :=
  {| ns_Name := "ns1"; ns_ResourceVersion := "9";
     ns_DeletionTimestamp := Some {| instant := 63900000000 |};
     ns_Labels := Some {[ "team" := "a" ]} |}.

(** A namespace that is not listed. *)
Definition namespace_ns9 : Namespace :=
  {| ns_Name := "ns9"; ns_ResourceVersion := "1"; ns_DeletionTimestamp := None;
     ns_Labels := None |}.

(** Cluster0 with [obj] waiting in queue [q]. *)
Definition cluster_holding (q : queue) (obj : object) : env :=
  with_queue cluster0 q (queue_with obj 0).

(** * Vocabulary of the statements *)

(** ** Calls that change the cache *)

(** The calls through which the controller can change the manager's caches:
    the [process*] operations, the creation of an entry and the store into
    an entry.  Lookups, loads, the unlock, the queues and the log are not
    among them. *)
Definition mutates_cache (c : call) : bool :=
  match c with
  | Mgr_processDeletePolicy _ | Mgr_processAddPolicy _ | Mgr_processUpdatePolicy _ _
  | Mgr_processDeleteNamespace _ | Mgr_newNamespaceInfoInCache _
  | Mgr_processAddNamespace _ _ | Mgr_processUpdateNamespace _ _ _ _
  | Mgr_processDeletePod _ _ | Mgr_processAddPod _ | Mgr_processUpdatePod _ _
  | Store_Policies _ _ => true
  | _ => false
  end.

Definition read_only (tr : list call) : Prop :=
  Forall (λ c, mutates_cache c = false) tr.


Definition pod_nn (pod : Pod) : NamespacedName :=
  {| nn_Namespace := pod_Namespace pod; nn_Name := pod_Name pod |}.

Definition pod_ref (pod : Pod) : list logOperand :=
  [LStr (pod_Namespace pod); LStr (pod_Name pod)].

(** The pod is absent from the listing or its deletion timestamp is set. *)
Definition pod_gone (err : option error) (pod : Pod) : bool :=
  IsNotFound err || negb (Time_IsZero (pod_DeletionTimestamp pod)).

(** The namespaces that a sync of [pod] works on, in the reference cluster:
    those of its reverse-index entry and, while the pod is listed and live,
    those for which it qualifies as a gateway. *)
Definition pod_targets (e : env) (pod : Pod) : gset string :=
  default ∅ (podIndex e !! pod_key pod)
  ∪ (if pod_gone (lister_Get (pods e) (pod_key pod) "pod") pod then ∅
     else gateway_targets e pod).

(** The pod has at least one assigned IP. *)
Definition has_ips (pod : Pod) : Prop := (0 < length (default [] (pod_PodIPs pod)))%nat.

(** The multi-network status annotation of the pod, empty when absent. *)
Definition network_status (pod : Pod) : string :=
  gomap_index (pod_Annotations pod) NetworkStatusAnnot.

(** Labels, assigned IPs or network status differ between two pods. *)
Definition pod_changed (o n : Pod) : Prop :=
  pod_Labels o ≠ pod_Labels n
  ∨ pod_PodIPs o ≠ pod_PodIPs n
  ∨ network_status o ≠ network_status n.

(** The calls to a work queue. *)
Definition is_queue_call (c : call) : bool :=
  match c with
  | Queue_Get _ | Queue_Done _ _ | Queue_NumRequeues _ _ | Queue_AddRateLimited _ _
  | Queue_Forget _ _ | Queue_Add _ _ => true
  | _ => false
  end.

(** [avoids P p]: no run of [p] makes a call in [P]. *)
Fixpoint avoids {R} (P : call → bool) (p : prog R) : Prop :=
  match p with
  | Call c k => P c = false ∧ ∀ x, avoids P (k x)
  | _ => True
  end.

(** What a worker does on queue [q] after the sync of the dequeued [obj]
    returned [err], [n] being the answer of [NumRequeues]: requeue with
    backoff while [n < maxRetries], otherwise log, report and forget; forget
    on success; mark the item done and leave the wait group in every case. *)
Definition worker_tail (maxRetries : Z) (q : queue) (obj : object) (err : option error)
    (n : Z) (retryLog dropLog : error → call) : list call :=
  match err with
  | None => [Queue_Forget q obj]
  | Some e =>
      Queue_NumRequeues q obj ::
      (if bool_decide (n < maxRetries)
       then [retryLog e; Queue_AddRateLimited q obj]
       else [dropLog e; HandleError e; Queue_Forget q obj])
  end ++ [Queue_Done q obj; WaitGroup_Done].

(** The item is requeued: its sync failed and retries are left. *)
Definition requeued (maxRetries : Z) (err : option error) (n : Z) : Prop :=
  nonnil err = true ∧ n < maxRetries.

(** An item that a worker of queue [q] can take: a non-nil pointer of the
    type of the queue. *)
Definition well_typed (q : queue) (obj : object) : bool :=
  match q, obj with
  | routeQueue, PolicyPtr (Some _) => true
  | namespaceQueue, NamespacePtr (Some _) => true
  | podQueue, PodPtr (Some _) => true
  | _, _ => false
  end.

(** What an event handler of queue [q] may do: report an error, or add a
    well-typed item to its own queue. *)
Definition handler_call_ok (q : queue) (c : call) : bool :=
  match c with
  | HandleError _ => true
  | Queue_Add q' obj =>
      match q, q' with
      | routeQueue, routeQueue | namespaceQueue, namespaceQueue | podQueue, podQueue =>
          well_typed q obj
      | _, _ => false
      end
  | _ => false
  end.

(** At most one call, and an allowed one. *)
Definition handler_trace_ok (q : queue) (tr : list call) : Prop :=
  match tr with
  | [] => True
  | [c] => handler_call_ok q c = true
  | _ => False
  end.

(** [returns p]: no run of [p] panics. *)
Fixpoint returns {R} (p : prog R) : Prop :=
  match p with
  | Ret _ => True
  | Call c k => ∀ x, returns (k x)
  | Panic _ => False
  end.

Definition is_unlock (c : call) : bool :=
  match c with
  | Mgr_unlockNamespaceInfoCache _ => true
  | _ => false
  end.

(** The calls to the listers and to the manager. *)
Definition is_lister_or_manager_call (c : call) : bool :=
  match c with
  | Queue_Get _ | Queue_Done _ _ | Queue_NumRequeues _ _ | Queue_AddRateLimited _ _
  | Queue_Forget _ _ | Queue_Add _ _
  | Klog _ _ _ | HandleError _ | WaitGroup_Add _ | WaitGroup_Done => false
  | _ => true
  end.

Arguments nonnil {A} !x /.
Arguments IsNotFound !err /.
Arguments Time_IsZero !t /.
Arguments Set_Len : simpl never.
Arguments Set_Equal : simpl never.
Arguments Set_Union : simpl never.
Arguments syncRoutePolicy : simpl never.
Arguments syncNamespace : simpl never.
Arguments syncPod : simpl never.


(** One step of a run: unfold the program and use the recorded answers. *)
Ltac run_step :=
  match goal with
  | H : ?h ?c ?s = _ |- context [?h ?c ?s] => rewrite H
  | H : ?f ?x = _ |- context [?f ?x] => rewrite H
  end.

Ltac run := repeat (simpl; try run_step).

(** A call that differs from every element of an explicit list. *)
Ltac not_in_list :=
  let Hin := fresh "Hin" in
  intros Hin;
  repeat (apply elem_of_cons in Hin as [Hin|Hin]; [discriminate Hin|]);
  by apply elem_of_nil in Hin.

Ltac path :=
  repeat first
    [ progress run
    | rewrite bool_decide_eq_true_2 by done
    | rewrite bool_decide_eq_false_2 by done ];
  try done.



(** * Properties *)

Lemma pair_eta {A B} (p : A * B) (a : A) : p.1 = a → p = (a, p.2).
Proof. intros <-. by destruct p. Qed.

(** ** Running sequences and deferred calls *)

Lemma exec_bind {S A B} (h : handler S) (m : prog A) (f : A → prog B) (s : S) :
  exec h (bind m f) s =
    match exec h m s with
    | (Returned a, s1, tr1) =>
        let '(o, s2, tr2) := exec h (f a) s1 in (o, s2, tr1 ++ tr2)
    | (Panicked msg, s1, tr1) => (Panicked msg, s1, tr1)
    end.
Proof.
  revert s. induction m as [a | c k IH | msg]; intros s; simpl.
  - by destruct (exec h (f a) s) as [[o s2] tr2].
  - destruct (silent c) as [x|].
    + rewrite IH. destruct (exec h (k x) s) as [[[a|msg] s1] tr1]; [|done].
      by destruct (exec h (f a) s1) as [[o s2] tr2].
    + destruct (h c s) as [x s1]. rewrite IH.
      destruct (exec h (k x) s1) as [[[a|msg] s2] tr1]; [|done].
      by destruct (exec h (f a) s2) as [[o s3] tr2].
  - done.
Qed.

Lemma exec_defer {S R} (h : handler S) (d : prog unit) (body : prog R) (s : S) :
  exec h (defer d body) s =
    let '(o, s1, tr1) := exec h body s in
    let '(od, s2, tr2) := exec h d s1 in
    (match od with Returned _ => o | Panicked msg => Panicked msg end, s2, tr1 ++ tr2).
Proof.
  revert s. induction body as [r | c k IH | msg]; intros s; simpl.
  - rewrite exec_bind. destruct (exec h d s) as [[[[]|msg] s1] tr1]; simpl; try done.
    by rewrite app_nil_r.
  - destruct (silent c) as [x|].
    + rewrite IH. destruct (exec h (k x) s) as [[o s1] tr1].
      by destruct (exec h d s1) as [[od s2] tr2].
    + destruct (h c s) as [x s1]. rewrite IH.
      destruct (exec h (k x) s1) as [[o s2] tr1].
      by destruct (exec h d s2) as [[od s3] tr2].
  - rewrite exec_bind. destruct (exec h d s) as [[[[]|msg'] s1] tr1]; simpl; try done.
    by rewrite app_nil_r.
Qed.

(** A view of the state that the non-mutating calls preserve is preserved by
    every run made of such calls. *)
Lemma exec_read_only {S R V} (h : handler S) (view : S → V) (p : prog R) (s : S) :
  (∀ c s, mutates_cache c = false → view (h c s).2 = view s) →
  read_only (trace (exec h p s)) →
  view (final (exec h p s)) = view s.
Proof.
  intros Hview. revert s. induction p as [r | c k IH | msg]; intros s; simpl; try done.
  destruct (silent c) as [x|] eqn:Hs.
  - specialize (IH x s). destruct (exec h (k x) s) as [[o s1] tr].
    unfold read_only, trace, final in *; simpl in *.
    intros Hro. apply Forall_cons in Hro as [_ Hro]. by apply IH.
  - specialize (Hview c s). destruct (h c s) as [x s1]. specialize (IH x s1).
    destruct (exec h (k x) s1) as [[o s2] tr].
    unfold read_only, trace, final in *; simpl in *.
    intros Hro. apply Forall_cons in Hro as [Hc Hro]. rewrite IH by done. by apply Hview.
Qed.

(** ** The paths of [syncRoutePolicy] *)

Section Paths.
Context {S : Type} (h : handler S).

Lemma syncRoutePolicy_delete (p : AdminPolicyBasedExternalRoute) (s0 s1 s2 : S) err derr :
  let name := apb_Name p in
  h (RouteLister_Get name) s0 = (err, s1) →
  IsNotFound err = true →
  h (Mgr_processDeletePolicy name) s1 = (derr, s2) →
  exec h (syncRoutePolicy p) s0 =
    (Returned (wrapf "failed to delete Admin Policy Based External Route %s:%w" name derr),
     s2,
     [RouteLister_Get name; Klog Infof "Deleting policy %s" [LStr name];
      Mgr_processDeletePolicy name]
     ++ match derr with
        | Some _ => []
        | None => [Klog Infof "Policy %s deleted" [LStr name]]
        end).
Proof.
  intros name H1 Hnf H2. subst name. unfold syncRoutePolicy. run.
  rewrite andb_false_r. run. by destruct derr.
Qed.

Lemma syncRoutePolicy_skip (p : AdminPolicyBasedExternalRoute) (s0 s1 s2 : S) cur found :
  let name := apb_Name p in
  h (RouteLister_Get name) s0 = (None, s1) →
  h (Mgr_getRoutePolicyFromCache name) s1 = ((cur, found, true), s2) →
  exec h (syncRoutePolicy p) s0 =
    (Returned None, s2,
     [RouteLister_Get name; Mgr_getRoutePolicyFromCache name;
      Klog Warningf
        "Attempting to add or update route policy %s when it has been marked for deletion. Skipping..."
        [LStr name]]).
Proof. intros name H1 H2. subst name. unfold syncRoutePolicy. by run. Qed.

Lemma syncRoutePolicy_add (p : AdminPolicyBasedExternalRoute) (s0 s1 s2 s3 : S) cur aerr :
  let name := apb_Name p in
  h (RouteLister_Get name) s0 = (None, s1) →
  h (Mgr_getRoutePolicyFromCache name) s1 = ((cur, false, false), s2) →
  h (Mgr_processAddPolicy p) s2 = (aerr, s3) →
  exec h (syncRoutePolicy p) s0 =
    (Returned (wrapf "failed to create Admin Policy Based External Route %s:%w" name aerr),
     s3,
     [RouteLister_Get name; Mgr_getRoutePolicyFromCache name;
      Klog Infof "Adding policy %s" [LStr name]; Mgr_processAddPolicy p]).
Proof. intros name H1 H2 H3. subst name. unfold syncRoutePolicy. run. by destruct aerr. Qed.

Lemma syncRoutePolicy_update (p : AdminPolicyBasedExternalRoute) (s0 s1 s2 s3 : S) cur uerr :
  let name := apb_Name p in
  h (RouteLister_Get name) s0 = (None, s1) →
  h (Mgr_getRoutePolicyFromCache name) s1 = ((cur, true, false), s2) →
  h (Mgr_processUpdatePolicy cur p) s2 = (uerr, s3) →
  exec h (syncRoutePolicy p) s0 =
    (Returned (wrapf "failed to update Admin Policy Based External Route %s:%w" name uerr),
     s3,
     [RouteLister_Get name; Mgr_getRoutePolicyFromCache name;
      Klog Infof "Updating policy %s" [LStr name]; Mgr_processUpdatePolicy cur p]).
Proof. intros name H1 H2 H3. subst name. unfold syncRoutePolicy. run. by destruct uerr. Qed.

(** ** The paths of [syncNamespace] *)

(** The lister fails with an error other than NotFound. *)
Lemma syncNamespace_lister_error (ns : Namespace) (s0 s1 : S) e :
  h (NamespaceLister_Get (ns_Name ns)) s0 = (Some e, s1) →
  error_IsNotFound e = false →
  exec h (syncNamespace ns) s0 = (Returned (Some e), s1, [NamespaceLister_Get (ns_Name ns)]).
Proof.
  intros H1 Hnf. unfold syncNamespace. path.
Qed.

Lemma syncNamespace_delete (ns : Namespace) (s0 s1 s2 : S) err derr :
  let name := ns_Name ns in
  h (NamespaceLister_Get name) s0 = (err, s1) →
  nonnil err && negb (IsNotFound err) = false →
  IsNotFound err || negb (Time_IsZero (ns_DeletionTimestamp ns)) = true →
  h (Mgr_processDeleteNamespace name) s1 = (derr, s2) →
  exec h (syncNamespace ns) s0 =
    (Returned derr, s2,
     [NamespaceLister_Get name; Klog Infof "Deleting namespace reference %s" [LStr name];
      Mgr_processDeleteNamespace name]).
Proof.
  intros name H1 Hok Hdel H2. subst name. unfold syncNamespace. path.
Qed.

Lemma syncNamespace_matches_error (ns : Namespace) (s0 s1 s2 : S) matches e :
  let name := ns_Name ns in
  h (NamespaceLister_Get name) s0 = (None, s1) →
  Time_IsZero (ns_DeletionTimestamp ns) = true →
  h (Mgr_getPoliciesForNamespace name) s1 = ((matches, Some e), s2) →
  exec h (syncNamespace ns) s0 =
    (Returned (Some e), s2, [NamespaceLister_Get name; Mgr_getPoliciesForNamespace name]).
Proof.
  intros name H1 Hz H2. subst name. unfold syncNamespace. path.
Qed.

Lemma syncNamespace_irrelevant (ns : Namespace) (s0 s1 s2 s3 : S) matches cacheInfo :
  let name := ns_Name ns in
  h (NamespaceLister_Get name) s0 = (None, s1) →
  Time_IsZero (ns_DeletionTimestamp ns) = true →
  h (Mgr_getPoliciesForNamespace name) s1 = ((matches, None), s2) →
  h (Mgr_getNamespaceInfoFromCache name) s2 = ((cacheInfo, false), s3) →
  Set_Len matches = 0 →
  exec h (syncNamespace ns) s0 =
    (Returned None, s3,
     [NamespaceLister_Get name; Mgr_getPoliciesForNamespace name;
      Mgr_getNamespaceInfoFromCache name]).
Proof.
  intros name H1 Hz H2 H3 Hlen. subst name. unfold syncNamespace. path.
Qed.

Lemma syncNamespace_tombstone (ns : Namespace) (s0 s1 s2 s3 s4 s5 : S) matches l :
  let name := ns_Name ns in
  h (NamespaceLister_Get name) s0 = (None, s1) →
  Time_IsZero (ns_DeletionTimestamp ns) = true →
  h (Mgr_getPoliciesForNamespace name) s1 = ((matches, None), s2) →
  h (Mgr_getNamespaceInfoFromCache name) s2 = ((Some l, true), s3) →
  h (Load_markForDelete l) s3 = (true, s4) →
  h (Mgr_unlockNamespaceInfoCache name) s4 = (tt, s5) →
  exec h (syncNamespace ns) s0 =
    (Returned (Some (deleting_error name)), s5,
     [NamespaceLister_Get name; Mgr_getPoliciesForNamespace name;
      Mgr_getNamespaceInfoFromCache name; Load_markForDelete l;
      Mgr_unlockNamespaceInfoCache name]).
Proof.
  intros name H1 Hz H2 H3 H4 H5. subst name. unfold syncNamespace. path.
Qed.

Lemma syncNamespace_add (ns : Namespace) (s0 s1 s2 s3 s4 s5 s6 s7 : S)
    matches cacheInfo l aerr :
  let name := ns_Name ns in
  h (NamespaceLister_Get name) s0 = (None, s1) →
  Time_IsZero (ns_DeletionTimestamp ns) = true →
  h (Mgr_getPoliciesForNamespace name) s1 = ((matches, None), s2) →
  h (Mgr_getNamespaceInfoFromCache name) s2 = ((cacheInfo, false), s3) →
  Set_Len matches ≠ 0 →
  h (Mgr_newNamespaceInfoInCache name) s3 = (Some l, s4) →
  h (Store_Policies l matches) s4 = (tt, s5) →
  h (Mgr_processAddNamespace ns (Some l)) s5 = (aerr, s6) →
  h (Mgr_unlockNamespaceInfoCache name) s6 = (tt, s7) →
  exec h (syncNamespace ns) s0 =
    (Returned aerr, s7,
     [NamespaceLister_Get name; Mgr_getPoliciesForNamespace name;
      Mgr_getNamespaceInfoFromCache name; Mgr_newNamespaceInfoInCache name;
      Store_Policies l matches; Mgr_processAddNamespace ns (Some l);
      Mgr_unlockNamespaceInfoCache name]).
Proof.
  intros name H1 Hz H2 H3 Hlen H4 H5 H6 H7. subst name. unfold syncNamespace. path.
Qed.

Lemma syncNamespace_update (ns : Namespace) (s0 s1 s2 s3 s4 s5 s6 s7 s8 : S)
    matches l policies policies' uerr :
  let name := ns_Name ns in
  h (NamespaceLister_Get name) s0 = (None, s1) →
  Time_IsZero (ns_DeletionTimestamp ns) = true →
  h (Mgr_getPoliciesForNamespace name) s1 = ((matches, None), s2) →
  h (Mgr_getNamespaceInfoFromCache name) s2 = ((Some l, true), s3) →
  h (Load_markForDelete l) s3 = (false, s4) →
  h (Load_Policies l) s4 = (policies, s5) →
  Set_Equal policies matches = false →
  h (Load_Policies l) s5 = (policies', s6) →
  h (Mgr_processUpdateNamespace name policies' matches (Some l)) s6 = (uerr, s7) →
  h (Mgr_unlockNamespaceInfoCache name) s7 = (tt, s8) →
  exec h (syncNamespace ns) s0 =
    (Returned uerr, s8,
     [NamespaceLister_Get name; Mgr_getPoliciesForNamespace name;
      Mgr_getNamespaceInfoFromCache name; Load_markForDelete l; Load_Policies l;
      Load_Policies l; Mgr_processUpdateNamespace name policies' matches (Some l);
      Mgr_unlockNamespaceInfoCache name]).
Proof.
  intros name H1 Hz H2 H3 H4 H5 Hne H6 H7 H8. subst name. unfold syncNamespace. path.
  destruct uerr; path.
Qed.

Lemma syncNamespace_unchanged (ns : Namespace) (s0 s1 s2 s3 s4 s5 s6 : S)
    matches l policies :
  let name := ns_Name ns in
  h (NamespaceLister_Get name) s0 = (None, s1) →
  Time_IsZero (ns_DeletionTimestamp ns) = true →
  h (Mgr_getPoliciesForNamespace name) s1 = ((matches, None), s2) →
  h (Mgr_getNamespaceInfoFromCache name) s2 = ((Some l, true), s3) →
  h (Load_markForDelete l) s3 = (false, s4) →
  h (Load_Policies l) s4 = (policies, s5) →
  Set_Equal policies matches = true →
  h (Mgr_unlockNamespaceInfoCache name) s5 = (tt, s6) →
  exec h (syncNamespace ns) s0 =
    (Returned None, s6,
     [NamespaceLister_Get name; Mgr_getPoliciesForNamespace name;
      Mgr_getNamespaceInfoFromCache name; Load_markForDelete l; Load_Policies l;
      Mgr_unlockNamespaceInfoCache name]).
Proof.
  intros name H1 Hz H2 H3 H4 H5 Heq H6. subst name. unfold syncNamespace. path.
Qed.

(** ** The paths of [syncPod] *)

Lemma syncPod_not_gateway (pod : Pod) (s0 s1 s2 : S) err namespaces :
  h (PodLister_Get (pod_Namespace pod) (pod_Name pod)) s0 = (err, s1) →
  nonnil err && negb (IsNotFound err) = false →
  h (Mgr_filterNamespacesUsingPodGateway (pod_nn pod)) s1 = (namespaces, s2) →
  pod_gone err pod = true →
  Set_Len namespaces = 0 →
  exec h (syncPod pod) s0 =
    (Returned None, s2,
     [PodLister_Get (pod_Namespace pod) (pod_Name pod);
      Mgr_filterNamespacesUsingPodGateway (pod_nn pod);
      Klog Infof "Processing pod reference %s/%s" (pod_ref pod)]).
Proof.
  unfold pod_gone, pod_nn. intros H1 Hok H2 Hgone Hlen. unfold syncPod. path.
Qed.

Lemma syncPod_delete (pod : Pod) (s0 s1 s2 s3 : S) err namespaces r :
  h (PodLister_Get (pod_Namespace pod) (pod_Name pod)) s0 = (err, s1) →
  nonnil err && negb (IsNotFound err) = false →
  h (Mgr_filterNamespacesUsingPodGateway (pod_nn pod)) s1 = (namespaces, s2) →
  pod_gone err pod = true →
  Set_Len namespaces ≠ 0 →
  h (Mgr_processDeletePod pod namespaces) s2 = (r, s3) →
  exec h (syncPod pod) s0 =
    (Returned r, s3,
     [PodLister_Get (pod_Namespace pod) (pod_Name pod);
      Mgr_filterNamespacesUsingPodGateway (pod_nn pod);
      Klog Infof "Processing pod reference %s/%s" (pod_ref pod);
      Klog Infof "Deleting pod gateway %s/%s" (pod_ref pod);
      Mgr_processDeletePod pod namespaces]).
Proof.
  unfold pod_gone, pod_nn. intros H1 Hok H2 Hgone Hlen H3. unfold syncPod. path.
Qed.

Lemma syncPod_add (pod : Pod) (s0 s1 s2 s3 : S) err namespaces r :
  h (PodLister_Get (pod_Namespace pod) (pod_Name pod)) s0 = (err, s1) →
  nonnil err && negb (IsNotFound err) = false →
  h (Mgr_filterNamespacesUsingPodGateway (pod_nn pod)) s1 = (namespaces, s2) →
  pod_gone err pod = false →
  Set_Len namespaces = 0 →
  h (Mgr_processAddPod pod) s2 = (r, s3) →
  exec h (syncPod pod) s0 =
    (Returned r, s3,
     [PodLister_Get (pod_Namespace pod) (pod_Name pod);
      Mgr_filterNamespacesUsingPodGateway (pod_nn pod);
      Klog Infof "Processing pod reference %s/%s" (pod_ref pod);
      Klog Infof "Adding pod reference %s/%s" (pod_ref pod);
      Mgr_processAddPod pod]).
Proof.
  unfold pod_gone, pod_nn. intros H1 Hok H2 Hgone Hlen H3. unfold syncPod. path.
Qed.

Lemma syncPod_update (pod : Pod) (s0 s1 s2 s3 : S) err namespaces r :
  h (PodLister_Get (pod_Namespace pod) (pod_Name pod)) s0 = (err, s1) →
  nonnil err && negb (IsNotFound err) = false →
  h (Mgr_filterNamespacesUsingPodGateway (pod_nn pod)) s1 = (namespaces, s2) →
  pod_gone err pod = false →
  Set_Len namespaces ≠ 0 →
  h (Mgr_processUpdatePod pod namespaces) s2 = (r, s3) →
  exec h (syncPod pod) s0 =
    (Returned r, s3,
     [PodLister_Get (pod_Namespace pod) (pod_Name pod);
      Mgr_filterNamespacesUsingPodGateway (pod_nn pod);
      Klog Infof "Processing pod reference %s/%s" (pod_ref pod);
      Klog Infof "Updating pod gateway %s/%s" (pod_ref pod);
      Mgr_processUpdatePod pod namespaces]).
Proof.
  unfold pod_gone, pod_nn. intros H1 Hok H2 Hgone Hlen H3. unfold syncPod. path.
Qed.

End Paths.

(** ** Programs that avoid a class of calls *)

Lemma avoids_trace {S R} (h : handler S) (P : call → bool) (p : prog R) (s : S) :
  avoids P p → Forall (λ c, P c = false) (trace (exec h p s)).
Proof.
  revert s. induction p as [r | c k IH | msg]; intros s; simpl; try by constructor.
  intros [Hc Hk]. destruct (silent c) as [x|].
  - specialize (IH x s (Hk x)). destruct (exec h (k x) s) as [[o s1] tr].
    by constructor.
  - destruct (h c s) as [x s1]. specialize (IH x s1 (Hk x)).
    destruct (exec h (k x) s1) as [[o s2] tr]. by constructor.
Qed.

Lemma avoids_bind {A B} (P : call → bool) (m : prog A) (f : A → prog B) :
  avoids P m → (∀ a, avoids P (f a)) → avoids P (bind m f).
Proof.
  intros Hm Hf. induction m as [a | c k IH | msg]; simpl; try done.
  destruct Hm as [Hc Hk]. split; [done|]. intros x. by apply IH.
Qed.

Lemma avoids_defer {R} (P : call → bool) (d : prog unit) (body : prog R) :
  avoids P d → avoids P body → avoids P (defer d body).
Proof.
  intros Hd. induction body as [r | c k IH | msg]; simpl.
  - intros _. by apply avoids_bind.
  - intros [Hc Hk]. split; [done|]. intros x. by apply IH.
  - intros _. by apply avoids_bind.
Qed.

Ltac avoid :=
  repeat first
    [ done
    | progress simpl
    | progress intros
    | split
    | apply avoids_defer
    | match goal with
      | |- avoids _ (match ?x with _ => _ end) => destruct x
      | |- avoids _ (if ?b then _ else _) => destruct b
      | |- avoids _ (let (_, _) := ?x in _) => destruct x
      | |- avoids _ (deref ?o) => destruct o
      | |- avoids _ (mbind _ _) => apply avoids_bind
      end ].

Lemma syncRoutePolicy_no_queue_call (p : AdminPolicyBasedExternalRoute) :
  avoids is_queue_call (syncRoutePolicy p).
Proof. unfold syncRoutePolicy. avoid. Qed.

Lemma syncNamespace_no_queue_call (ns : Namespace) :
  avoids is_queue_call (syncNamespace ns).
Proof. unfold syncNamespace. avoid. Qed.

Lemma syncPod_no_queue_call (pod : Pod) :
  avoids is_queue_call (syncPod pod).
Proof. unfold syncPod. avoid. Qed.

(** ** One item through a worker *)

Section WorkerRuns.
Context {S : Type} (h : handler S) (maxRetries : Z).

(* the syncs are taken as a whole in this section *)
Opaque syncRoutePolicy syncNamespace syncPod.

Ltac worker Hsync err :=
  run; unfold mbind, prog_bind; rewrite !exec_defer, exec_bind, Hsync;
  destruct err; simpl;
  repeat match goal with
  | |- context [h ?c ?s] => destruct (h c s) as [? ?] eqn:?; simpl
  | |- context [bool_decide ?P] => destruct (bool_decide P); simpl
  end;
  unfold result, trace; simpl; rewrite <- ?app_assoc; try done.

Lemma processNextPolicyWorkItem_run (p : AdminPolicyBasedExternalRoute)
    (s0 s1 s2 : S) err tr :
  let obj := PolicyPtr (Some p) in
  h (Queue_Get routeQueue) s0 = ((obj, false), s1) →
  exec h (syncRoutePolicy p) s1 = (Returned err, s2, tr) →
  let r := exec h (processNextPolicyWorkItem maxRetries) s0 in
  result r = Returned true ∧
  trace r =
    [WaitGroup_Add 1; Queue_Get routeQueue;
     Klog Infof "Processing policy %s" [LStr (apb_Name p)]]
    ++ tr
    ++ worker_tail maxRetries routeQueue obj err (h (Queue_NumRequeues routeQueue obj) s2).1
         (λ e, Klog V2_InfoS "Error found while processing policy: %v" [LErr e])
         (λ e, Klog Warningf "Dropping policy %q out of the queue: %v"
                 [LStr (apb_Name p); LErr e]).
Proof.
  intros obj Hget Hsync r. subst obj r. unfold processNextPolicyWorkItem, worker_tail.
  worker Hsync err.
Qed.

Lemma processNextNamespaceWorkItem_run (ns : Namespace) (s0 s1 s2 : S) err tr :
  let obj := NamespacePtr (Some ns) in
  h (Queue_Get namespaceQueue) s0 = ((obj, false), s1) →
  exec h (syncNamespace ns) s1 = (Returned err, s2, tr) →
  let r := exec h (processNextNamespaceWorkItem maxRetries) s0 in
  result r = Returned true ∧
  trace r =
    [WaitGroup_Add 1; Queue_Get namespaceQueue]
    ++ tr
    ++ worker_tail maxRetries namespaceQueue obj err
         (h (Queue_NumRequeues namespaceQueue obj) s2).1
         (λ e, Klog V2_InfoS "Error found while processing namespace %s:%w"
                 [LOp (OpValue obj); LErr e])
         (λ e, Klog Warningf "Dropping namespace %q out of the queue: %v"
                 [LStr (ns_Name ns); LErr e]).
Proof.
  intros obj Hget Hsync r. subst obj r. unfold processNextNamespaceWorkItem, worker_tail.
  worker Hsync err.
Qed.

Lemma processNextPodWorkItem_run (pod : Pod) (s0 s1 s2 : S) err tr :
  let obj := PodPtr (Some pod) in
  h (Queue_Get podQueue) s0 = ((obj, false), s1) →
  exec h (syncPod pod) s1 = (Returned err, s2, tr) →
  let r := exec h (processNextPodWorkItem maxRetries) s0 in
  result r = Returned true ∧
  trace r =
    [WaitGroup_Add 1; Queue_Get podQueue]
    ++ tr
    ++ worker_tail maxRetries podQueue obj err (h (Queue_NumRequeues podQueue obj) s2).1
         (λ e, Klog V2_InfoS "Error found while processing pod %s/%s:%w"
                 [LStr (pod_Namespace pod); LStr (pod_Name pod); LErr e])
         (λ e, Klog Warningf "Dropping pod %s/%s out of the queue: %s"
                 [LStr (pod_Namespace pod); LStr (pod_Name pod); LErr e]).
Proof.
  intros obj Hget Hsync r. subst obj r. unfold processNextPodWorkItem, worker_tail.
  worker Hsync err.
Qed.

Transparent syncRoutePolicy syncNamespace syncPod.

(** In the calls of a worker, [Forget] and [AddRateLimited] on the item can
    only come from the tail: the sync makes no queue call. *)
Lemma worker_tail_forget (q : queue) (obj : object) (err : option error) (n : Z)
    (retryLog dropLog : error → call) (pre tr : list call) :
  (∀ e, is_queue_call (retryLog e) = false) →
  (∀ e, is_queue_call (dropLog e) = false) →
  Forall (λ c, c ≠ Queue_Forget q obj ∧ c ≠ Queue_AddRateLimited q obj) pre →
  Forall (λ c, is_queue_call c = false) tr →
  let calls := pre ++ tr ++ worker_tail maxRetries q obj err n retryLog dropLog in
  (Queue_Forget q obj ∈ calls ↔ ¬ requeued maxRetries err n)
  ∧ (Queue_AddRateLimited q obj ∈ calls ↔ requeued maxRetries err n).
Proof.
  intros Hretry Hdrop Hpre Htr calls. subst calls.
  rewrite Forall_forall in Hpre. rewrite Forall_forall in Htr.
  assert (Hf1 : Queue_Forget q obj ∉ pre) by (intros Hin; by apply Hpre in Hin as [? _]).
  assert (Ha1 : Queue_AddRateLimited q obj ∉ pre) by (intros Hin; by apply Hpre in Hin as [_ ?]).
  assert (Hf2 : Queue_Forget q obj ∉ tr) by (intros Hin; by apply Htr in Hin).
  assert (Ha2 : Queue_AddRateLimited q obj ∉ tr) by (intros Hin; by apply Htr in Hin).
  assert (Hr1 : ∀ e, Queue_Forget q obj ≠ retryLog e).
  { intros e Heq. specialize (Hretry e). by rewrite <- Heq in Hretry. }
  assert (Hr2 : ∀ e, Queue_AddRateLimited q obj ≠ retryLog e).
  { intros e Heq. specialize (Hretry e). by rewrite <- Heq in Hretry. }
  assert (Hd1 : ∀ e, Queue_Forget q obj ≠ dropLog e).
  { intros e Heq. specialize (Hdrop e). by rewrite <- Heq in Hdrop. }
  assert (Hd2 : ∀ e, Queue_AddRateLimited q obj ≠ dropLog e).
  { intros e Heq. specialize (Hdrop e). by rewrite <- Heq in Hdrop. }
  clear Hpre Htr Hretry Hdrop.
  unfold requeued, worker_tail. rewrite !elem_of_app.
  destruct err as [e|]; simpl; [case_bool_decide|];
    rewrite ?elem_of_cons, ?elem_of_nil.
  - specialize (Hr1 e). specialize (Hr2 e). intuition (try done; try lia).
  - specialize (Hd1 e). specialize (Hd2 e). intuition (try done; try lia).
  - intuition (try done; try lia).
Qed.

End WorkerRuns.

(** ** [syncNamespace] against the reference collaborators *)

Lemma entry_at_addr (e : env) (name : string) : entry_at e (addr name) = nsCache e !! name.
Proof. unfold entry_at, addr. by rewrite decode_encode. Qed.

Lemma update_at_addr (f : namespaceInfo → namespaceInfo) (name : string) (e : env) :
  update_at f (addr name) e = with_nsCache e (alter f name (nsCache e)).
Proof. unfold update_at, addr. by rewrite decode_encode. Qed.

Lemma exec_syncNamespace_on_ref (ns : Namespace) (e : env) :
  let r := exec ref_handler (syncNamespace ns) e in
  result r = Returned (syncNamespace_on_ref ns e).1
  ∧ final r = (syncNamespace_on_ref ns e).2.
Proof.
  intros r. subst r. unfold syncNamespace_on_ref.
  destruct (namespaces e !! ns_Name ns) as [listed|] eqn:Hns.
  2:{ rewrite bool_decide_eq_true_2 by done. rewrite orb_true_l.
      erewrite (syncNamespace_delete ref_handler ns e e _
                 (Some (StatusError StatusReasonNotFound "namespace")) None); try done.
      simpl. unfold lister_Get. by rewrite Hns. }
  rewrite bool_decide_eq_false_2 by done. rewrite orb_false_l.
  assert (Hl : ref_handler (NamespaceLister_Get (ns_Name ns)) e = (None, e)).
  { simpl. unfold lister_Get. by rewrite Hns. }
  destruct (Time_IsZero (ns_DeletionTimestamp ns)) eqn:Hz.
  2:{ erewrite (syncNamespace_delete ref_handler ns e e _ None None); try done.
      simpl. by rewrite Hz. }
  cbn [negb]. cbv iota.
  destruct (nsCache e !! ns_Name ns) as [info|] eqn:Hc.
  - assert (Hg : ref_handler (Mgr_getNamespaceInfoFromCache (ns_Name ns)) e
                 = ((Some (addr (ns_Name ns)), true), e)).
    { simpl. unfold ref_getNamespaceInfoFromCache. by rewrite Hc. }
    assert (Hm : ref_handler (Load_markForDelete (addr (ns_Name ns))) e
                 = (markForDelete info, e)).
    { simpl. by rewrite entry_at_addr, Hc. }
    assert (Hp : ref_handler (Load_Policies (addr (ns_Name ns))) e = (Policies info, e)).
    { simpl. by rewrite entry_at_addr, Hc. }
    destruct (markForDelete info) eqn:Hmark.
    + by erewrite (syncNamespace_tombstone ref_handler ns e e e e e e).
    + destruct (Set_Equal (Policies info) (Some (matching_policies e (ns_Name ns)))) eqn:Heq.
      * by erewrite (syncNamespace_unchanged ref_handler ns e e e e e e e).
      * set (u := ref_processUpdateNamespace (ns_Name ns)
                    (Some (matching_policies e (ns_Name ns))) e).
        by rewrite (syncNamespace_update ref_handler ns e e e e e e e u.2 u.2
                      (Some (matching_policies e (ns_Name ns))) (addr (ns_Name ns))
                      (Policies info) (Policies info) u.1 Hl Hz eq_refl Hg Hm Hp Heq Hp
                      (surjective_pairing u) eq_refl).
  - assert (Hg : ref_handler (Mgr_getNamespaceInfoFromCache (ns_Name ns)) e
                 = ((None, false), e)).
    { simpl. unfold ref_getNamespaceInfoFromCache. by rewrite Hc. }
    case_bool_decide as Hlen.
    + by erewrite (syncNamespace_irrelevant ref_handler ns e e e e).
    + set (e1 := with_nsCache e (<[ns_Name ns := empty_info]> (nsCache e))).
      set (e2 := update_at (set_Policies (Some (matching_policies e (ns_Name ns))))
                   (addr (ns_Name ns)) e1).
      set (a := ref_processAddNamespace ns e2).
      by rewrite (syncNamespace_add ref_handler ns e e e e e1 e2 a.2 a.2
                    (Some (matching_policies e (ns_Name ns))) None (addr (ns_Name ns)) a.1
                    Hl Hz eq_refl Hg Hlen eq_refl eq_refl (surjective_pairing a) eq_refl).
Qed.

Lemma matching_policies_ext (e e' : env) (name : string) :
  routes e' = routes e → namespaces e' = namespaces e →
  matching_policies e' name = matching_policies e name.
Proof. unfold matching_policies. by intros -> ->. Qed.

Lemma refresh_live (name : string) (e : env) (info : namespaceInfo) :
  nsCache e !! name = Some info → markForDelete info = false →
  refresh name e =
    with_caches e (policyCache e) (<[name := resolve e info]> (nsCache e)) (podIndex e)
      (applier e ++ [Apply name (StaticGateways (resolve e info)
                                 ∪ DynamicGateways (resolve e info))]).
Proof. intros Hc Hm. unfold refresh. by rewrite Hc, Hm. Qed.

(** After a run that resolved the entry of [name] with the policies [m], a
    second run finds nothing to do. *)
Lemma syncNamespace_on_ref_settled (ns : Namespace) (e e' : env) (info : namespaceInfo) :
  routes e' = routes e → namespaces e' = namespaces e →
  is_Some (namespaces e !! ns_Name ns) →
  Time_IsZero (ns_DeletionTimestamp ns) = true →
  nsCache e' !! ns_Name ns = Some info →
  markForDelete info = false →
  Policies info = Some (matching_policies e (ns_Name ns)) →
  syncNamespace_on_ref ns e' = (None, e').
Proof.
  intros Hr Hn [listed Hl] Hz Hc Hm Hp. unfold syncNamespace_on_ref.
  rewrite Hn, Hl, Hz, Hc, Hm, Hp. rewrite bool_decide_eq_false_2 by done.
  cbn [negb orb]. cbv iota.
  rewrite (matching_policies_ext e e') by done.
  unfold Set_Equal. by rewrite bool_decide_eq_true_2.
Qed.

Lemma syncNamespace_on_ref_twice (ns : Namespace) (e : env) :
  syncNamespace_on_ref ns (syncNamespace_on_ref ns e).2 = syncNamespace_on_ref ns e.
Proof.
  unfold syncNamespace_on_ref at 2 3.
  destruct (namespaces e !! ns_Name ns) as [listed|] eqn:Hns.
  2:{ rewrite bool_decide_eq_true_2 by done. rewrite orb_true_l. cbn [snd].
      unfold syncNamespace_on_ref.
      assert (Hn : namespaces (ref_processDeleteNamespace (ns_Name ns) e) = namespaces e).
      { unfold ref_processDeleteNamespace. by destruct (nsCache e !! ns_Name ns). }
      rewrite Hn, Hns. rewrite bool_decide_eq_true_2 by done. rewrite orb_true_l.
      f_equal. unfold ref_processDeleteNamespace at 1.
      replace (nsCache (ref_processDeleteNamespace (ns_Name ns) e) !! ns_Name ns)
        with (@None namespaceInfo); [done|].
      unfold ref_processDeleteNamespace.
      destruct (nsCache e !! ns_Name ns) eqn:Hc; [|done]. simpl.
      by rewrite lookup_delete_eq. }
  rewrite bool_decide_eq_false_2 by done. rewrite orb_false_l.
  destruct (Time_IsZero (ns_DeletionTimestamp ns)) eqn:Hz.
  2:{ cbn [negb snd]. cbv iota. cbn [snd]. unfold syncNamespace_on_ref.
      assert (Hn : namespaces (ref_processDeleteNamespace (ns_Name ns) e) = namespaces e).
      { unfold ref_processDeleteNamespace. by destruct (nsCache e !! ns_Name ns). }
      rewrite Hn, Hns, Hz. rewrite bool_decide_eq_false_2 by done. cbn [negb orb]. cbv iota.
      f_equal. unfold ref_processDeleteNamespace at 1.
      replace (nsCache (ref_processDeleteNamespace (ns_Name ns) e) !! ns_Name ns)
        with (@None namespaceInfo); [done|].
      unfold ref_processDeleteNamespace.
      destruct (nsCache e !! ns_Name ns) eqn:Hc; [|done]. simpl.
      by rewrite lookup_delete_eq. }
  cbn [negb]. cbv iota.
  set (m := matching_policies e (ns_Name ns)).
  destruct (nsCache e !! ns_Name ns) as [info|] eqn:Hc.
  - destruct (markForDelete info) eqn:Hmark.
    { cbn [snd]. unfold syncNamespace_on_ref.
      rewrite Hns, Hz, Hc, Hmark. by rewrite bool_decide_eq_false_2 by done. }
    destruct (Set_Equal (Policies info) (Some m)) eqn:Heq.
    { cbn [snd]. unfold syncNamespace_on_ref.
      rewrite Hns, Hz, Hc, Hmark. rewrite bool_decide_eq_false_2 by done.
      cbn [negb orb]. cbv iota. fold m. by rewrite Heq. }
    unfold ref_processUpdateNamespace, tombstoned. rewrite Hc, Hmark. cbn [snd].
    set (e1 := with_nsCache e (alter (set_Policies (Some m)) (ns_Name ns) (nsCache e))).
    assert (Hc1 : nsCache e1 !! ns_Name ns = Some (set_Policies (Some m) info)).
    { subst e1. simpl. by rewrite lookup_alter_eq, Hc. }
    rewrite (refresh_live _ _ _ Hc1) by done.
    apply (syncNamespace_on_ref_settled ns e _ (resolve e1 (set_Policies (Some m) info)));
      try done.
    simpl. by rewrite lookup_insert_eq.
  - case_bool_decide as Hlen; [|].
    { cbn [snd]. unfold syncNamespace_on_ref.
      rewrite Hns, Hz, Hc. rewrite bool_decide_eq_false_2 by done.
      cbn [negb orb]. cbv iota. fold m. by rewrite bool_decide_eq_true_2. }
    rewrite update_at_addr.
    set (e2 := with_nsCache _ _).
    assert (Hc2 : nsCache e2 !! ns_Name ns = Some (set_Policies (Some m) empty_info)).
    { subst e2. simpl. by rewrite lookup_alter_eq, lookup_insert_eq. }
    unfold ref_processAddNamespace, tombstoned. rewrite Hc2. cbn [markForDelete set_Policies empty_info snd].
    rewrite (refresh_live _ _ _ Hc2) by done.
    apply (syncNamespace_on_ref_settled ns e _
             (resolve e2 (set_Policies (Some m) empty_info))); try done.
    simpl. by rewrite lookup_insert_eq.
Qed.

(** ** The reference manager: deleting a policy, deleting a pod *)

(** [refresh] resolves the gateway IPs of one entry and touches neither the
    policies nor the tombstone flag of any entry. *)
Lemma refresh_lookup (a n : string) (e : env) :
  match nsCache e !! n, nsCache (refresh a e) !! n with
  | None, None => True
  | Some i, Some i' => Policies i' = Policies i ∧ markForDelete i' = markForDelete i
  | _, _ => False
  end.
Proof.
  unfold refresh. destruct (nsCache e !! a) as [info|] eqn:Ha.
  - destruct (markForDelete info) eqn:Hm.
    + by destruct (nsCache e !! n).
    + simpl. destruct (decide (a = n)) as [->|Hne].
      * by rewrite lookup_insert_eq, Ha.
      * rewrite lookup_insert_ne by done. by destruct (nsCache e !! n).
  - by destruct (nsCache e !! n).
Qed.

(** [detach name ns] keeps the entries and their tombstone flags; the entry
    of [ns] loses [name], tombstone or not, and the other entries keep their
    policies. *)
Lemma detach_lookup (name ns n : string) (e : env) :
  match nsCache e !! n, nsCache (detach name ns e) !! n with
  | None, None => True
  | Some i, Some i' =>
      markForDelete i' = markForDelete i
      ∧ set_elems (Policies i') =
          if decide (n = ns) then set_elems (Policies i) ∖ {[name]}
          else set_elems (Policies i)
  | _, _ => False
  end.
Proof.
  unfold detach. destruct (nsCache e !! ns) as [info|] eqn:Hns.
  2:{ destruct (nsCache e !! n) eqn:Hn; [|done]. split; [done|].
      destruct (decide (n = ns)) as [->|]; [congruence | done]. }
  case_bool_decide as Hin.
  2:{ destruct (nsCache e !! n) as [i|] eqn:Hn; [|done]. split; [done|].
      destruct (decide (n = ns)) as [->|]; [|done].
      assert (i = info) as -> by congruence.
      apply set_eq. intros x. rewrite elem_of_difference, elem_of_singleton.
      split; [|by intros [? _]]. intros Hx. split; [done|]. by intros ->. }
  set (e1 := with_nsCache e _).
  pose proof (refresh_lookup ns n e1) as Hr.
  assert (Hl : nsCache e1 !! n =
               if decide (ns = n)
               then Some (set_Policies (Some (set_elems (Policies info) ∖ {[name]})) info)
               else nsCache e !! n).
  { subst e1. simpl. rewrite lookup_insert. by destruct (decide (ns = n)). }
  rewrite Hl in Hr. destruct (decide (ns = n)) as [->|Hne].
  - rewrite Hns. destruct (nsCache (refresh n e1) !! n) as [i'|]; [|done].
    destruct Hr as [-> ->]. simpl. by rewrite decide_True.
  - destruct (nsCache e !! n) as [i|], (nsCache (refresh ns e1) !! n) as [i'|]; try done.
    destruct Hr as [-> ->]. by rewrite decide_False by done.
Qed.

Lemma detach_all_lookup (name n : string) (names : list string) (e : env) :
  match nsCache e !! n, nsCache (foldr (detach name) e names) !! n with
  | None, None => True
  | Some i, Some i' =>
      markForDelete i' = markForDelete i
      ∧ set_elems (Policies i') =
          if bool_decide (n ∈ names) then set_elems (Policies i) ∖ {[name]}
          else set_elems (Policies i)
  | _, _ => False
  end.
Proof.
  induction names as [|a names IH]; cbn [foldr].
  - destruct (nsCache e !! n); [|done]. split; [done|].
    rewrite bool_decide_eq_false_2; [done|]. by intros ?%elem_of_nil.
  - pose proof (detach_lookup name a n (foldr (detach name) e names)) as Hd.
    destruct (nsCache e !! n) as [i|],
             (nsCache (foldr (detach name) e names) !! n) as [i1|],
             (nsCache (detach name a (foldr (detach name) e names)) !! n) as [i2|];
      try done.
    destruct IH as (Hm1 & Hs1), Hd as (Hm2 & Hs2).
    split; [congruence|]. rewrite Hs2, Hs1.
    destruct (decide (n = a)) as [->|Hne].
    + rewrite (bool_decide_eq_true_2 (a ∈ a :: names)) by apply list_elem_of_here.
      case_bool_decide; [|done].
      apply set_eq. intros x. rewrite !elem_of_difference. tauto.
    + case_bool_decide as Hin.
      * rewrite bool_decide_eq_true_2; [done|]. by apply list_elem_of_further.
      * rewrite bool_decide_eq_false_2; [done|]. by intros [?|?]%elem_of_cons.
Qed.

(** After [processDeletePolicy] the policy is gone from the policy cache and
    every entry, tombstone or not, has lost its association with the policy
    and kept the other ones. *)
Lemma ref_processDeletePolicy_clean (name : string) (e : env) :
  let e' := ref_processDeletePolicy name e in
  policyCache e' !! name = None
  ∧ (∀ ns info, nsCache e' !! ns = Some info → name ∉ set_elems (Policies info))
  ∧ (∀ ns info, nsCache e !! ns = Some info →
       ∃ info', nsCache e' !! ns = Some info'
                ∧ markForDelete info' = markForDelete info
                ∧ set_elems (Policies info') = set_elems (Policies info) ∖ {[name]}).
Proof.
  unfold ref_processDeletePolicy. simpl.
  assert (Hall : ∀ ns,
    match nsCache e !! ns, nsCache (foldr (detach name) e (elements (dom (nsCache e)))) !! ns with
    | None, None => True
    | Some i, Some i' =>
        markForDelete i' = markForDelete i
        ∧ set_elems (Policies i') = set_elems (Policies i) ∖ {[name]}
    | _, _ => False
    end).
  { intros ns.
    pose proof (detach_all_lookup name ns (elements (dom (nsCache e))) e) as Hd.
    destruct (nsCache e !! ns) as [i|] eqn:Hi; [|done].
    destruct (nsCache (foldr _ _ _) !! ns) as [i'|]; [|done].
    rewrite bool_decide_eq_true_2 in Hd; [done|].
    apply elem_of_elements, elem_of_dom. by rewrite Hi. }
  split_and!.
  - by rewrite lookup_delete_eq.
  - intros ns info Hl. specialize (Hall ns). rewrite Hl in Hall.
    destruct (nsCache e !! ns) as [i|]; [|done]. destruct Hall as [_ ->].
    intros [_ Hx]%elem_of_difference. by apply Hx, elem_of_singleton.
  - intros ns info Hl. specialize (Hall ns). rewrite Hl in Hall.
    destruct (nsCache (foldr _ _ _) !! ns) as [i'|]; [|done]. by exists i'.
Qed.

Lemma ref_syncRoutePolicy_delete (p : AdminPolicyBasedExternalRoute) (e : env) :
  routes e !! apb_Name p = None →
  let r := exec ref_handler (syncRoutePolicy p) e in
  result r = Returned None ∧ final r = ref_processDeletePolicy (apb_Name p) e.
Proof.
  intros Hl r. subst r.
  by rewrite (syncRoutePolicy_delete ref_handler p e e
                (ref_processDeletePolicy (apb_Name p) e)
                (Some (StatusError StatusReasonNotFound "adminpolicybasedexternalroute"))
                None ltac:(simpl; unfold lister_Get; by rewrite Hl) eq_refl eq_refl).
Qed.

(** A listed policy that the policy cache does not hold is never reported as
    marked for deletion: its sync goes through [processAddPolicy]. *)
Lemma ref_syncRoutePolicy_add (p : AdminPolicyBasedExternalRoute) (e : env) :
  is_Some (routes e !! apb_Name p) →
  policyCache e !! apb_Name p = None →
  exec ref_handler (syncRoutePolicy p) e =
    (Returned None, ref_processAddPolicy p e,
     [RouteLister_Get (apb_Name p); Mgr_getRoutePolicyFromCache (apb_Name p);
      Klog Infof "Adding policy %s" [LStr (apb_Name p)]; Mgr_processAddPolicy p]).
Proof.
  intros [listed Hl] Hc.
  rewrite (syncRoutePolicy_add ref_handler p e e e (ref_processAddPolicy p e)
             zero_policy None); try done.
  - simpl. unfold lister_Get. by rewrite Hl.
  - simpl. unfold ref_getRoutePolicyFromCache. by rewrite Hc.
Qed.

Lemma ref_syncRoutePolicy_update (p cur : AdminPolicyBasedExternalRoute) (e : env) :
  is_Some (routes e !! apb_Name p) →
  policyCache e !! apb_Name p = Some cur →
  policy_tombstoned e (apb_Name p) = false →
  exec ref_handler (syncRoutePolicy p) e =
    (Returned None, ref_processUpdatePolicy cur p e,
     [RouteLister_Get (apb_Name p); Mgr_getRoutePolicyFromCache (apb_Name p);
      Klog Infof "Updating policy %s" [LStr (apb_Name p)]; Mgr_processUpdatePolicy cur p]).
Proof.
  intros [listed Hl] Hc Hm.
  rewrite (syncRoutePolicy_update ref_handler p e e e (ref_processUpdatePolicy cur p e)
             cur None); try done.
  - simpl. unfold lister_Get. by rewrite Hl.
  - simpl. unfold ref_getRoutePolicyFromCache. by rewrite Hc, Hm.
Qed.

(** *** Tombstones among the namespaces a pod works on *)

Lemma first_tombstone_Some (e : env) (names : gset string) (n : string) :
  first_tombstone e names = Some n → n ∈ names ∧ tombstoned e n = true.
Proof.
  unfold first_tombstone. intros Hh%head_Some_elem_of.
  apply list_elem_of_filter in Hh as [Ht Hin]. by apply elem_of_elements in Hin.
Qed.

Lemma first_tombstone_None (e : env) (names : gset string) :
  first_tombstone e names = None ↔ ∀ n, n ∈ names → tombstoned e n = false.
Proof.
  unfold first_tombstone. split.
  - intros Hh n Hin. destruct (tombstoned e n) eqn:Ht; [|done].
    assert (Hf : n ∈ filter (λ n, tombstoned e n = true) (elements names)).
    { apply list_elem_of_filter. split; [done|]. by apply elem_of_elements. }
    destruct (filter _ _) as [|x l]; [by apply elem_of_nil in Hf | done].
  - intros Hall. destruct (filter _ _) as [|x l] eqn:Hf; [done|].
    assert (Hx : x ∈ filter (λ n, tombstoned e n = true) (elements names)).
    { rewrite Hf. apply list_elem_of_here. }
    apply list_elem_of_filter in Hx as [Ht Hin]. apply elem_of_elements in Hin.
    rewrite (Hall x Hin) in Ht. discriminate Ht.
Qed.

Lemma first_tombstone_exists (e : env) (names : gset string) (n : string) :
  n ∈ names → tombstoned e n = true →
  ∃ n', first_tombstone e names = Some n'.
Proof.
  intros Hin Ht. destruct (first_tombstone e names) as [n'|] eqn:Hf; [by exists n'|].
  rewrite first_tombstone_None in Hf. rewrite (Hf n Hin) in Ht. discriminate Ht.
Qed.

(** *** The sync of a pod against the reference collaborators *)

Lemma Set_Len_Some (X : gset string) : Set_Len (Some X) = 0 ↔ X = ∅.
Proof.
  unfold Set_Len. simpl. split.
  - intros Hz. apply leibniz_equiv, size_empty_iff. lia.
  - intros ->. by rewrite size_empty.
Qed.

Lemma exec_syncPod_on_ref (pod : Pod) (e : env) :
  let nss := default ∅ (podIndex e !! pod_key pod) in
  let gone := pod_gone (lister_Get (pods e) (pod_key pod) "pod") pod in
  let answer :=
    if gone then
      if bool_decide (nss = ∅) then (None, e) else ref_processDeletePod pod (Some nss) e
    else
      if bool_decide (nss = ∅) then ref_processAddPod pod e
      else ref_processUpdatePod pod (Some nss) e in
  let r := exec ref_handler (syncPod pod) e in
  result r = Returned answer.1 ∧ final r = answer.2.
Proof.
  intros nss gone answer r. subst r answer.
  set (err := lister_Get (pods e) (pod_key pod) "pod") in *.
  assert (Hok : nonnil err && negb (IsNotFound err) = false).
  { subst err. unfold lister_Get. by destruct (pods e !! pod_key pod). }
  destruct gone eqn:Hgone; subst gone; case_bool_decide as Hne.
  - assert (Hlen : Set_Len (Some nss) = 0) by by apply Set_Len_Some.
    by rewrite (syncPod_not_gateway ref_handler pod e e e err (Some nss)).
  - assert (Hlen : Set_Len (Some nss) ≠ 0) by by rewrite Set_Len_Some.
    by rewrite (syncPod_delete ref_handler pod e e e
                  (ref_processDeletePod pod (Some nss) e).2 err (Some nss)
                  (ref_processDeletePod pod (Some nss) e).1
                  eq_refl Hok eq_refl Hgone Hlen (surjective_pairing _)).
  - assert (Hlen : Set_Len (Some nss) = 0) by by apply Set_Len_Some.
    by rewrite (syncPod_add ref_handler pod e e e
                  (ref_processAddPod pod e).2 err (Some nss)
                  (ref_processAddPod pod e).1
                  eq_refl Hok eq_refl Hgone Hlen (surjective_pairing _)).
  - assert (Hlen : Set_Len (Some nss) ≠ 0) by by rewrite Set_Len_Some.
    by rewrite (syncPod_update ref_handler pod e e e
                  (ref_processUpdatePod pod (Some nss) e).2 err (Some nss)
                  (ref_processUpdatePod pod (Some nss) e).1
                  eq_refl Hok eq_refl Hgone Hlen (surjective_pairing _)).
Qed.

(** The tombstone check of the three pod operations, as one: the answer of
    the sync is decided by the first tombstone among [pod_targets]. *)
Lemma ref_syncPod_tombstone (pod : Pod) (e : env) :
  let r := exec ref_handler (syncPod pod) e in
  match first_tombstone e (pod_targets e pod) with
  | Some n => result r = Returned (Some (InProgress n)) ∧ final r = e
  | None => result r = Returned None
  end.
Proof.
  intros r. destruct (exec_syncPod_on_ref pod e) as [Hres Hfin]. fold r in Hres, Hfin.
  rewrite Hres, Hfin. clear Hres Hfin r. unfold pod_targets.
  set (nss := default ∅ (podIndex e !! pod_key pod)).
  destruct (pod_gone _ pod); case_bool_decide as Hne.
  - rewrite Hne, union_empty_r_L.
    by unfold first_tombstone; rewrite elements_empty.
  - rewrite union_empty_r_L.
    unfold ref_processDeletePod. simpl. by destruct (first_tombstone e nss).
  - rewrite Hne, union_empty_l_L.
    unfold ref_processAddPod. by destruct (first_tombstone e (gateway_targets e pod)).
  - unfold ref_processUpdatePod. simpl.
    by destruct (first_tombstone e (nss ∪ gateway_targets e pod)).
Qed.

(** *** Deleting a pod *)

Lemma elem_of_dynamic_ips (e : env) (names : gset string) (ip : string) :
  ip ∈ dynamic_ips e names
  ↔ ∃ key pod, pods e !! key = Some pod ∧ is_gateway e names pod = true ∧ ip ∈ pod_ips pod.
Proof.
  unfold dynamic_ips. rewrite elem_of_union_list. split.
  - intros (X & HX & Hip). apply list_elem_of_In, in_map_iff in HX as (pod & <- & Hpod).
    apply list_elem_of_In, list_elem_of_filter in Hpod as [Hg Hpod].
    apply list_elem_of_fmap in Hpod as ([key pod'] & -> & Hkv).
    apply elem_of_map_to_list in Hkv. by exists key, pod'.
  - intros (key & pod & Hl & Hg & Hip). exists (pod_ips pod). split; [|done].
    apply list_elem_of_In, in_map_iff. exists pod. split; [done|].
    apply list_elem_of_In, list_elem_of_filter. split; [done|].
    apply list_elem_of_fmap. exists (key, pod). split; [done|].
    by apply elem_of_map_to_list.
Qed.

(** What is left in the dynamic set of an entry once the pod is dropped: the
    IPs of the other listed pods that are live gateways for its policies. *)
Lemma elem_of_drop_pod (e : env) (key : string * string) (info : namespaceInfo)
    (ip : string) :
  ip ∈ DynamicGateways (drop_pod e key info)
  ↔ ∃ key' pod', key' ≠ key ∧ pods e !! key' = Some pod'
                 ∧ is_gateway e (set_elems (Policies info)) pod' = true
                 ∧ ip ∈ pod_ips pod'.
Proof.
  unfold drop_pod. simpl. rewrite elem_of_dynamic_ips. simpl. split.
  - intros (key' & pod' & Hl & Hg & Hip). apply lookup_delete_Some in Hl as [Hne Hl].
    by exists key', pod'.
  - intros (key' & pod' & Hne & Hl & Hg & Hip). exists key', pod'.
    split_and!; [|done..]. by apply lookup_delete_Some.
Qed.

Lemma drop_pod_lookup (e : env) (key : string * string) (names : list string)
    (m : gmap string namespaceInfo) (n : string) :
  foldr (alter (drop_pod e key)) m names !! n =
    if bool_decide (n ∈ names) then drop_pod e key <$> m !! n else m !! n.
Proof.
  induction names as [|a names IH]; cbn [foldr].
  - rewrite bool_decide_eq_false_2; [done|]. by intros ?%elem_of_nil.
  - destruct (decide (a = n)) as [->|Hne].
    + rewrite lookup_alter_eq, IH.
      rewrite (bool_decide_eq_true_2 (n ∈ n :: names)) by apply list_elem_of_here.
      case_bool_decide; [|done]. by destruct (m !! n).
    + rewrite lookup_alter_ne by done. rewrite IH.
      case_bool_decide as Hin.
      * rewrite bool_decide_eq_true_2; [done|]. by apply list_elem_of_further.
      * rewrite bool_decide_eq_false_2; [done|]. intros [?|?]%elem_of_cons; congruence.
Qed.

(** [processDeletePod] on namespaces without tombstone drops the reverse-index
    entry of the pod and leaves in the dynamic gateway IPs of each of the
    namespaces what the other gateway pods contribute; the other entries are
    kept as they are. *)
Lemma ref_processDeletePod_clean (pod : Pod) (nss : gset string) (e : env) :
  first_tombstone e nss = None →
  let e' := (ref_processDeletePod pod (Some nss) e).2 in
  (ref_processDeletePod pod (Some nss) e).1 = None
  ∧ podIndex e' !! pod_key pod = None
  ∧ ∀ ns, nsCache e' !! ns =
          if bool_decide (ns ∈ nss) then drop_pod e (pod_key pod) <$> nsCache e !! ns
          else nsCache e !! ns.
Proof.
  intros Ht. unfold ref_processDeletePod. simpl. rewrite Ht. simpl.
  split_and!; [done | by rewrite lookup_delete_eq |].
  intros ns. rewrite drop_pod_lookup.
  destruct (decide (ns ∈ nss)) as [Hin|Hin].
  - rewrite !bool_decide_eq_true_2; [done..|]. by apply elem_of_elements.
  - rewrite !bool_decide_eq_false_2; [done..|]. by rewrite elem_of_elements.
Qed.

(** * The claims *)

(** C1 (counterexample).  Policy P is listed and cached and the entry of its
    namespace ns1 is a tombstone, so the cache reports P as marked for
    deletion; the policy sync does not fail: it returns nil. *)
Lemma syncRoutePolicy_tombstone_returns_nil :
  (ref_handler (RouteLister_Get "P") (cluster_cached true)).1 = None
  ∧ (ref_handler (Mgr_getRoutePolicyFromCache "P") (cluster_cached true)).1
    = (policy_P, true, true)
  ∧ tombstoned (cluster_cached true) "ns1" = true
  ∧ ¬ (∃ e : error,
        result (exec ref_handler (syncRoutePolicy policy_P) (cluster_cached true))
        = Returned (Some e)).
Proof.
  split_and!; [reflexivity..|].
  intros [e He].
  assert (Hnil : result (exec ref_handler (syncRoutePolicy policy_P) (cluster_cached true))
                 = Returned None) by reflexivity.
  rewrite Hnil in He. discriminate He.
Qed.

(** C1 (amended).  Tombstone safety.  A policy sync that finds the mark is
    skipped, not failed, for every implementation of the collaborators: when
    the policy is listed and the cache lookup reports it as marked for
    deletion, [syncRoutePolicy] logs a warning and returns nil; it makes no
    cache-mutating call, in particular neither [processAddPolicy] nor
    [processUpdatePolicy], and the state is the one left by the two lookups.
    Against the reference manager this is the sync of every listed and
    cached policy that a tombstoned entry is associated with, and it leaves
    the whole state as it was.  A pod sync is not skipped: against the
    reference manager, a pod sync that works on a namespace whose entry is
    marked for deletion fails with the in-progress error of such a namespace
    and leaves the whole state as it was; once none of the namespaces it
    works on is marked, it returns nil. *)
Theorem tombstone_safety :
  (∀ (S : Type) (h : handler S) (p : AdminPolicyBasedExternalRoute) (s0 s1 s2 : S)
     (cur : AdminPolicyBasedExternalRoute) (found : bool),
     let name := apb_Name p in
     h (RouteLister_Get name) s0 = (None, s1) →
     h (Mgr_getRoutePolicyFromCache name) s1 = ((cur, found, true), s2) →
     let r := exec h (syncRoutePolicy p) s0 in
     result r = Returned None
     ∧ final r = s2
     ∧ trace r =
         [RouteLister_Get name; Mgr_getRoutePolicyFromCache name;
          Klog Warningf
            "Attempting to add or update route policy %s when it has been marked for deletion. Skipping..."
            [LStr name]]
     ∧ read_only (trace r)
     ∧ (Mgr_processAddPolicy p ∉ trace r)
     ∧ (∀ cur', Mgr_processUpdatePolicy cur' p ∉ trace r))
  ∧ (∀ (p : AdminPolicyBasedExternalRoute) (e : env),
       let r := exec ref_handler (syncRoutePolicy p) e in
       is_Some (routes e !! apb_Name p) →
       is_Some (policyCache e !! apb_Name p) →
       policy_tombstoned e (apb_Name p) = true →
       result r = Returned None ∧ final r = e ∧ read_only (trace r))
  ∧ (∀ (pod : Pod) (e : env) (n : string),
       let r := exec ref_handler (syncPod pod) e in
       n ∈ pod_targets e pod →
       tombstoned e n = true →
       (∃ n', n' ∈ pod_targets e pod ∧ tombstoned e n' = true
              ∧ result r = Returned (Some (InProgress n')))
       ∧ final r = e)
  ∧ (∀ (pod : Pod) (e : env),
       (∀ n, n ∈ pod_targets e pod → tombstoned e n = false) →
       result (exec ref_handler (syncPod pod) e) = Returned None).
Proof.
  assert (Hskip : ∀ (S : Type) (h : handler S) (p : AdminPolicyBasedExternalRoute)
            (s0 s1 s2 : S) (cur : AdminPolicyBasedExternalRoute) (found : bool),
            h (RouteLister_Get (apb_Name p)) s0 = (None, s1) →
            h (Mgr_getRoutePolicyFromCache (apb_Name p)) s1 = ((cur, found, true), s2) →
            let r := exec h (syncRoutePolicy p) s0 in
            result r = Returned None ∧ final r = s2
            ∧ trace r =
                [RouteLister_Get (apb_Name p); Mgr_getRoutePolicyFromCache (apb_Name p);
                 Klog Warningf
                   "Attempting to add or update route policy %s when it has been marked for deletion. Skipping..."
                   [LStr (apb_Name p)]]
            ∧ read_only (trace r)).
  { intros S h p s0 s1 s2 cur found H1 H2 r. subst r.
    rewrite (syncRoutePolicy_skip h p s0 s1 s2 cur found H1 H2).
    unfold result, final, trace, read_only; simpl. split_and!; try done.
    by repeat constructor. }
  split_and!.
  - intros S h p s0 s1 s2 cur found name H1 H2 r.
    destruct (Hskip S h p s0 s1 s2 cur found H1 H2) as (Hres & Hfin & Htr & Hro).
    fold r in Hres, Hfin, Htr, Hro. split_and!; try done.
    + rewrite Htr. not_in_list.
    + intros cur'. rewrite Htr. not_in_list.
  - intros p e r [listed Hl] [cur Hc] Hm.
    destruct (Hskip env ref_handler p e e e cur true) as (Hres & Hfin & _ & Hro); [| |done].
    + simpl. unfold lister_Get. by rewrite Hl.
    + simpl. unfold ref_getRoutePolicyFromCache. by rewrite Hc, Hm.
  - intros pod e n r Hin Ht.
    pose proof (ref_syncPod_tombstone pod e) as Hrun. fold r in Hrun.
    destruct (first_tombstone_exists e (pod_targets e pod) n Hin Ht) as [n' Hn'].
    rewrite Hn' in Hrun. destruct Hrun as [Hres Hfin].
    apply first_tombstone_Some in Hn' as [Hin' Ht'].
    split; [by exists n' | done].
  - intros pod e Hnone.
    pose proof (ref_syncPod_tombstone pod e) as Hrun.
    apply first_tombstone_None in Hnone. by rewrite Hnone in Hrun.
Qed.

(** Policy P on the cluster whose entry of ns1 is a tombstone: skipped.  Pod
    gw1, recorded as a gateway of ns1: its sync fails on that cluster and
    changes nothing; on the cluster without tombstone it returns nil. *)
Lemma tombstone_safety_witness :
  (let e := cluster_cached true in
   let r := exec ref_handler (syncRoutePolicy policy_P) e in
   ref_handler (RouteLister_Get "P") e = (None, e)
   ∧ ref_handler (Mgr_getRoutePolicyFromCache "P") e = ((policy_P, true, true), e)
   ∧ result r = Returned None
   ∧ final r = e
   ∧ Mgr_processAddPolicy policy_P ∉ trace r)
  ∧ (let e := cluster_cached true in
     let r := exec ref_handler (syncPod pod_gw1) e in
     "ns1" ∈ pod_targets e pod_gw1
     ∧ tombstoned e "ns1" = true
     ∧ (∃ n', n' ∈ pod_targets e pod_gw1 ∧ tombstoned e n' = true
              ∧ result r = Returned (Some (InProgress n')))
     ∧ final r = e)
  ∧ (let e := cluster_cached false in
     first_tombstone e (pod_targets e pod_gw1) = None
     ∧ result (exec ref_handler (syncPod pod_gw1) e) = Returned None).
Proof.
  destruct tombstone_safety as (Hpolicy & Hcached & Hpod & Hlive).
  destruct (Hpolicy env ref_handler policy_P
              (cluster_cached true) (cluster_cached true) (cluster_cached true)
              policy_P true eq_refl eq_refl) as (Hres & Hfin & _ & _ & Hadd & _).
  assert (Hin : "ns1" ∈ pod_targets (cluster_cached true) pod_gw1).
  { refine (bool_decide_unpack _ _). vm_compute. exact I. }
  destruct (Hpod pod_gw1 (cluster_cached true) "ns1" Hin eq_refl) as [Hfail Hsame].
  assert (Hnone : first_tombstone (cluster_cached false)
                    (pod_targets (cluster_cached false) pod_gw1) = None)
    by (vm_compute; reflexivity).
  cbv zeta. split_and!;
    [ reflexivity | reflexivity | exact Hres | exact Hfin | exact Hadd
    | exact Hin | reflexivity | exact Hfail | exact Hsame
    | exact Hnone | ].
  apply Hlive. by apply first_tombstone_None.
Defined.

(** C2 (counterexample).  Namespace ns1 is listed, its deletion timestamp is
    zero and its cache entry is a tombstone, but the manager cannot compute
    the policies of the namespace: [syncNamespace] returns that error, not
    the error of the deletion in progress. *)
Lemma syncNamespace_tombstone_matches_error :
  let e := cluster_cached true in
  let r := exec matches_failing_handler (syncNamespace namespace_ns1) e in
  (matches_failing_handler (NamespaceLister_Get "ns1") e).1 = None
  ∧ Time_IsZero (ns_DeletionTimestamp namespace_ns1) = true
  ∧ (matches_failing_handler (Mgr_getNamespaceInfoFromCache "ns1") e).1
    = (Some (addr "ns1"), true)
  ∧ (matches_failing_handler (Load_markForDelete (addr "ns1")) e).1 = true
  ∧ result r = Returned (Some listing_error)
  ∧ result r ≠ Returned (Some (deleting_error "ns1")).
Proof.
  intros e r.
  assert (Hres : result r = Returned (Some listing_error)) by reflexivity.
  split_and!; [reflexivity.. | exact Hres |].
  rewrite Hres. discriminate.
Qed.

(** C2 (amended).  The namespace is present in the authoritative listing and
    its deletion timestamp is zero.  When the policies of the namespace are
    computed without error and the cache holds an entry for it with
    [markForDelete = true], [syncNamespace] returns the error "cannot add
    namespace ... because it is currently being deleted".  The only calls are
    the lookups, the load of the flag and the deferred unlock: nothing is
    created, stored or processed, and any view of the state that such calls
    preserve is unchanged.  The error is retryable: the namespace worker
    requeues the item with backoff while retries are left.  When
    [getPoliciesForNamespace] fails, its error is returned instead, before
    the entry is looked up and also without any mutation. *)
Theorem syncNamespace_tombstone_fails {S} (h : handler S) (ns : Namespace)
    (s0 s1 s2 : S) (matches : StringSet) (perr : option error) :
  let name := ns_Name ns in
  h (NamespaceLister_Get name) s0 = (None, s1) →
  Time_IsZero (ns_DeletionTimestamp ns) = true →
  h (Mgr_getPoliciesForNamespace name) s1 = ((matches, perr), s2) →
  let r := exec h (syncNamespace ns) s0 in
  (perr = None →
   ∀ (s3 s4 s5 : S) (l : loc),
     h (Mgr_getNamespaceInfoFromCache name) s2 = ((Some l, true), s3) →
     h (Load_markForDelete l) s3 = (true, s4) →
     h (Mgr_unlockNamespaceInfoCache name) s4 = (tt, s5) →
     result r = Returned (Some (deleting_error name))
     ∧ final r = s5
     ∧ trace r =
         [NamespaceLister_Get name; Mgr_getPoliciesForNamespace name;
          Mgr_getNamespaceInfoFromCache name; Load_markForDelete l;
          Mgr_unlockNamespaceInfoCache name]
     ∧ read_only (trace r)
     ∧ (∀ (V : Type) (view : S → V),
          (∀ c s, mutates_cache c = false → view (h c s).2 = view s) →
          view (final r) = view s0)
     ∧ (∀ (maxRetries : Z) (q0 : S),
          h (Queue_Get namespaceQueue) q0 = ((NamespacePtr (Some ns), false), s0) →
          (h (Queue_NumRequeues namespaceQueue (NamespacePtr (Some ns))) s5).1 < maxRetries →
          let w := exec h (processNextNamespaceWorkItem maxRetries) q0 in
          result w = Returned true
          ∧ Queue_AddRateLimited namespaceQueue (NamespacePtr (Some ns)) ∈ trace w))
  ∧ (∀ e' : error, perr = Some e' →
       result r = Returned (Some e')
       ∧ final r = s2
       ∧ trace r = [NamespaceLister_Get name; Mgr_getPoliciesForNamespace name]
       ∧ read_only (trace r)
       ∧ (∀ (V : Type) (view : S → V),
            (∀ c s, mutates_cache c = false → view (h c s).2 = view s) →
            view (final r) = view s0)).
Proof.
  intros name H1 Hz H2 r. split.
  - intros -> s3 s4 s5 l H3 H4 H5.
    pose proof (syncNamespace_tombstone h ns s0 s1 s2 s3 s4 s5 matches l H1 Hz H2 H3 H4 H5)
      as Hrun.
    assert (Hro : read_only (trace r)).
    { subst r. rewrite Hrun. unfold read_only, trace; simpl. by repeat constructor. }
    split_and!; try (subst r; by rewrite Hrun); try done.
    + intros V view Hview. by apply exec_read_only.
    + intros maxRetries q0 Hget Hn w.
      destruct (processNextNamespaceWorkItem_run h maxRetries ns q0 s0 s5 _ _ Hget Hrun)
        as [Hres Htr].
      split; [done|]. subst w. rewrite Htr. unfold worker_tail.
      rewrite bool_decide_eq_true_2 by done. rewrite !elem_of_app. right; right.
      rewrite !elem_of_cons. tauto.
  - intros e' ->.
    pose proof (syncNamespace_matches_error h ns s0 s1 s2 matches e' H1 Hz H2) as Hrun.
    assert (Hro : read_only (trace r)).
    { subst r. rewrite Hrun. unfold read_only, trace; simpl. by repeat constructor. }
    split_and!; try (subst r; by rewrite Hrun); try done.
    intros V view Hview. by apply exec_read_only.
Qed.

(** On the cluster whose entry of ns1 is a tombstone: with the reference
    manager the sync of ns1 fails with the error of the deletion in progress
    and changes nothing; with a manager that cannot compute the policies it
    fails with that error. *)
Lemma syncNamespace_tombstone_fails_witness :
  let e := cluster_cached true in
  (let r := exec ref_handler (syncNamespace namespace_ns1) e in
   ref_handler (NamespaceLister_Get "ns1") e = (None, e)
   ∧ ref_handler (Mgr_getNamespaceInfoFromCache "ns1") e = ((Some (addr "ns1"), true), e)
   ∧ ref_handler (Load_markForDelete (addr "ns1")) e = (true, e)
   ∧ result r = Returned (Some (deleting_error "ns1"))
   ∧ final r = e)
  ∧ (let r := exec matches_failing_handler (syncNamespace namespace_ns1) e in
     matches_failing_handler (Mgr_getPoliciesForNamespace "ns1") e
     = ((None, Some listing_error), e)
     ∧ result r = Returned (Some listing_error)
     ∧ final r = e).
Proof.
  intros e.
  pose proof (syncNamespace_tombstone_fails ref_handler namespace_ns1 e e e
                (Some (matching_policies (cluster_cached true) "ns1")) None
                eq_refl eq_refl eq_refl) as Hmarked.
  pose proof (syncNamespace_tombstone_fails matches_failing_handler namespace_ns1 e e e
                None (Some listing_error) eq_refl eq_refl eq_refl) as Hfailing.
  cbv zeta in Hmarked, Hfailing.
  destruct Hmarked as [Hmarked _], Hfailing as [_ Hfailing].
  destruct (Hmarked eq_refl e e e (addr "ns1") eq_refl eq_refl eq_refl) as (Hres & Hfin & _).
  destruct (Hfailing listing_error eq_refl) as (Hres' & Hfin' & _).
  split; split_and!;
    [reflexivity | reflexivity | reflexivity | exact Hres | exact Hfin
    | reflexivity | exact Hres' | exact Hfin'].
Defined.

(** C3.  [syncRoutePolicy] dispatches on the authoritative listing and on the
    cache, for every implementation of the collaborators.  A policy whose
    name the lister reports NotFound goes through the Delete path: the only
    cache-mutating call is [processDeletePolicy] on that name and the state
    it leaves is the final state.  For a listed policy the deletion mark of
    the cache lookup is tested first: with the mark the sync is skipped and
    makes no cache-mutating call; without it, a policy that the cache does
    not know (found = false) goes through [processAddPolicy] and a policy
    found in the cache goes through [processUpdatePolicy] with the cached
    policy and the new one.  Against
    the reference manager: the Delete path leaves the policy out of the
    policy cache and out of the policies of every namespace entry, tombstone
    or not, each entry keeping its other policies; a listed policy that the
    policy cache does not hold always goes through the Add path, since the
    lookup reports no deletion mark for it; a listed and cached policy that
    no tombstoned entry is associated with goes through the Update path. *)
Theorem syncRoutePolicy_dispatch :
  (∀ (S : Type) (h : handler S) (p : AdminPolicyBasedExternalRoute) (s0 s1 : S)
     (err : option error),
     let name := apb_Name p in
     let r := exec h (syncRoutePolicy p) s0 in
     h (RouteLister_Get name) s0 = (err, s1) →
     (IsNotFound err = true →
        ∀ derr s2, h (Mgr_processDeletePolicy name) s1 = (derr, s2) →
          result r
          = Returned (wrapf "failed to delete Admin Policy Based External Route %s:%w"
                        name derr)
          ∧ final r = s2
          ∧ filter (λ c, mutates_cache c = true) (trace r) = [Mgr_processDeletePolicy name])
     ∧ (err = None →
        ∀ cur found marked s2,
          h (Mgr_getRoutePolicyFromCache name) s1 = ((cur, found, marked), s2) →
          (marked = true →
             result r = Returned None ∧ final r = s2
             ∧ filter (λ c, mutates_cache c = true) (trace r) = [])
          ∧ (marked = false → found = false →
             ∀ aerr s3, h (Mgr_processAddPolicy p) s2 = (aerr, s3) →
               result r
               = Returned (wrapf "failed to create Admin Policy Based External Route %s:%w"
                             name aerr)
               ∧ final r = s3
               ∧ filter (λ c, mutates_cache c = true) (trace r) = [Mgr_processAddPolicy p])
          ∧ (marked = false → found = true →
             ∀ uerr s3, h (Mgr_processUpdatePolicy cur p) s2 = (uerr, s3) →
               result r
               = Returned (wrapf "failed to update Admin Policy Based External Route %s:%w"
                             name uerr)
               ∧ final r = s3
               ∧ filter (λ c, mutates_cache c = true) (trace r)
                 = [Mgr_processUpdatePolicy cur p])))
  ∧ (∀ (p : AdminPolicyBasedExternalRoute) (e : env),
       let name := apb_Name p in
       let r := exec ref_handler (syncRoutePolicy p) e in
       let mutating := filter (λ c, mutates_cache c = true) (trace r) in
       (routes e !! name = None →
          result r = Returned None
          ∧ mutating = [Mgr_processDeletePolicy name]
          ∧ policyCache (final r) !! name = None
          ∧ (∀ ns info, nsCache (final r) !! ns = Some info →
               name ∉ set_elems (Policies info))
          ∧ (∀ ns info, nsCache e !! ns = Some info →
               ∃ info', nsCache (final r) !! ns = Some info'
                        ∧ markForDelete info' = markForDelete info
                        ∧ set_elems (Policies info') = set_elems (Policies info) ∖ {[name]}))
       ∧ (is_Some (routes e !! name) → policyCache e !! name = None →
            result r = Returned None
            ∧ mutating = [Mgr_processAddPolicy p]
            ∧ final r = ref_processAddPolicy p e)
       ∧ (∀ cur, is_Some (routes e !! name) → policyCache e !! name = Some cur →
            policy_tombstoned e name = false →
            result r = Returned None
            ∧ mutating = [Mgr_processUpdatePolicy cur p]
            ∧ final r = ref_processUpdatePolicy cur p e)).
Proof.
  split.
  - intros S h p s0 s1 err name r H1. subst r. split.
    + intros Hnf derr s2 H2.
      rewrite (syncRoutePolicy_delete h p s0 s1 s2 err derr H1 Hnf H2).
      by destruct derr.
    + intros -> cur found marked s2 H2. split_and!.
      * intros ->. by rewrite (syncRoutePolicy_skip h p s0 s1 s2 cur found H1 H2).
      * intros -> -> xerr s3 H3.
        by rewrite (syncRoutePolicy_add h p s0 s1 s2 s3 cur xerr H1 H2 H3).
      * intros -> -> xerr s3 H3.
        by rewrite (syncRoutePolicy_update h p s0 s1 s2 s3 cur xerr H1 H2 H3).
  - intros p e name r mutating. split_and!.
    + intros Hl.
      assert (Hrun : r = (Returned None, ref_processDeletePolicy name e,
                          [RouteLister_Get name; Klog Infof "Deleting policy %s" [LStr name];
                           Mgr_processDeletePolicy name;
                           Klog Infof "Policy %s deleted" [LStr name]])).
      { subst r name.
        rewrite (syncRoutePolicy_delete ref_handler p e e
                   (ref_processDeletePolicy (apb_Name p) e)
                   (Some (StatusError StatusReasonNotFound "adminpolicybasedexternalroute"))
                   None); try done.
        simpl. unfold lister_Get. by rewrite Hl. }
      destruct (ref_processDeletePolicy_clean name e) as (Hpc & Hnone & Hkeep).
      subst mutating. rewrite Hrun. by split_and!.
    + intros Hl Hc. subst mutating r name. by rewrite (ref_syncRoutePolicy_add p e Hl Hc).
    + intros cur Hl Hc Hm. subst mutating r name.
      by rewrite (ref_syncRoutePolicy_update p cur e Hl Hc Hm).
Qed.

Lemma syncRoutePolicy_dispatch_witness :
  (* Delete: P is cached but no longer listed, and the entry of ns1 is a
     tombstone *)
  (let e := with_nsCache cluster_unlisted {[ "ns1" := info_ns1 true ]} in
   let r := exec ref_handler (syncRoutePolicy policy_P) e in
   routes e !! "P" = None
   ∧ nsCache e !! "ns1" = Some (info_ns1 true)
   ∧ result r = Returned None
   ∧ policyCache (final r) !! "P" = None
   ∧ (∀ info, nsCache (final r) !! "ns1" = Some info → "P" ∉ set_elems (Policies info))
   ∧ ∃ info', nsCache (final r) !! "ns1" = Some info' ∧ markForDelete info' = true)
  (* Add: P is listed and the caches are empty *)
  ∧ (let r := exec ref_handler (syncRoutePolicy policy_P) cluster0 in
     (ref_handler (Mgr_getRoutePolicyFromCache "P") cluster0).1 = (zero_policy, false, false)
     ∧ policyCache cluster0 !! "P" = None
     ∧ result r = Returned None
     ∧ final r = ref_processAddPolicy policy_P cluster0)
  (* Update: P is listed and cached *)
  ∧ (let r := exec ref_handler (syncRoutePolicy policy_P) (cluster_cached false) in
     (ref_handler (Mgr_getRoutePolicyFromCache "P") (cluster_cached false)).1
     = (policy_P, true, false)
     ∧ result r = Returned None
     ∧ final r = ref_processUpdatePolicy policy_P policy_P (cluster_cached false)).
Proof.
  destruct syncRoutePolicy_dispatch as [Hgen Href].
  pose (e1 := with_nsCache cluster_unlisted {[ "ns1" := info_ns1 true ]}).
  destruct (Href policy_P e1) as (Hdel & _).
  destruct (Hdel eq_refl) as (Hr1 & _ & Hc1 & Hn1 & Hk1).
  destruct (Hk1 "ns1" (info_ns1 true) eq_refl) as (info' & Hl' & Hm' & _).
  destruct (Href policy_P cluster0) as (_ & Hadd & _).
  destruct (Hadd (ex_intro _ policy_P eq_refl) eq_refl) as (Hr2 & _ & Hf2).
  destruct (Hgen env ref_handler policy_P (cluster_cached false) (cluster_cached false)
              None eq_refl) as [_ Hupd].
  destruct (Hupd eq_refl policy_P true false (cluster_cached false) eq_refl)
    as (_ & _ & Hupd').
  destruct (Hupd' eq_refl eq_refl None
              (ref_processUpdatePolicy policy_P policy_P (cluster_cached false)) eq_refl)
    as (Hr3 & Hf3 & _).
  cbv zeta. split_and!;
    [ reflexivity | reflexivity | exact Hr1 | exact Hc1 | exact (Hn1 "ns1")
    | exists info'; by split
    | reflexivity | reflexivity | exact Hr2 | exact Hf2
    | reflexivity | exact Hr3 | exact Hf3 ].
Defined.

(** C4.  Each of the three workers, for one dequeued item: when the sync
    returns an error and [NumRequeues] of the item is below [maxRetries], the
    item is re-added with [AddRateLimited]; when the sync returns an error and
    the retries are exhausted, the worker logs a warning, reports the error
    with [HandleError] and does not re-add the item; when the sync succeeds,
    [Forget] is called.  In every case the item is marked [Done] (and the
    worker returns true).  [worker_tail] spells out the calls made after the
    sync. *)
Theorem workers_retry_policy {S} (h : handler S) (maxRetries : Z) :
  (∀ (p : AdminPolicyBasedExternalRoute) (s0 s1 s2 : S) err tr,
     let obj := PolicyPtr (Some p) in
     h (Queue_Get routeQueue) s0 = ((obj, false), s1) →
     exec h (syncRoutePolicy p) s1 = (Returned err, s2, tr) →
     let r := exec h (processNextPolicyWorkItem maxRetries) s0 in
     result r = Returned true
     ∧ trace r =
         [WaitGroup_Add 1; Queue_Get routeQueue;
          Klog Infof "Processing policy %s" [LStr (apb_Name p)]]
         ++ tr
         ++ worker_tail maxRetries routeQueue obj err
              (h (Queue_NumRequeues routeQueue obj) s2).1
              (λ e, Klog V2_InfoS "Error found while processing policy: %v" [LErr e])
              (λ e, Klog Warningf "Dropping policy %q out of the queue: %v"
                      [LStr (apb_Name p); LErr e]))
  ∧ (∀ (ns : Namespace) (s0 s1 s2 : S) err tr,
       let obj := NamespacePtr (Some ns) in
       h (Queue_Get namespaceQueue) s0 = ((obj, false), s1) →
       exec h (syncNamespace ns) s1 = (Returned err, s2, tr) →
       let r := exec h (processNextNamespaceWorkItem maxRetries) s0 in
       result r = Returned true
       ∧ trace r =
           [WaitGroup_Add 1; Queue_Get namespaceQueue]
           ++ tr
           ++ worker_tail maxRetries namespaceQueue obj err
                (h (Queue_NumRequeues namespaceQueue obj) s2).1
                (λ e, Klog V2_InfoS "Error found while processing namespace %s:%w"
                        [LOp (OpValue obj); LErr e])
                (λ e, Klog Warningf "Dropping namespace %q out of the queue: %v"
                        [LStr (ns_Name ns); LErr e]))
  ∧ (∀ (pod : Pod) (s0 s1 s2 : S) err tr,
       let obj := PodPtr (Some pod) in
       h (Queue_Get podQueue) s0 = ((obj, false), s1) →
       exec h (syncPod pod) s1 = (Returned err, s2, tr) →
       let r := exec h (processNextPodWorkItem maxRetries) s0 in
       result r = Returned true
       ∧ trace r =
           [WaitGroup_Add 1; Queue_Get podQueue]
           ++ tr
           ++ worker_tail maxRetries podQueue obj err
                (h (Queue_NumRequeues podQueue obj) s2).1
                (λ e, Klog V2_InfoS "Error found while processing pod %s/%s:%w"
                        [LStr (pod_Namespace pod); LStr (pod_Name pod); LErr e])
                (λ e, Klog Warningf "Dropping pod %s/%s out of the queue: %s"
                        [LStr (pod_Namespace pod); LStr (pod_Name pod); LErr e])).
Proof.
  split_and!; intros.
  - by eapply processNextPolicyWorkItem_run.
  - by eapply processNextNamespaceWorkItem_run.
  - by eapply processNextPodWorkItem_run.
Qed.

(** The namespace worker on the tombstoned ns1 with [maxRetries = 15]: with no
    failed attempt so far the item is requeued; after 15 failed attempts it
    is logged, reported, forgotten and not re-added. *)
Lemma workers_retry_policy_witness :
  let obj := NamespacePtr (Some namespace_ns1) in
  let sync_calls :=
    [NamespaceLister_Get "ns1"; Mgr_getPoliciesForNamespace "ns1";
     Mgr_getNamespaceInfoFromCache "ns1"; Load_markForDelete (addr "ns1");
     Mgr_unlockNamespaceInfoCache "ns1"] in
  trace (exec ref_handler (processNextNamespaceWorkItem 15) (cluster_queued 0)) =
    [WaitGroup_Add 1; Queue_Get namespaceQueue] ++ sync_calls ++
    [Queue_NumRequeues namespaceQueue obj;
     Klog V2_InfoS "Error found while processing namespace %s:%w"
       [LOp (OpValue obj); LErr (deleting_error "ns1")];
     Queue_AddRateLimited namespaceQueue obj;
     Queue_Done namespaceQueue obj; WaitGroup_Done]
  ∧ trace (exec ref_handler (processNextNamespaceWorkItem 15) (cluster_queued 15)) =
    [WaitGroup_Add 1; Queue_Get namespaceQueue] ++ sync_calls ++
    [Queue_NumRequeues namespaceQueue obj;
     Klog Warningf "Dropping namespace %q out of the queue: %v"
       [LStr "ns1"; LErr (deleting_error "ns1")];
     HandleError (deleting_error "ns1");
     Queue_Forget namespaceQueue obj;
     Queue_Done namespaceQueue obj; WaitGroup_Done].
Proof.
  intros obj sync_calls.
  pose proof (workers_retry_policy ref_handler 15) as (_ & Hns & _).
  split.
  - destruct (Hns namespace_ns1 (cluster_queued 0)
                (ref_handler (Queue_Get namespaceQueue) (cluster_queued 0)).2
                (ref_handler (Queue_Get namespaceQueue) (cluster_queued 0)).2
                (Some (deleting_error "ns1")) sync_calls
                eq_refl eq_refl)
      as [_ Htr].
    rewrite Htr. reflexivity.
  - destruct (Hns namespace_ns1 (cluster_queued 15)
                (ref_handler (Queue_Get namespaceQueue) (cluster_queued 15)).2
                (ref_handler (Queue_Get namespaceQueue) (cluster_queued 15)).2
                (Some (deleting_error "ns1")) sync_calls
                eq_refl eq_refl)
      as [_ Htr].
    rewrite Htr. reflexivity.
Defined.

(** C5 (counterexample).  On the cluster whose entry of ns1 is a tombstone
    the cached policies of ns1 equal the recomputed match set, yet
    [syncNamespace] does not return nil: the mark is tested first and the
    sync fails with the error of the deletion in progress. *)
Lemma syncNamespace_equal_policies_tombstone :
  let e := cluster_cached true in
  let r := exec ref_handler (syncNamespace namespace_ns1) e in
  (ref_handler (NamespaceLister_Get "ns1") e).1 = None
  ∧ Time_IsZero (ns_DeletionTimestamp namespace_ns1) = true
  ∧ (ref_handler (Load_Policies (addr "ns1")) e).1 = Some {[ "P" ]}
  ∧ set_elems (Some {[ "P" ]})
    = set_elems (ref_handler (Mgr_getPoliciesForNamespace "ns1") e).1.1
  ∧ result r = Returned (Some (deleting_error "ns1"))
  ∧ result r ≠ Returned None.
Proof.
  intros e r.
  assert (Hres : result r = Returned (Some (deleting_error "ns1"))) by reflexivity.
  split_and!; [reflexivity | reflexivity | reflexivity | | exact Hres |].
  - refine (bool_decide_unpack _ _). vm_compute. exact I.
  - rewrite Hres. discriminate.
Qed.

(** C5 (amended).  Two cases in which [syncNamespace] returns nil and changes
    nothing, for every implementation of the collaborators: the namespace is
    listed and live, its policies are computed without error, and either
    there is no cache entry and no policy matches, or the entry is not marked
    for deletion and its [Policies] has the same elements as the recomputed
    match set.  The calls are lookups, loads and (in the second case) the
    unlock, so any view of the state that such calls preserve is unchanged.
    Against the reference collaborators, running [syncNamespace] a second
    time right after a first run leaves the whole state as the first run left
    it, the caches and the record of applier calls included, and returns
    what the first run returned. *)
Theorem syncNamespace_idempotent :
  (∀ (S : Type) (h : handler S) (ns : Namespace) (s0 s1 s2 s3 : S)
     (matches : StringSet) (cacheInfo : option loc),
     let name := ns_Name ns in
     h (NamespaceLister_Get name) s0 = (None, s1) →
     Time_IsZero (ns_DeletionTimestamp ns) = true →
     h (Mgr_getPoliciesForNamespace name) s1 = ((matches, None), s2) →
     h (Mgr_getNamespaceInfoFromCache name) s2 = ((cacheInfo, false), s3) →
     Set_Len matches = 0 →
     let r := exec h (syncNamespace ns) s0 in
     result r = Returned None
     ∧ final r = s3
     ∧ trace r = [NamespaceLister_Get name; Mgr_getPoliciesForNamespace name;
                  Mgr_getNamespaceInfoFromCache name]
     ∧ (∀ (V : Type) (view : S → V),
          (∀ c s, mutates_cache c = false → view (h c s).2 = view s) →
          view (final r) = view s0))
  ∧ (∀ (S : Type) (h : handler S) (ns : Namespace) (s0 s1 s2 s3 s4 s5 s6 : S)
       (matches policies : StringSet) (l : loc),
       let name := ns_Name ns in
       h (NamespaceLister_Get name) s0 = (None, s1) →
       Time_IsZero (ns_DeletionTimestamp ns) = true →
       h (Mgr_getPoliciesForNamespace name) s1 = ((matches, None), s2) →
       h (Mgr_getNamespaceInfoFromCache name) s2 = ((Some l, true), s3) →
       h (Load_markForDelete l) s3 = (false, s4) →
       h (Load_Policies l) s4 = (policies, s5) →
       set_elems policies = set_elems matches →
       h (Mgr_unlockNamespaceInfoCache name) s5 = (tt, s6) →
       let r := exec h (syncNamespace ns) s0 in
       result r = Returned None
       ∧ final r = s6
       ∧ trace r = [NamespaceLister_Get name; Mgr_getPoliciesForNamespace name;
                    Mgr_getNamespaceInfoFromCache name; Load_markForDelete l;
                    Load_Policies l; Mgr_unlockNamespaceInfoCache name]
       ∧ (∀ (V : Type) (view : S → V),
            (∀ c s, mutates_cache c = false → view (h c s).2 = view s) →
            view (final r) = view s0))
  ∧ (∀ (ns : Namespace) (e : env),
       let r1 := exec ref_handler (syncNamespace ns) e in
       let r2 := exec ref_handler (syncNamespace ns) (final r1) in
       final r2 = final r1
       ∧ result r2 = result r1
       ∧ nsCache (final r2) = nsCache (final r1)
       ∧ applier (final r2) = applier (final r1)).
Proof.
  split_and!.
  - intros S h ns s0 s1 s2 s3 matches cacheInfo name H1 Hz H2 H3 Hlen r.
    pose proof (syncNamespace_irrelevant h ns s0 s1 s2 s3 matches cacheInfo H1 Hz H2 H3 Hlen)
      as Hrun.
    assert (Hro : read_only (trace r)).
    { subst r. rewrite Hrun. unfold read_only, trace; simpl. by repeat constructor. }
    split_and!; try (subst r; by rewrite Hrun).
    intros V view Hview. by apply exec_read_only.
  - intros S h ns s0 s1 s2 s3 s4 s5 s6 matches policies l name H1 Hz H2 H3 H4 H5 Heq H6 r.
    assert (Heq' : Set_Equal policies matches = true).
    { unfold Set_Equal. by rewrite bool_decide_eq_true_2. }
    pose proof (syncNamespace_unchanged h ns s0 s1 s2 s3 s4 s5 s6 matches l policies
                  H1 Hz H2 H3 H4 H5 Heq' H6) as Hrun.
    assert (Hro : read_only (trace r)).
    { subst r. rewrite Hrun. unfold read_only, trace; simpl. by repeat constructor. }
    split_and!; try (subst r; by rewrite Hrun).
    intros V view Hview. by apply exec_read_only.
  - intros ns e r1 r2.
    destruct (exec_syncNamespace_on_ref ns e) as [Hres1 Hfin1].
    destruct (exec_syncNamespace_on_ref ns (final r1)) as [Hres2 Hfin2].
    fold r1 in Hres1, Hfin1. fold r2 in Hres2, Hfin2.
    assert (Hfin : final r2 = final r1).
    { rewrite Hfin2, Hfin1. by rewrite syncNamespace_on_ref_twice. }
    split_and!; [done | | by rewrite Hfin | by rewrite Hfin].
    rewrite Hres2, Hres1, Hfin1. by rewrite syncNamespace_on_ref_twice.
Qed.

(** In the reconciled cluster the entry of ns1 already carries the matching
    policies: nothing is done.  From the empty caches, a first run adds the
    entry and calls the applier once; a second run changes nothing. *)
Lemma syncNamespace_idempotent_witness :
  (let e := cluster_cached false in
   let r := exec ref_handler (syncNamespace namespace_ns1) e in
   set_elems (Some {[ "P" ]}) = set_elems (Some (matching_policies e "ns1"))
   ∧ result r = Returned None
   ∧ final r = e)
  ∧ (let r1 := exec ref_handler (syncNamespace namespace_ns1) cluster0 in
     let r2 := exec ref_handler (syncNamespace namespace_ns1) (final r1) in
     length (applier (final r1)) = 1%nat
     ∧ final r2 = final r1
     ∧ applier (final r2) = applier (final r1)).
Proof.
  destruct syncNamespace_idempotent as (_ & Hsame & Htwice).
  assert (Heq : set_elems (Some {[ "P" ]})
                = set_elems (Some (matching_policies (cluster_cached false) "ns1"))).
  { refine (bool_decide_unpack _ _). vm_compute. exact I. }
  split.
  - cbv zeta.
    destruct (Hsame env ref_handler namespace_ns1
                (cluster_cached false) (cluster_cached false) (cluster_cached false)
                (cluster_cached false) (cluster_cached false) (cluster_cached false)
                (cluster_cached false)
                (Some (matching_policies (cluster_cached false) "ns1")) (Some {[ "P" ]})
                (addr "ns1") eq_refl eq_refl eq_refl eq_refl eq_refl eq_refl Heq eq_refl)
      as (Hres & Hfin & _).
    split_and!; [exact Heq | exact Hres | exact Hfin].
  - cbv zeta. destruct (Htwice namespace_ns1 cluster0) as (Hfin & _ & _ & Happ).
    split_and!; [vm_compute; reflexivity | exact Hfin | exact Happ].
Defined.

(** C6 (counterexample).  The deletion timestamp of gw1 is set and its
    reverse-index set is not empty.  When the lister fails, [syncPod] returns
    the lister's error after that one call: it neither returns nil nor runs
    [processDeletePod].  When the matched namespace ns1 is a tombstone, the
    Delete path of the reference manager fails with the in-progress error and
    the address that gw1 contributed stays in the dynamic set of ns1. *)
Lemma syncPod_terminating_lister_error :
  (let e := cluster_cached false in
   let r := exec lister_failing_handler (syncPod pod_gw1_terminating) e in
   Time_IsZero (pod_DeletionTimestamp pod_gw1_terminating) = false
   ∧ (lister_failing_handler
        (Mgr_filterNamespacesUsingPodGateway (pod_nn pod_gw1_terminating)) e).1
     = Some {[ "ns1" ]}
   ∧ result r = Returned (Some lister_error)
   ∧ trace r = [PodLister_Get "gws" "gw1"])
  ∧ (let e := cluster_cached true in
     let r := exec ref_handler (syncPod pod_gw1_terminating) e in
     (ref_handler (Mgr_filterNamespacesUsingPodGateway (pod_nn pod_gw1_terminating)) e).1
     = Some {[ "ns1" ]}
     ∧ tombstoned e "ns1" = true
     ∧ result r = Returned (Some (InProgress "ns1"))
     ∧ final r = e
     ∧ nsCache e !! "ns1" = Some (info_ns1 true)
     ∧ "192.168.1.9" ∈ DynamicGateways (info_ns1 true)).
Proof.
  split.
  - cbv zeta. split_and!; reflexivity.
  - intros e r.
    pose proof (ref_syncPod_tombstone pod_gw1_terminating e) as Hrun. fold r in Hrun.
    assert (Hf : first_tombstone e (pod_targets e pod_gw1_terminating) = Some "ns1")
      by (vm_compute; reflexivity).
    rewrite Hf in Hrun. destruct Hrun as [Hres Hfin].
    split_and!; [reflexivity | reflexivity | exact Hres | exact Hfin | reflexivity |].
    refine (bool_decide_unpack _ _). vm_compute. exact I.
Qed.

(** C6 (amended).  [syncPod] for every implementation of the collaborators.
    An error of the lister other than NotFound is returned at once, whatever
    the deletion timestamp of the pod.  Otherwise the reverse index of the
    pod is read.  When the pod is absent from the listing or its deletion
    timestamp is set: with an empty reverse-index set the sync returns nil
    and makes no cache-mutating call; otherwise it runs [processDeletePod]
    on the pod and on exactly the namespaces of the reverse index.  When the
    pod is live: with an empty reverse-index set it runs [processAddPod],
    otherwise [processUpdatePod] with the reverse-index set.  In the three
    processing paths the manager's answer is the result and its state the
    final state.  Against the reference manager, the Delete path on matched
    namespaces without tombstone drops the reverse-index entry of the pod
    and leaves in the dynamic gateway IPs of each matched namespace exactly
    the IPs of the other listed pods that are live gateways for its policies,
    whatever IPs the object of the event carries; with a tombstone among the
    matched namespaces it fails with the in-progress error and changes
    nothing. *)
Theorem syncPod_dispatch :
  (∀ (S : Type) (h : handler S) (pod : Pod) (s0 s1 : S) (err : option error),
     let r := exec h (syncPod pod) s0 in
     let mutating := filter (λ c, mutates_cache c = true) (trace r) in
     h (PodLister_Get (pod_Namespace pod) (pod_Name pod)) s0 = (err, s1) →
     (∀ e, err = Some e → error_IsNotFound e = false →
        result r = Returned (Some e) ∧ final r = s1
        ∧ trace r = [PodLister_Get (pod_Namespace pod) (pod_Name pod)])
     ∧ (err = None ∨ IsNotFound err = true →
        ∀ (namespaces : StringSet) (s2 : S),
          h (Mgr_filterNamespacesUsingPodGateway (pod_nn pod)) s1 = (namespaces, s2) →
          (pod_gone err pod = true → Set_Len namespaces = 0 →
             result r = Returned None ∧ final r = s2 ∧ mutating = [])
          ∧ (pod_gone err pod = true → Set_Len namespaces ≠ 0 →
             ∀ res s3, h (Mgr_processDeletePod pod namespaces) s2 = (res, s3) →
               result r = Returned res ∧ final r = s3
               ∧ mutating = [Mgr_processDeletePod pod namespaces])
          ∧ (pod_gone err pod = false → Set_Len namespaces = 0 →
             ∀ res s3, h (Mgr_processAddPod pod) s2 = (res, s3) →
               result r = Returned res ∧ final r = s3 ∧ mutating = [Mgr_processAddPod pod])
          ∧ (pod_gone err pod = false → Set_Len namespaces ≠ 0 →
             ∀ res s3, h (Mgr_processUpdatePod pod namespaces) s2 = (res, s3) →
               result r = Returned res ∧ final r = s3
               ∧ mutating = [Mgr_processUpdatePod pod namespaces])))
  ∧ (∀ (pod : Pod) (e : env),
       let nss := default ∅ (podIndex e !! pod_key pod) in
       let r := exec ref_handler (syncPod pod) e in
       pods e !! pod_key pod = None ∨ Time_IsZero (pod_DeletionTimestamp pod) = false →
       nss ≠ ∅ →
       ((∀ n, n ∈ nss → tombstoned e n = false) →
          result r = Returned None
          ∧ podIndex (final r) !! pod_key pod = None
          ∧ ∀ ns info, ns ∈ nss → nsCache e !! ns = Some info →
              ∃ info', nsCache (final r) !! ns = Some info'
                ∧ Policies info' = Policies info
                ∧ ∀ ip, ip ∈ DynamicGateways info'
                        ↔ ∃ key' pod', key' ≠ pod_key pod
                                       ∧ pods e !! key' = Some pod'
                                       ∧ is_gateway e (set_elems (Policies info)) pod' = true
                                       ∧ ip ∈ pod_ips pod')
       ∧ (∀ n, n ∈ nss → tombstoned e n = true →
            (∃ n', n' ∈ nss ∧ tombstoned e n' = true
                   ∧ result r = Returned (Some (InProgress n')))
            ∧ final r = e)).
Proof.
  split.
  - intros S h pod s0 s1 err r mutating H1. subst r mutating. split.
    + intros e -> Hnf. unfold syncPod. simpl. rewrite H1. simpl. by rewrite Hnf.
    + intros Herr namespaces s2 H2.
      assert (Hok : nonnil err && negb (IsNotFound err) = false).
      { destruct Herr as [-> | ->]; [done | by rewrite andb_false_r]. }
      split_and!; intros Hgone Hlen.
      * by rewrite (syncPod_not_gateway h pod s0 s1 s2 err namespaces).
      * intros res s3 H3. by rewrite (syncPod_delete h pod s0 s1 s2 s3 err namespaces res).
      * intros res s3 H3. by rewrite (syncPod_add h pod s0 s1 s2 s3 err namespaces res).
      * intros res s3 H3. by rewrite (syncPod_update h pod s0 s1 s2 s3 err namespaces res).
  - intros pod e nss r Hgone Hne.
    assert (Hg : pod_gone (lister_Get (pods e) (pod_key pod) "pod") pod = true).
    { unfold pod_gone, lister_Get. destruct Hgone as [-> | ->]; [done|].
      by rewrite orb_true_r. }
    destruct (exec_syncPod_on_ref pod e) as [Hres Hfin]. fold r nss in Hres, Hfin.
    rewrite Hg in Hres, Hfin. rewrite bool_decide_eq_false_2 in Hres, Hfin by done.
    split.
    + intros Hlive. apply first_tombstone_None in Hlive.
      destruct (ref_processDeletePod_clean pod nss e Hlive) as (Hnil & Hidx & Hns).
      rewrite Hres, Hfin, Hnil. split_and!; [done..|].
      intros ns info Hin Hl. exists (drop_pod e (pod_key pod) info). split_and!.
      * rewrite Hns, Hl. by rewrite bool_decide_eq_true_2.
      * done.
      * intros ip. apply elem_of_drop_pod.
    + intros n Hin Ht.
      destruct (first_tombstone_exists e nss n Hin Ht) as [n' Hn'].
      assert (Hrun : ref_processDeletePod pod (Some nss) e = (Some (InProgress n'), e)).
      { unfold ref_processDeletePod. simpl. by rewrite Hn'. }
      rewrite Hrun in Hres, Hfin. apply first_tombstone_Some in Hn' as [Hin' Ht'].
      split; [by exists n' | done].
Qed.

(** Pod gw1 is recorded as a gateway of ns1.  While it is listed and live its
    sync goes through the Update path.  Once its deletion has started its
    sync goes through the Delete path, and ns1 is left with no dynamic IP
    although the object of the event carries another address than the one
    the pod contributed.  With a lister that cannot answer the sync returns
    the lister's error; with ns1 as a tombstone the Delete path fails. *)
Lemma syncPod_dispatch_witness :
  (let e := cluster_cached false in
   let r := exec ref_handler (syncPod pod_gw1) e in
   ref_handler (PodLister_Get "gws" "gw1") e = (None, e)
   ∧ ref_handler (Mgr_filterNamespacesUsingPodGateway (pod_nn pod_gw1)) e
     = (Some {[ "ns1" ]}, e)
   ∧ pod_gone None pod_gw1 = false
   ∧ Set_Len (Some {[ "ns1" ]}) ≠ 0
   ∧ result r = Returned None
   ∧ filter (λ c, mutates_cache c = true) (trace r)
     = [Mgr_processUpdatePod pod_gw1 (Some {[ "ns1" ]})])
  ∧ (let e := cluster_cached false in
     let r := exec ref_handler (syncPod pod_gw1_moved_terminating) e in
     Time_IsZero (pod_DeletionTimestamp pod_gw1_moved_terminating) = false
     ∧ first_tombstone e (default ∅ (podIndex e !! pod_key pod_gw1_moved_terminating)) = None
     ∧ "192.168.1.9" ∈ DynamicGateways (info_ns1 false)
     ∧ result r = Returned None
     ∧ podIndex (final r) !! ("gws", "gw1") = None
     ∧ ∃ info', nsCache (final r) !! "ns1" = Some info'
                ∧ Policies info' = Some {[ "P" ]}
                ∧ "192.168.1.9" ∉ DynamicGateways info')
  ∧ (let r := exec lister_failing_handler (syncPod pod_gw1_terminating)
                (cluster_cached false) in
     error_IsNotFound lister_error = false
     ∧ result r = Returned (Some lister_error))
  ∧ (let e := cluster_cached true in
     let r := exec ref_handler (syncPod pod_gw1_terminating) e in
     tombstoned e "ns1" = true
     ∧ (∃ n', n' ∈ default ∅ (podIndex e !! pod_key pod_gw1_terminating)
              ∧ tombstoned e n' = true
              ∧ result r = Returned (Some (InProgress n')))
     ∧ final r = e).
Proof.
  destruct syncPod_dispatch as [Hgen Href].
  destruct (Hgen env ref_handler pod_gw1 (cluster_cached false) (cluster_cached false)
              None eq_refl) as (_ & Hpaths).
  destruct (Hpaths (or_introl eq_refl) (Some {[ "ns1" ]}) (cluster_cached false) eq_refl)
    as (_ & _ & _ & Hupd).
  assert (Hlen : Set_Len (Some {[ "ns1" ]}) ≠ 0) by (vm_compute; discriminate).
  assert (Hp : (ref_processUpdatePod pod_gw1 (Some {[ "ns1" ]}) (cluster_cached false)).1
               = None) by (vm_compute; reflexivity).
  destruct (Hupd eq_refl Hlen None
              (ref_processUpdatePod pod_gw1 (Some {[ "ns1" ]}) (cluster_cached false)).2
              (pair_eta _ _ Hp)) as (Hres & _ & Hmut).
  (* Delete *)
  assert (Ht : first_tombstone (cluster_cached false)
                 (default ∅ (podIndex (cluster_cached false)
                               !! pod_key pod_gw1_moved_terminating)) = None)
    by (vm_compute; reflexivity).
  assert (Hne : default ∅ (podIndex (cluster_cached false)
                             !! pod_key pod_gw1_moved_terminating)
                ≠ (∅ : gset string)).
  { intros Hempty. apply (f_equal size) in Hempty. vm_compute in Hempty.
    discriminate Hempty. }
  destruct (Href pod_gw1_moved_terminating (cluster_cached false) (or_intror eq_refl) Hne)
    as [Hdel _].
  destruct (Hdel (proj1 (first_tombstone_None _ _) Ht)) as (Hres' & Hidx & Hips).
  assert (Hin1 : "ns1" ∈ default ∅ (podIndex (cluster_cached false)
                                       !! pod_key pod_gw1_moved_terminating)).
  { refine (bool_decide_unpack _ _). vm_compute. exact I. }
  destruct (Hips "ns1" (info_ns1 false) Hin1 eq_refl) as (info' & Hl' & Hpol' & Hdyn').
  (* lister error *)
  destruct (Hgen env lister_failing_handler pod_gw1_terminating
              (cluster_cached false) (cluster_cached false) (Some lister_error) eq_refl)
    as (Hfail & _).
  destruct (Hfail lister_error eq_refl eq_refl) as (Hres'' & _).
  (* tombstone *)
  assert (Hne' : default ∅ (podIndex (cluster_cached true) !! pod_key pod_gw1_terminating)
                 ≠ (∅ : gset string)).
  { intros Hempty. apply (f_equal size) in Hempty. vm_compute in Hempty.
    discriminate Hempty. }
  destruct (Href pod_gw1_terminating (cluster_cached true) (or_intror eq_refl) Hne')
    as [_ Htomb].
  assert (Hin2 : "ns1" ∈ default ∅ (podIndex (cluster_cached true)
                                       !! pod_key pod_gw1_terminating)).
  { refine (bool_decide_unpack _ _). vm_compute. exact I. }
  destruct (Htomb "ns1" Hin2 eq_refl) as [Hinprogress Hsame].
  cbv zeta. split_and!;
    [ reflexivity | reflexivity | reflexivity | exact Hlen | exact Hres | exact Hmut
    | reflexivity | exact Ht
    | refine (bool_decide_unpack _ _); vm_compute; exact I | exact Hres' | exact Hidx |
    | reflexivity | exact Hres''
    | reflexivity | exact Hinprogress | exact Hsame ].
  exists info'. split_and!; [exact Hl' | exact Hpol' |].
  rewrite Hdyn'. intros (key' & pod' & Hkey & Hl & _).
  change (pods (cluster_cached false))
    with ({[ ("gws", "gw1") := pod_gw1 ]} : gmap (string * string) Pod) in Hl.
  apply lookup_singleton_Some in Hl as [Hk _]. apply Hkey. symmetry. exact Hk.
Defined.

(** C7.  The pod admission filters, on events that carry a pod.  An add is
    enqueued exactly when the pod has at least one assigned IP or a non-empty
    network-status annotation; an update is enqueued (with the new pod)
    exactly when labels, assigned IPs or the network-status annotation
    differ; a delete is always enqueued, also when the pod comes wrapped in
    a [DeletedFinalStateUnknown] tombstone.  Nothing else is called. *)
Theorem pod_admission_filters {S} (h : handler S) (s : S) :
  (∀ pod : Pod,
     trace (exec h (onPodAdd (PodPtr (Some pod))) s) =
       if bool_decide (has_ips pod ∨ network_status pod ≠ EmptyString)
       then [Queue_Add podQueue (PodPtr (Some pod))] else [])
  ∧ (∀ o n : Pod,
       trace (exec h (onPodUpdate (PodPtr (Some o)) (PodPtr (Some n))) s) =
         if bool_decide (pod_changed o n)
         then [Queue_Add podQueue (PodPtr (Some n))] else [])
  ∧ (∀ pod : Pod,
       trace (exec h (onPodDelete (PodPtr (Some pod))) s)
       = [Queue_Add podQueue (PodPtr (Some pod))])
  ∧ (∀ (key : string) (pod : Pod),
       trace (exec h (onPodDelete (DeletedFinalStateUnknown key (PodPtr (Some pod)))) s)
       = [Queue_Add podQueue (PodPtr (Some pod))]).
Proof.
  split_and!.
  - intros pod. unfold onPodAdd, has_ips, network_status. simpl.
    destruct (default [] (pod_PodIPs pod)) as [|ip ips] eqn:Hips; simpl.
    + destruct (gomap_index (pod_Annotations pod) NetworkStatusAnnot) as [|a ann] eqn:Hann;
        simpl.
      * rewrite ?bool_decide_eq_false_2
          by (intros [Hlt | Hne]; [simpl in Hlt; lia | done]).
        done.
      * rewrite ?bool_decide_eq_true_2 by (by right).
        by destruct (h (Queue_Add podQueue (PodPtr (Some pod))) s).
    + rewrite ?bool_decide_eq_true_2 by (left; simpl; lia).
      by destruct (h (Queue_Add podQueue (PodPtr (Some pod))) s).
  - intros o n. unfold onPodUpdate, pod_changed, network_status. simpl.
    repeat case_bool_decide; simpl;
      try (by destruct (h (Queue_Add podQueue (PodPtr (Some n))) s));
      try done; tauto.
  - intros pod. unfold onPodDelete. simpl.
    by destruct (h (Queue_Add podQueue (PodPtr (Some pod))) s).
  - intros key pod. unfold onPodDelete. simpl.
    by destruct (h (Queue_Add podQueue (PodPtr (Some pod))) s).
Qed.

(** C8.  When both lookups succeed,
    [GetAdminPolicyBasedExternalRouteIPsForTargetNamespace] returns a nil
    error and the union of the dynamic and the static gateway IPs: an IP is
    in the result exactly when it is in one of the two sets, whichever, and
    swapping the two contributions gives the same set. *)
Theorem gateway_ips_union {S} (h : handler S) (namespaceName : string) (s0 s1 s2 : S)
    (gwIPs tmpIPs : StringSet) :
  h (Mgr_getDynamicGatewayIPsForTargetNamespace namespaceName) s0 = ((gwIPs, None), s1) →
  h (Mgr_getStaticGatewayIPsForTargetNamespace namespaceName) s1 = ((tmpIPs, None), s2) →
  let r := exec h (GetAdminPolicyBasedExternalRouteIPsForTargetNamespace namespaceName) s0 in
  result r = Returned (Some (set_elems gwIPs ∪ set_elems tmpIPs), None)
  ∧ final r = s2
  ∧ (∀ ip, ip ∈ set_elems gwIPs ∪ set_elems tmpIPs
           ↔ ip ∈ set_elems gwIPs ∨ ip ∈ set_elems tmpIPs)
  ∧ Set_Union gwIPs tmpIPs = Set_Union tmpIPs gwIPs.
Proof.
  intros H1 H2 r. subst r.
  unfold GetAdminPolicyBasedExternalRouteIPsForTargetNamespace. run.
  split_and!; try done.
  - intros ip. apply elem_of_union.
  - unfold Set_Union. f_equal. apply (comm_L (∪)).
Qed.

Lemma gateway_ips_union_witness :
  let e := cluster_cached false in
  ref_handler (Mgr_getDynamicGatewayIPsForTargetNamespace "ns1") e
  = ((Some {[ "192.168.1.9" ]}, None), e)
  ∧ ref_handler (Mgr_getStaticGatewayIPsForTargetNamespace "ns1") e
    = ((Some {[ "10.0.0.5" ]}, None), e)
  ∧ result (exec ref_handler (GetAdminPolicyBasedExternalRouteIPsForTargetNamespace "ns1") e)
    = Returned (Some ({[ "192.168.1.9" ]} ∪ {[ "10.0.0.5" ]}), None).
Proof.
  intros e.
  pose proof (gateway_ips_union ref_handler "ns1" e e e
                (Some {[ "192.168.1.9" ]}) (Some {[ "10.0.0.5" ]})
                eq_refl eq_refl)
    as (Hres & _).
  split_and!; [reflexivity | reflexivity | exact Hres].
Defined.

(** C9.  When the dynamic lookup fails, the static lookup is not attempted
    (the dynamic lookup is the only call) and the result is a nil set with
    that error; when the dynamic lookup succeeds and the static lookup fails,
    the result is again a nil set with the static lookup's error.  A failure
    never comes with a set. *)
Theorem gateway_ips_error {S} (h : handler S) (namespaceName : string) (s0 s1 : S)
    (gwIPs : StringSet) (err : option error) :
  let r := exec h (GetAdminPolicyBasedExternalRouteIPsForTargetNamespace namespaceName) s0 in
  h (Mgr_getDynamicGatewayIPsForTargetNamespace namespaceName) s0 = ((gwIPs, err), s1) →
  (∀ e, err = Some e →
     result r = Returned (None, Some e)
     ∧ final r = s1
     ∧ trace r = [Mgr_getDynamicGatewayIPsForTargetNamespace namespaceName])
  ∧ (err = None →
     ∀ tmpIPs e s2,
       h (Mgr_getStaticGatewayIPsForTargetNamespace namespaceName) s1
       = ((tmpIPs, Some e), s2) →
       result r = Returned (None, Some e)
       ∧ final r = s2
       ∧ trace r = [Mgr_getDynamicGatewayIPsForTargetNamespace namespaceName;
                    Mgr_getStaticGatewayIPsForTargetNamespace namespaceName]).
Proof.
  intros r H1. subst r.
  unfold GetAdminPolicyBasedExternalRouteIPsForTargetNamespace. split.
  - intros e ->. by run.
  - intros -> tmpIPs e s2 H2. by run.
Qed.

Lemma gateway_ips_error_witness :
  let e := cluster_cached false in
  let get := GetAdminPolicyBasedExternalRouteIPsForTargetNamespace "ns1" in
  (* the dynamic lookup fails *)
  (failing_handler true false (Mgr_getDynamicGatewayIPsForTargetNamespace "ns1") e
   = ((None, Some listing_error), e)
   ∧ result (exec (failing_handler true false) get e) = Returned (None, Some listing_error)
   ∧ trace (exec (failing_handler true false) get e)
     = [Mgr_getDynamicGatewayIPsForTargetNamespace "ns1"])
  (* the static lookup fails *)
  ∧ (failing_handler false true (Mgr_getStaticGatewayIPsForTargetNamespace "ns1") e
     = ((None, Some listing_error), e)
     ∧ result (exec (failing_handler false true) get e) = Returned (None, Some listing_error)).
Proof.
  intros e get.
  pose proof (gateway_ips_error (failing_handler true false) "ns1" e e None
                (Some listing_error) eq_refl) as [Hdyn _].
  destruct (Hdyn listing_error eq_refl) as (Hr1 & _ & Ht1).
  pose proof (gateway_ips_error (failing_handler false true) "ns1" e e
                (Some {[ "192.168.1.9" ]}) None eq_refl)
    as [_ Hsta].
  destruct (Hsta eq_refl None listing_error e eq_refl) as (Hr2 & _).
  split_and!; [reflexivity | exact Hr1 | exact Ht1 | reflexivity | exact Hr2].
Defined.

(** C10.  In each of the three workers [Forget] is called on the item exactly
    when the item is not requeued, that is when its sync succeeded and also
    when its sync failed with the retry budget exhausted; [AddRateLimited] is
    called exactly when the item is requeued (sync error and
    [NumRequeues < maxRetries]). *)
Theorem workers_forget_unless_requeued {S} (h : handler S) (maxRetries : Z) :
  (∀ (p : AdminPolicyBasedExternalRoute) (s0 s1 s2 : S) err tr,
     let obj := PolicyPtr (Some p) in
     h (Queue_Get routeQueue) s0 = ((obj, false), s1) →
     exec h (syncRoutePolicy p) s1 = (Returned err, s2, tr) →
     let calls := trace (exec h (processNextPolicyWorkItem maxRetries) s0) in
     let n := (h (Queue_NumRequeues routeQueue obj) s2).1 in
     (Queue_Forget routeQueue obj ∈ calls ↔ ¬ requeued maxRetries err n)
     ∧ (Queue_AddRateLimited routeQueue obj ∈ calls ↔ requeued maxRetries err n))
  ∧ (∀ (ns : Namespace) (s0 s1 s2 : S) err tr,
       let obj := NamespacePtr (Some ns) in
       h (Queue_Get namespaceQueue) s0 = ((obj, false), s1) →
       exec h (syncNamespace ns) s1 = (Returned err, s2, tr) →
       let calls := trace (exec h (processNextNamespaceWorkItem maxRetries) s0) in
       let n := (h (Queue_NumRequeues namespaceQueue obj) s2).1 in
       (Queue_Forget namespaceQueue obj ∈ calls ↔ ¬ requeued maxRetries err n)
       ∧ (Queue_AddRateLimited namespaceQueue obj ∈ calls ↔ requeued maxRetries err n))
  ∧ (∀ (pod : Pod) (s0 s1 s2 : S) err tr,
       let obj := PodPtr (Some pod) in
       h (Queue_Get podQueue) s0 = ((obj, false), s1) →
       exec h (syncPod pod) s1 = (Returned err, s2, tr) →
       let calls := trace (exec h (processNextPodWorkItem maxRetries) s0) in
       let n := (h (Queue_NumRequeues podQueue obj) s2).1 in
       (Queue_Forget podQueue obj ∈ calls ↔ ¬ requeued maxRetries err n)
       ∧ (Queue_AddRateLimited podQueue obj ∈ calls ↔ requeued maxRetries err n)).
Proof.
  split_and!.
  - intros p s0 s1 s2 err tr obj Hget Hsync calls n. subst calls n.
    destruct (processNextPolicyWorkItem_run h maxRetries p s0 s1 s2 err tr Hget Hsync)
      as [_ ->].
    pose proof (avoids_trace h _ _ s1 (syncRoutePolicy_no_queue_call p)) as Hq.
    rewrite Hsync in Hq. apply worker_tail_forget; try done.
    by repeat constructor.
  - intros ns s0 s1 s2 err tr obj Hget Hsync calls n. subst calls n.
    destruct (processNextNamespaceWorkItem_run h maxRetries ns s0 s1 s2 err tr Hget Hsync)
      as [_ ->].
    pose proof (avoids_trace h _ _ s1 (syncNamespace_no_queue_call ns)) as Hq.
    rewrite Hsync in Hq. apply worker_tail_forget; try done.
    by repeat constructor.
  - intros pod s0 s1 s2 err tr obj Hget Hsync calls n. subst calls n.
    destruct (processNextPodWorkItem_run h maxRetries pod s0 s1 s2 err tr Hget Hsync)
      as [_ ->].
    pose proof (avoids_trace h _ _ s1 (syncPod_no_queue_call pod)) as Hq.
    rewrite Hsync in Hq. apply worker_tail_forget; try done.
    by repeat constructor.
Qed.

(** The tombstoned ns1 after 15 failed attempts, with [maxRetries = 15]: the
    sync fails, the item is not requeued and [Forget] is called. *)
Lemma workers_forget_unless_requeued_witness :
  let obj := NamespacePtr (Some namespace_ns1) in
  let calls := trace (exec ref_handler (processNextNamespaceWorkItem 15) (cluster_queued 15)) in
  result (exec ref_handler (syncNamespace namespace_ns1)
            (ref_handler (Queue_Get namespaceQueue) (cluster_queued 15)).2)
  = Returned (Some (deleting_error "ns1"))
  ∧ ¬ requeued 15 (Some (deleting_error "ns1")) 15
  ∧ Queue_Forget namespaceQueue obj ∈ calls.
Proof.
  intros obj calls.
  pose proof (workers_forget_unless_requeued ref_handler 15) as (_ & Hns & _).
  destruct (Hns namespace_ns1 (cluster_queued 15)
              (ref_handler (Queue_Get namespaceQueue) (cluster_queued 15)).2
              (ref_handler (Queue_Get namespaceQueue) (cluster_queued 15)).2
              (Some (deleting_error "ns1"))
              [NamespaceLister_Get "ns1"; Mgr_getPoliciesForNamespace "ns1";
               Mgr_getNamespaceInfoFromCache "ns1"; Load_markForDelete (addr "ns1");
               Mgr_unlockNamespaceInfoCache "ns1"]
              eq_refl eq_refl)
    as [Hforget _].
  split_and!.
  - reflexivity.
  - unfold requeued. intros [_ Hlt]. exact (Z.lt_irrefl _ Hlt).
  - apply Hforget. unfold requeued. intros [_ Hlt]. vm_compute in Hlt. discriminate Hlt.
Defined.

(** * Further properties of the controller *)

(** ** Admission filters of namespaces and policies *)

(** X1.  Namespace events that carry a namespace.  An add is always
    enqueued.  An update is enqueued, with the new namespace, exactly when
    the resource version changed and the new namespace is not being deleted
    (a changed resource version on a namespace whose deletion has started is
    dropped).  A delete is always enqueued, also out of a
    [DeletedFinalStateUnknown] tombstone.  Nothing else is called. *)
Theorem namespace_admission_filters {S} (h : handler S) (s : S) :
  (∀ ns : Namespace,
     trace (exec h (onNamespaceAdd (NamespacePtr (Some ns))) s)
     = [Queue_Add namespaceQueue (NamespacePtr (Some ns))])
  ∧ (∀ o n : Namespace,
       trace (exec h (onNamespaceUpdate (NamespacePtr (Some o)) (NamespacePtr (Some n))) s) =
         if bool_decide (ns_ResourceVersion o ≠ ns_ResourceVersion n
                         ∧ Time_IsZero (ns_DeletionTimestamp n) = true)
         then [Queue_Add namespaceQueue (NamespacePtr (Some n))] else [])
  ∧ (∀ ns : Namespace,
       trace (exec h (onNamespaceDelete (NamespacePtr (Some ns))) s)
       = [Queue_Add namespaceQueue (NamespacePtr (Some ns))])
  ∧ (∀ (key : string) (ns : Namespace),
       trace (exec h (onNamespaceDelete
                        (DeletedFinalStateUnknown key (NamespacePtr (Some ns)))) s)
       = [Queue_Add namespaceQueue (NamespacePtr (Some ns))]).
Proof.
  split_and!.
  - intros ns. unfold onNamespaceAdd. simpl.
    by destruct (h (Queue_Add namespaceQueue (NamespacePtr (Some ns))) s).
  - intros o n. unfold onNamespaceUpdate. simpl.
    destruct (Time_IsZero (ns_DeletionTimestamp n)) eqn:Hz;
      repeat case_bool_decide; simpl;
      try (by destruct (h (Queue_Add namespaceQueue (NamespacePtr (Some n))) s));
      try done; intuition congruence.
  - intros ns. unfold onNamespaceDelete. simpl.
    by destruct (h (Queue_Add namespaceQueue (NamespacePtr (Some ns))) s).
  - intros key ns. unfold onNamespaceDelete. simpl.
    by destruct (h (Queue_Add namespaceQueue (NamespacePtr (Some ns))) s).
Qed.

(** X2.  Policy events that carry a policy.  An add is always enqueued.  An
    update is enqueued, with the new policy, exactly when the generation
    changed and the new policy is not being deleted: a change that leaves the
    generation alone (status, labels, annotations) is dropped.  A delete is
    always enqueued, also out of a tombstone.  Nothing else is called. *)
Theorem policy_admission_filters {S} (h : handler S) (s : S) :
  (∀ p : AdminPolicyBasedExternalRoute,
     trace (exec h (onPolicyAdd (PolicyPtr (Some p))) s)
     = [Queue_Add routeQueue (PolicyPtr (Some p))])
  ∧ (∀ o n : AdminPolicyBasedExternalRoute,
       trace (exec h (onPolicyUpdate (PolicyPtr (Some o)) (PolicyPtr (Some n))) s) =
         if bool_decide (apb_Generation o ≠ apb_Generation n
                         ∧ Time_IsZero (apb_DeletionTimestamp n) = true)
         then [Queue_Add routeQueue (PolicyPtr (Some n))] else [])
  ∧ (∀ p : AdminPolicyBasedExternalRoute,
       trace (exec h (onPolicyDelete (PolicyPtr (Some p))) s)
       = [Queue_Add routeQueue (PolicyPtr (Some p))])
  ∧ (∀ (key : string) (p : AdminPolicyBasedExternalRoute),
       trace (exec h (onPolicyDelete (DeletedFinalStateUnknown key (PolicyPtr (Some p)))) s)
       = [Queue_Add routeQueue (PolicyPtr (Some p))]).
Proof.
  split_and!.
  - intros p. unfold onPolicyAdd. simpl.
    by destruct (h (Queue_Add routeQueue (PolicyPtr (Some p))) s).
  - intros o n. unfold onPolicyUpdate. simpl.
    destruct (Time_IsZero (apb_DeletionTimestamp n)) eqn:Hz;
      repeat case_bool_decide; simpl;
      try (by destruct (h (Queue_Add routeQueue (PolicyPtr (Some n))) s));
      try done; intuition congruence.
  - intros p. unfold onPolicyDelete. simpl.
    by destruct (h (Queue_Add routeQueue (PolicyPtr (Some p))) s).
  - intros key p. unfold onPolicyDelete. simpl.
    by destruct (h (Queue_Add routeQueue (PolicyPtr (Some p))) s).
Qed.

(** ** What the event handlers put on the queues *)

Ltac handler_case h :=
  simpl;
  repeat match goal with
  | |- context [bool_decide ?P] => destruct (bool_decide P); simpl
  | |- context [negb ?b] => destruct b; simpl
  | |- context [h ?c ?s] => destruct (h c s) as [? ?]; simpl
  end;
  try done.

(** X3.  Whatever the informers deliver (a pointer of another type, a nil
    pointer, a tombstone around anything), each of the nine event handlers
    makes at most one call, and that call is either [HandleError] or the
    [Add] of a non-nil pointer of the right type to the handler's own queue.
    The unchecked type assertions of the workers therefore hold on every
    item that a handler enqueued. *)
Theorem handlers_enqueue_well_typed {S} (h : handler S) (s : S) (obj old new : object) :
  handler_trace_ok routeQueue (trace (exec h (onPolicyAdd obj) s))
  ∧ handler_trace_ok routeQueue (trace (exec h (onPolicyUpdate old new) s))
  ∧ handler_trace_ok routeQueue (trace (exec h (onPolicyDelete obj) s))
  ∧ handler_trace_ok namespaceQueue (trace (exec h (onNamespaceAdd obj) s))
  ∧ handler_trace_ok namespaceQueue (trace (exec h (onNamespaceUpdate old new) s))
  ∧ handler_trace_ok namespaceQueue (trace (exec h (onNamespaceDelete obj) s))
  ∧ handler_trace_ok podQueue (trace (exec h (onPodAdd obj) s))
  ∧ handler_trace_ok podQueue (trace (exec h (onPodUpdate old new) s))
  ∧ handler_trace_ok podQueue (trace (exec h (onPodDelete obj) s)).
Proof.
  split_and!.
  - unfold onPolicyAdd. destruct obj as [|[?|]|[?|]|[?|]|? ?|?]; handler_case h.
  - unfold onPolicyUpdate.
    destruct old as [|[?|]|[?|]|[?|]|? ?|?]; try handler_case h;
      destruct new as [|[?|]|[?|]|[?|]|? ?|?]; handler_case h.
  - unfold onPolicyDelete.
    destruct obj as [|[?|]|[?|]|[?|]|? [|[?|]|[?|]|[?|]|? ?|?]|?]; handler_case h.
  - unfold onNamespaceAdd. destruct obj as [|[?|]|[?|]|[?|]|? ?|?]; handler_case h.
  - unfold onNamespaceUpdate.
    destruct old as [|[?|]|[?|]|[?|]|? ?|?]; try handler_case h;
      destruct new as [|[?|]|[?|]|[?|]|? ?|?]; handler_case h.
  - unfold onNamespaceDelete.
    destruct obj as [|[?|]|[?|]|[?|]|? [|[?|]|[?|]|[?|]|? ?|?]|?]; handler_case h.
  - unfold onPodAdd. destruct obj as [|[?|]|[?|]|[?|]|? ?|?]; handler_case h.
  - unfold onPodUpdate.
    destruct old as [|[?|]|[?|]|[?|]|? ?|?]; try handler_case h;
      destruct new as [|[?|]|[?|]|[?|]|? ?|?]; handler_case h.
  - unfold onPodDelete.
    destruct obj as [|[?|]|[?|]|[?|]|? [|[?|]|[?|]|[?|]|? ?|?]|?]; handler_case h.
Qed.

(** ** Workers: shutdown, panics, and what ends a worker loop *)

Lemma returns_exec {S R} (h : handler S) (p : prog R) (s : S) :
  returns p → ∃ r, result (exec h p s) = Returned r.
Proof.
  revert s. induction p as [r | c k IH | msg]; intros s; simpl; [by eexists | | done].
  intros Hk. destruct (silent c) as [x|].
  - destruct (IH x s (Hk x)) as [r Hr]. exists r.
    destruct (exec h (k x) s) as [[o s1] tr]. exact Hr.
  - destruct (h c s) as [x s1]. destruct (IH x s1 (Hk x)) as [r Hr]. exists r.
    destruct (exec h (k x) s1) as [[o s2] tr]. exact Hr.
Qed.

Ltac returning :=
  repeat first
    [ done
    | progress simpl
    | progress intros
    | match goal with
      | |- returns (match ?x with _ => _ end) => destruct x
      | |- returns (if ?b then _ else _) => destruct b
      | |- returns (let (_, _) := ?x in _) => destruct x
      end ].

Lemma syncRoutePolicy_returns (p : AdminPolicyBasedExternalRoute) :
  returns (syncRoutePolicy p).
Proof. unfold syncRoutePolicy. returning. Qed.

Lemma syncPod_returns (pod : Pod) : returns (syncPod pod).
Proof. unfold syncPod. returning. Qed.

Section WorkerEdges.
Context {S : Type} (h : handler S) (maxRetries : Z).

Opaque syncRoutePolicy syncNamespace syncPod.

Lemma worker_shutdown_policy (s0 s1 : S) obj :
  h (Queue_Get routeQueue) s0 = ((obj, true), s1) →
  exec h (processNextPolicyWorkItem maxRetries) s0
  = (Returned false, s1, [WaitGroup_Add 1; Queue_Get routeQueue; WaitGroup_Done]).
Proof. intros Hget. unfold processNextPolicyWorkItem. simpl. rewrite Hget. done. Qed.

Lemma worker_shutdown_namespace (s0 s1 : S) obj :
  h (Queue_Get namespaceQueue) s0 = ((obj, true), s1) →
  exec h (processNextNamespaceWorkItem maxRetries) s0
  = (Returned false, s1, [WaitGroup_Add 1; Queue_Get namespaceQueue; WaitGroup_Done]).
Proof. intros Hget. unfold processNextNamespaceWorkItem. simpl. rewrite Hget. done. Qed.

Lemma worker_shutdown_pod (s0 s1 : S) obj :
  h (Queue_Get podQueue) s0 = ((obj, true), s1) →
  exec h (processNextPodWorkItem maxRetries) s0
  = (Returned false, s1, [WaitGroup_Add 1; Queue_Get podQueue; WaitGroup_Done]).
Proof. intros Hget. unfold processNextPodWorkItem. simpl. rewrite Hget. done. Qed.

(** A worker that dequeues an object it cannot take panics, after marking
    the object done. *)
Lemma worker_foreign_policy (s0 s1 : S) obj :
  h (Queue_Get routeQueue) s0 = ((obj, false), s1) →
  well_typed routeQueue obj = false →
  ∃ msg,
    exec h (processNextPolicyWorkItem maxRetries) s0
    = (Panicked msg, (h (Queue_Done routeQueue obj) s1).2,
       [WaitGroup_Add 1; Queue_Get routeQueue; Queue_Done routeQueue obj; WaitGroup_Done]).
Proof.
  intros Hget Hwt. unfold processNextPolicyWorkItem. simpl. rewrite Hget.
  destruct obj as [|[p|]|n|p|k o|d]; try discriminate Hwt; simpl;
    destruct (h (Queue_Done routeQueue _) s1) as [[] s2]; simpl; by eexists.
Qed.

Lemma worker_foreign_namespace (s0 s1 : S) obj :
  h (Queue_Get namespaceQueue) s0 = ((obj, false), s1) →
  well_typed namespaceQueue obj = false →
  ∃ msg,
    exec h (processNextNamespaceWorkItem maxRetries) s0
    = (Panicked msg, (h (Queue_Done namespaceQueue obj) s1).2,
       [WaitGroup_Add 1; Queue_Get namespaceQueue; Queue_Done namespaceQueue obj;
        WaitGroup_Done]).
Proof.
  intros Hget Hwt. unfold processNextNamespaceWorkItem. simpl. rewrite Hget.
  destruct obj as [|p|[n|]|p|k o|d]; try discriminate Hwt; simpl;
    destruct (h (Queue_Done namespaceQueue _) s1) as [[] s2]; simpl; by eexists.
Qed.

Lemma worker_foreign_pod (s0 s1 : S) obj :
  h (Queue_Get podQueue) s0 = ((obj, false), s1) →
  well_typed podQueue obj = false →
  ∃ msg,
    exec h (processNextPodWorkItem maxRetries) s0
    = (Panicked msg, (h (Queue_Done podQueue obj) s1).2,
       [WaitGroup_Add 1; Queue_Get podQueue; Queue_Done podQueue obj; WaitGroup_Done]).
Proof.
  intros Hget Hwt. unfold processNextPodWorkItem. simpl. rewrite Hget.
  destruct obj as [|p|n|[p|]|k o|d]; try discriminate Hwt; simpl;
    destruct (h (Queue_Done podQueue _) s1) as [[] s2]; simpl; by eexists.
Qed.

(** The namespace worker when the sync of the item panics. *)
Lemma worker_namespace_sync_panics (ns : Namespace) (s0 s1 s2 : S) msg tr :
  let obj := NamespacePtr (Some ns) in
  h (Queue_Get namespaceQueue) s0 = ((obj, false), s1) →
  exec h (syncNamespace ns) s1 = (Panicked msg, s2, tr) →
  exec h (processNextNamespaceWorkItem maxRetries) s0
  = (Panicked msg, (h (Queue_Done namespaceQueue obj) s2).2,
     [WaitGroup_Add 1; Queue_Get namespaceQueue] ++ tr
     ++ [Queue_Done namespaceQueue obj; WaitGroup_Done]).
Proof.
  intros obj Hget Hsync. subst obj. unfold processNextNamespaceWorkItem. simpl.
  rewrite Hget. simpl. unfold mbind, prog_bind. rewrite !exec_defer, exec_bind, Hsync.
  simpl. destruct (h (Queue_Done namespaceQueue _) s2) as [[] s3]. simpl.
  by rewrite <- !app_assoc.
Qed.

Lemma worker_policy_sync_panics (p : AdminPolicyBasedExternalRoute) (s0 s1 s2 : S) msg tr :
  h (Queue_Get routeQueue) s0 = ((PolicyPtr (Some p), false), s1) →
  exec h (syncRoutePolicy p) s1 = (Panicked msg, s2, tr) →
  result (exec h (processNextPolicyWorkItem maxRetries) s0) = Panicked msg.
Proof.
  intros Hget Hsync. unfold processNextPolicyWorkItem. simpl.
  rewrite Hget. simpl. unfold mbind, prog_bind. rewrite !exec_defer, exec_bind, Hsync.
  simpl. by destruct (h (Queue_Done routeQueue _) s2) as [[] s3].
Qed.

Lemma worker_pod_sync_panics (pod : Pod) (s0 s1 s2 : S) msg tr :
  h (Queue_Get podQueue) s0 = ((PodPtr (Some pod), false), s1) →
  exec h (syncPod pod) s1 = (Panicked msg, s2, tr) →
  result (exec h (processNextPodWorkItem maxRetries) s0) = Panicked msg.
Proof.
  intros Hget Hsync. unfold processNextPodWorkItem. simpl.
  rewrite Hget. simpl. unfold mbind, prog_bind. rewrite !exec_defer, exec_bind, Hsync.
  simpl. by destruct (h (Queue_Done podQueue _) s2) as [[] s3].
Qed.

Transparent syncRoutePolicy syncNamespace syncPod.

(** A worker returns false exactly when its queue reports the shutdown. *)
Lemma worker_policy_false_iff (s : S) :
  result (exec h (processNextPolicyWorkItem maxRetries) s) = Returned false
  ↔ (h (Queue_Get routeQueue) s).1.2 = true.
Proof.
  destruct (h (Queue_Get routeQueue) s) as [[obj sd] s1] eqn:Hget. cbn [fst snd].
  destruct sd.
  { by rewrite (worker_shutdown_policy s s1 obj Hget). }
  split; [|done]. intros Hres. exfalso.
  destruct (well_typed routeQueue obj) eqn:Hwt.
  - destruct obj as [|[p|]|?|?|? ?|?]; try discriminate Hwt.
    destruct (exec h (syncRoutePolicy p) s1) as [[[err|msg] s2] tr] eqn:Hsync.
    + destruct (processNextPolicyWorkItem_run h maxRetries p s s1 s2 err tr Hget Hsync)
        as [Hr _]. rewrite Hr in Hres. discriminate Hres.
    + rewrite (worker_policy_sync_panics p s s1 s2 msg tr Hget Hsync) in Hres.
      discriminate Hres.
  - destruct (worker_foreign_policy s s1 obj Hget Hwt) as [msg Hp].
    rewrite Hp in Hres. discriminate Hres.
Qed.

Lemma worker_namespace_false_iff (s : S) :
  result (exec h (processNextNamespaceWorkItem maxRetries) s) = Returned false
  ↔ (h (Queue_Get namespaceQueue) s).1.2 = true.
Proof.
  destruct (h (Queue_Get namespaceQueue) s) as [[obj sd] s1] eqn:Hget. cbn [fst snd].
  destruct sd.
  { by rewrite (worker_shutdown_namespace s s1 obj Hget). }
  split; [|done]. intros Hres. exfalso.
  destruct (well_typed namespaceQueue obj) eqn:Hwt.
  - destruct obj as [|?|[ns|]|?|? ?|?]; try discriminate Hwt.
    destruct (exec h (syncNamespace ns) s1) as [[[err|msg] s2] tr] eqn:Hsync.
    + destruct (processNextNamespaceWorkItem_run h maxRetries ns s s1 s2 err tr Hget Hsync)
        as [Hr _]. rewrite Hr in Hres. discriminate Hres.
    + rewrite (worker_namespace_sync_panics ns s s1 s2 msg tr Hget Hsync) in Hres.
      discriminate Hres.
  - destruct (worker_foreign_namespace s s1 obj Hget Hwt) as [msg Hp].
    rewrite Hp in Hres. discriminate Hres.
Qed.

Lemma worker_pod_false_iff (s : S) :
  result (exec h (processNextPodWorkItem maxRetries) s) = Returned false
  ↔ (h (Queue_Get podQueue) s).1.2 = true.
Proof.
  destruct (h (Queue_Get podQueue) s) as [[obj sd] s1] eqn:Hget. cbn [fst snd].
  destruct sd.
  { by rewrite (worker_shutdown_pod s s1 obj Hget). }
  split; [|done]. intros Hres. exfalso.
  destruct (well_typed podQueue obj) eqn:Hwt.
  - destruct obj as [|?|?|[pod|]|? ?|?]; try discriminate Hwt.
    destruct (exec h (syncPod pod) s1) as [[[err|msg] s2] tr] eqn:Hsync.
    + destruct (processNextPodWorkItem_run h maxRetries pod s s1 s2 err tr Hget Hsync)
        as [Hr _]. rewrite Hr in Hres. discriminate Hres.
    + rewrite (worker_pod_sync_panics pod s s1 s2 msg tr Hget Hsync) in Hres.
      discriminate Hres.
  - destruct (worker_foreign_pod s s1 obj Hget Hwt) as [msg Hp].
    rewrite Hp in Hres. discriminate Hres.
Qed.

(** A loop that ended has made its last iteration on a step that returned
    false. *)
Lemma for_loop_ended (step : prog bool) (last : list call) :
  (∀ s, result (exec h step s) = Returned false → trace (exec h step s) = last) →
  ∀ fuel s,
    result (exec h (for_loop fuel step) s) = Returned (Some tt) →
    ∃ tr, trace (exec h (for_loop fuel step) s) = tr ++ last.
Proof.
  intros Hstep fuel. induction fuel as [|fuel IH]; intros s; simpl; [done|].
  unfold mbind, prog_bind. rewrite exec_bind.
  specialize (Hstep s).
  destruct (exec h step s) as [[[b|msg] s1] tr1]; [|done].
  destruct b.
  - specialize (IH s1). destruct (exec h (for_loop fuel step) s1) as [[o s2] tr2].
    unfold result, trace in *; simpl in *. intros Hres.
    destruct (IH Hres) as [tr Htr]. exists (tr1 ++ tr). by rewrite Htr, app_assoc.
  - unfold result, trace in *; simpl in *. intros _. exists []. simpl.
    rewrite app_nil_r. by apply Hstep.
Qed.

End WorkerEdges.

(** X4.  When its queue reports the shutdown, a worker returns false after
    [Get] alone: it runs no sync, touches neither the listers nor the
    manager, and calls none of [Done], [Forget], [AddRateLimited]; the state
    is the one [Get] left.  The worker loop then ends at once, whatever bound
    on the iterations. *)
Theorem workers_stop_on_shutdown {S} (h : handler S) (maxRetries : Z) (s0 s1 : S)
    (obj : object) (q : queue) (fuel : nat) :
  h (Queue_Get q) s0 = ((obj, true), s1) →
  let step :=
    match q with
    | routeQueue => processNextPolicyWorkItem maxRetries
    | namespaceQueue => processNextNamespaceWorkItem maxRetries
    | podQueue => processNextPodWorkItem maxRetries
    end in
  let loop :=
    match q with
    | routeQueue => runPolicyWorker maxRetries
    | namespaceQueue => runNamespaceWorker maxRetries
    | podQueue => runPodWorker maxRetries
    end in
  exec h step s0 = (Returned false, s1, [WaitGroup_Add 1; Queue_Get q; WaitGroup_Done])
  ∧ exec h (loop (Datatypes.S fuel)) s0
    = (Returned (Some tt), s1, [WaitGroup_Add 1; Queue_Get q; WaitGroup_Done]).
Proof.
  intros Hget step loop.
  assert (Hstep : exec h step s0
                  = (Returned false, s1, [WaitGroup_Add 1; Queue_Get q; WaitGroup_Done])).
  { subst step. destruct q.
    - by apply (worker_shutdown_policy h maxRetries s0 s1 obj).
    - by apply (worker_shutdown_namespace h maxRetries s0 s1 obj).
    - by apply (worker_shutdown_pod h maxRetries s0 s1 obj). }
  split; [done|].
  assert (Hloop : loop (Datatypes.S fuel) = bind step (λ continue : bool,
            if continue then for_loop fuel step else mret (Some tt))).
  { subst loop step. by destruct q. }
  rewrite Hloop, exec_bind, Hstep. done.
Qed.

(** The pod queue of cluster0 is empty and reports the shutdown: the pod
    worker loop ends after one [Get]. *)
Lemma workers_stop_on_shutdown_witness :
  let s1 := (ref_handler (Queue_Get podQueue) cluster0).2 in
  ref_handler (Queue_Get podQueue) cluster0 = ((Nil, true), s1)
  ∧ exec ref_handler (runPodWorker 15 3) cluster0
    = (Returned (Some tt), s1, [WaitGroup_Add 1; Queue_Get podQueue; WaitGroup_Done]).
Proof.
  intros s1.
  pose proof (workers_stop_on_shutdown ref_handler 15 cluster0 s1 Nil podQueue 2 eq_refl)
    as [_ Hloop].
  split; [reflexivity | exact Hloop].
Defined.

(** X5.  A worker marks the item done even when processing it panics.  On
    an object that is not a non-nil pointer of the queue's type the unchecked
    assertion (or the first dereference) panics before any sync, and the
    deferred calls still run: the calls are [Get], [Done] on that object and
    the wait group's [Done], with neither [Forget] nor [AddRateLimited].  The
    same holds for the namespace worker when [syncNamespace] panics.  The
    policy and pod workers never panic on a well-typed item. *)
Theorem workers_panic_after_done {S} (h : handler S) (maxRetries : Z) :
  (∀ (q : queue) (obj : object) (s0 s1 : S),
     let step :=
       match q with
       | routeQueue => processNextPolicyWorkItem maxRetries
       | namespaceQueue => processNextNamespaceWorkItem maxRetries
       | podQueue => processNextPodWorkItem maxRetries
       end in
     h (Queue_Get q) s0 = ((obj, false), s1) →
     well_typed q obj = false →
     ∃ msg,
       exec h step s0
       = (Panicked msg, (h (Queue_Done q obj) s1).2,
          [WaitGroup_Add 1; Queue_Get q; Queue_Done q obj; WaitGroup_Done]))
  ∧ (∀ (ns : Namespace) (s0 s1 s2 : S) msg tr,
       let obj := NamespacePtr (Some ns) in
       h (Queue_Get namespaceQueue) s0 = ((obj, false), s1) →
       exec h (syncNamespace ns) s1 = (Panicked msg, s2, tr) →
       exec h (processNextNamespaceWorkItem maxRetries) s0
       = (Panicked msg, (h (Queue_Done namespaceQueue obj) s2).2,
          [WaitGroup_Add 1; Queue_Get namespaceQueue] ++ tr
          ++ [Queue_Done namespaceQueue obj; WaitGroup_Done]))
  ∧ (∀ (p : AdminPolicyBasedExternalRoute) (s0 s1 : S),
       h (Queue_Get routeQueue) s0 = ((PolicyPtr (Some p), false), s1) →
       result (exec h (processNextPolicyWorkItem maxRetries) s0) = Returned true)
  ∧ (∀ (pod : Pod) (s0 s1 : S),
       h (Queue_Get podQueue) s0 = ((PodPtr (Some pod), false), s1) →
       result (exec h (processNextPodWorkItem maxRetries) s0) = Returned true).
Proof.
  split_and!.
  - intros q obj s0 s1 step Hget Hwt. subst step. destruct q.
    + by apply worker_foreign_policy.
    + by apply worker_foreign_namespace.
    + by apply worker_foreign_pod.
  - intros ns s0 s1 s2 msg tr obj Hget Hsync.
    by eapply worker_namespace_sync_panics.
  - intros p s0 s1 Hget.
    destruct (returns_exec h (syncRoutePolicy p) s1 (syncRoutePolicy_returns p)) as [err Herr].
    destruct (exec h (syncRoutePolicy p) s1) as [[o s2] tr] eqn:Hsync.
    unfold result in Herr. simpl in Herr. subst o.
    by destruct (processNextPolicyWorkItem_run h maxRetries p s0 s1 s2 err tr Hget Hsync).
  - intros pod s0 s1 Hget.
    destruct (returns_exec h (syncPod pod) s1 (syncPod_returns pod)) as [err Herr].
    destruct (exec h (syncPod pod) s1) as [[o s2] tr] eqn:Hsync.
    unfold result in Herr. simpl in Herr. subst o.
    by destruct (processNextPodWorkItem_run h maxRetries pod s0 s1 s2 err tr Hget Hsync).
Qed.

(** A pod in the namespace queue makes the namespace worker panic after
    [Done]; so does ns1 when the manager hands out a nil entry; the policy
    worker on policy P and the pod worker on gw1 return true. *)
Lemma workers_panic_after_done_witness :
  (let obj := PodPtr (Some pod_gw1) in
   well_typed namespaceQueue obj = false
   ∧ ∃ msg, result (exec ref_handler (processNextNamespaceWorkItem 15)
                      (cluster_holding namespaceQueue obj)) = Panicked msg)
  ∧ (let obj := NamespacePtr (Some namespace_ns1) in
     trace (exec (nil_entry_handler true false) (processNextNamespaceWorkItem 15)
              (cluster_holding namespaceQueue obj))
     = [WaitGroup_Add 1; Queue_Get namespaceQueue; NamespaceLister_Get "ns1";
        Mgr_getPoliciesForNamespace "ns1"; Mgr_getNamespaceInfoFromCache "ns1";
        Mgr_unlockNamespaceInfoCache "ns1"; Queue_Done namespaceQueue obj; WaitGroup_Done])
  ∧ result (exec ref_handler (processNextPolicyWorkItem 15)
              (cluster_holding routeQueue (PolicyPtr (Some policy_P)))) = Returned true
  ∧ result (exec ref_handler (processNextPodWorkItem 15)
              (cluster_holding podQueue (PodPtr (Some pod_gw1)))) = Returned true.
Proof.
  pose proof (workers_panic_after_done ref_handler 15) as (Hforeign & _ & Hpolicy & Hpod).
  pose proof (workers_panic_after_done (nil_entry_handler true false) 15) as (_ & Hsync & _).
  split_and!.
  - cbv zeta. split; [reflexivity|].
    destruct (Hforeign namespaceQueue (PodPtr (Some pod_gw1))
                (cluster_holding namespaceQueue (PodPtr (Some pod_gw1)))
                (ref_handler (Queue_Get namespaceQueue)
                   (cluster_holding namespaceQueue (PodPtr (Some pod_gw1)))).2
                eq_refl eq_refl) as [msg Hrun].
    exists msg. unfold result. by rewrite Hrun.
  - cbv zeta.
    pose (s1 := (nil_entry_handler true false (Queue_Get namespaceQueue)
                   (cluster_holding namespaceQueue (NamespacePtr (Some namespace_ns1)))).2).
    unfold trace.
    rewrite (Hsync namespace_ns1
               (cluster_holding namespaceQueue (NamespacePtr (Some namespace_ns1)))
               s1 s1 "invalid memory address or nil pointer dereference"
               [NamespaceLister_Get "ns1"; Mgr_getPoliciesForNamespace "ns1";
                Mgr_getNamespaceInfoFromCache "ns1"; Mgr_unlockNamespaceInfoCache "ns1"]
               eq_refl eq_refl).
    reflexivity.
  - exact (Hpolicy policy_P (cluster_holding routeQueue (PolicyPtr (Some policy_P)))
             (ref_handler (Queue_Get routeQueue)
                (cluster_holding routeQueue (PolicyPtr (Some policy_P)))).2 eq_refl).
  - exact (Hpod pod_gw1 (cluster_holding podQueue (PodPtr (Some pod_gw1)))
             (ref_handler (Queue_Get podQueue)
                (cluster_holding podQueue (PodPtr (Some pod_gw1)))).2 eq_refl).
Defined.

(** X6.  A worker returns false exactly when its queue reports the shutdown:
    neither a failed sync, nor a dropped item, nor exhausted retries end the
    worker loop.  A worker loop that ends has made its last iteration on the
    shutdown signal. *)
Theorem worker_loops_end_on_shutdown_only {S} (h : handler S) (maxRetries : Z) (s : S) :
  (result (exec h (processNextPolicyWorkItem maxRetries) s) = Returned false
   ↔ (h (Queue_Get routeQueue) s).1.2 = true)
  ∧ (result (exec h (processNextNamespaceWorkItem maxRetries) s) = Returned false
     ↔ (h (Queue_Get namespaceQueue) s).1.2 = true)
  ∧ (result (exec h (processNextPodWorkItem maxRetries) s) = Returned false
     ↔ (h (Queue_Get podQueue) s).1.2 = true)
  ∧ (∀ fuel,
       result (exec h (runPolicyWorker maxRetries fuel) s) = Returned (Some tt) →
       ∃ tr, trace (exec h (runPolicyWorker maxRetries fuel) s)
             = tr ++ [WaitGroup_Add 1; Queue_Get routeQueue; WaitGroup_Done])
  ∧ (∀ fuel,
       result (exec h (runNamespaceWorker maxRetries fuel) s) = Returned (Some tt) →
       ∃ tr, trace (exec h (runNamespaceWorker maxRetries fuel) s)
             = tr ++ [WaitGroup_Add 1; Queue_Get namespaceQueue; WaitGroup_Done])
  ∧ (∀ fuel,
       result (exec h (runPodWorker maxRetries fuel) s) = Returned (Some tt) →
       ∃ tr, trace (exec h (runPodWorker maxRetries fuel) s)
             = tr ++ [WaitGroup_Add 1; Queue_Get podQueue; WaitGroup_Done]).
Proof.
  split_and!.
  - apply worker_policy_false_iff.
  - apply worker_namespace_false_iff.
  - apply worker_pod_false_iff.
  - intros fuel. apply for_loop_ended. intros s' Hres.
    apply worker_policy_false_iff in Hres.
    destruct (h (Queue_Get routeQueue) s') as [[obj sd] s1] eqn:Hget. simpl in Hres. subst sd.
    by rewrite (worker_shutdown_policy h maxRetries s' s1 obj Hget).
  - intros fuel. apply for_loop_ended. intros s' Hres.
    apply worker_namespace_false_iff in Hres.
    destruct (h (Queue_Get namespaceQueue) s') as [[obj sd] s1] eqn:Hget. simpl in Hres.
    subst sd. by rewrite (worker_shutdown_namespace h maxRetries s' s1 obj Hget).
  - intros fuel. apply for_loop_ended. intros s' Hres.
    apply worker_pod_false_iff in Hres.
    destruct (h (Queue_Get podQueue) s') as [[obj sd] s1] eqn:Hget. simpl in Hres. subst sd.
    by rewrite (worker_shutdown_pod h maxRetries s' s1 obj Hget).
Qed.

(** On cluster0 the route queue is empty: the policy worker returns false
    and the loop, which ends, ends on the shutdown. *)
Lemma worker_loops_end_on_shutdown_only_witness :
  (ref_handler (Queue_Get routeQueue) cluster0).1.2 = true
  ∧ result (exec ref_handler (processNextPolicyWorkItem 15) cluster0) = Returned false
  ∧ result (exec ref_handler (runNamespaceWorker 15 2)
              (cluster_holding namespaceQueue (NamespacePtr (Some namespace_ns1))))
    = Returned (Some tt)
  ∧ ∃ tr, trace (exec ref_handler (runNamespaceWorker 15 2)
                   (cluster_holding namespaceQueue (NamespacePtr (Some namespace_ns1))))
          = tr ++ [WaitGroup_Add 1; Queue_Get namespaceQueue; WaitGroup_Done].
Proof.
  pose proof (worker_loops_end_on_shutdown_only ref_handler 15 cluster0) as (Hiff & _).
  pose proof (worker_loops_end_on_shutdown_only ref_handler 15
                (cluster_holding namespaceQueue (NamespacePtr (Some namespace_ns1))))
    as (_ & _ & _ & _ & Hloop & _).
  assert (Hended : result (exec ref_handler (runNamespaceWorker 15 2)
                     (cluster_holding namespaceQueue (NamespacePtr (Some namespace_ns1))))
                   = Returned (Some tt)).
  { vm_compute. reflexivity. }
  split_and!; [reflexivity | apply Hiff; reflexivity | exact Hended | exact (Hloop 2%nat Hended)].
Defined.

(** ** The syncs: early errors *)

(** X7.  An error of the lister other than NotFound is returned as it is,
    not wrapped, by each of the three syncs, and the lister's [Get] is then
    the only call: the manager is not consulted ([syncPod] does not even read
    the reverse index).  Likewise an error of [getPoliciesForNamespace] is
    returned as it is by [syncNamespace] before the cache entry is looked up,
    so that nothing is left to unlock. *)
Theorem syncs_return_early_errors {S} (h : handler S) (e : error) :
  error_IsNotFound e = false →
  (∀ (p : AdminPolicyBasedExternalRoute) (s0 s1 : S),
     h (RouteLister_Get (apb_Name p)) s0 = (Some e, s1) →
     exec h (syncRoutePolicy p) s0 = (Returned (Some e), s1, [RouteLister_Get (apb_Name p)]))
  ∧ (∀ (ns : Namespace) (s0 s1 : S),
       h (NamespaceLister_Get (ns_Name ns)) s0 = (Some e, s1) →
       exec h (syncNamespace ns) s0
       = (Returned (Some e), s1, [NamespaceLister_Get (ns_Name ns)]))
  ∧ (∀ (pod : Pod) (s0 s1 : S),
       h (PodLister_Get (pod_Namespace pod) (pod_Name pod)) s0 = (Some e, s1) →
       exec h (syncPod pod) s0
       = (Returned (Some e), s1, [PodLister_Get (pod_Namespace pod) (pod_Name pod)]))
  ∧ (∀ (ns : Namespace) (s0 s1 s2 : S) (matches : StringSet) (e' : error),
       h (NamespaceLister_Get (ns_Name ns)) s0 = (None, s1) →
       Time_IsZero (ns_DeletionTimestamp ns) = true →
       h (Mgr_getPoliciesForNamespace (ns_Name ns)) s1 = ((matches, Some e'), s2) →
       exec h (syncNamespace ns) s0
       = (Returned (Some e'), s2,
          [NamespaceLister_Get (ns_Name ns); Mgr_getPoliciesForNamespace (ns_Name ns)])).
Proof.
  intros Hnf. split_and!.
  - intros p s0 s1 H1. unfold syncRoutePolicy. simpl. rewrite H1. simpl. by rewrite Hnf.
  - intros ns s0 s1 H1. by apply syncNamespace_lister_error.
  - intros pod s0 s1 H1. unfold syncPod. simpl. rewrite H1. simpl. by rewrite Hnf.
  - intros ns s0 s1 s2 matches e' H1 Hz H2.
    by apply (syncNamespace_matches_error h ns s0 s1 s2 matches e').
Qed.

(** With listers that cannot answer, each sync returns the lister's error
    after the one call; with a manager that cannot compute the policies,
    [syncNamespace] returns that error after two calls. *)
Lemma syncs_return_early_errors_witness :
  error_IsNotFound lister_error = false
  ∧ exec lister_failing_handler (syncRoutePolicy policy_P) cluster0
    = (Returned (Some lister_error), cluster0, [RouteLister_Get "P"])
  ∧ exec lister_failing_handler (syncNamespace namespace_ns1) cluster0
    = (Returned (Some lister_error), cluster0, [NamespaceLister_Get "ns1"])
  ∧ exec lister_failing_handler (syncPod pod_gw1) cluster0
    = (Returned (Some lister_error), cluster0, [PodLister_Get "gws" "gw1"])
  ∧ exec matches_failing_handler (syncNamespace namespace_ns1) cluster0
    = (Returned (Some listing_error), cluster0,
       [NamespaceLister_Get "ns1"; Mgr_getPoliciesForNamespace "ns1"]).
Proof.
  pose proof (syncs_return_early_errors lister_failing_handler lister_error eq_refl)
    as (Hpolicy & Hns & Hpod & _).
  pose proof (syncs_return_early_errors matches_failing_handler lister_error eq_refl)
    as (_ & _ & _ & Hmatches).
  split_and!.
  - reflexivity.
  - exact (Hpolicy policy_P cluster0 cluster0 eq_refl).
  - exact (Hns namespace_ns1 cluster0 cluster0 eq_refl).
  - exact (Hpod pod_gw1 cluster0 cluster0 eq_refl).
  - exact (Hmatches namespace_ns1 cluster0 cluster0 cluster0 None listing_error
             eq_refl eq_refl eq_refl).
Defined.

(** ** [syncNamespace]: the entry lock *)

Lemma exec_defer_unlock_trace {S R} (h : handler S) (name : string) (body : prog R)
    (s : S) :
  trace (exec h (defer (do (Mgr_unlockNamespaceInfoCache name)) body) s)
  = trace (exec h body s) ++ [Mgr_unlockNamespaceInfoCache name].
Proof.
  rewrite exec_defer. destruct (exec h body s) as [[o s1] tr1]. simpl.
  by destruct (h (Mgr_unlockNamespaceInfoCache name) s1) as [x s2].
Qed.

(** X8.  The entry lock of [syncNamespace] is released on every exit path.
    A run reaches the lookup of the cache entry exactly when the lister
    answers nil, the deletion timestamp is zero and the policies are computed
    without error.  Such a run goes on past the "nothing to do" return
    exactly when the entry is found or a policy matches; it then ends with the
    call of [unlockNamespaceInfoCache] on the namespace, made exactly once and
    as the last call, whatever the manager answers after the lookup and
    whether the sync returns or panics.  A run that stops at the "nothing to
    do" return has found no entry and makes no further call.  A run that does
    not reach the lookup is one of the three early exits (error of the
    lister; Delete path, which leaves the entry to [processDeleteNamespace];
    error of [getPoliciesForNamespace]): it makes neither a lookup nor an
    unlock. *)
Theorem syncNamespace_unlocks_last {S} (h : handler S) (ns : Namespace) (s : S) :
  let name := ns_Name ns in
  let listed := h (NamespaceLister_Get name) s in
  let computed := h (Mgr_getPoliciesForNamespace name) listed.2 in
  let looked := h (Mgr_getNamespaceInfoFromCache name) computed.2 in
  let lookups :=
    [NamespaceLister_Get name; Mgr_getPoliciesForNamespace name;
     Mgr_getNamespaceInfoFromCache name] in
  let calls := trace (exec h (syncNamespace ns) s) in
  if negb (nonnil listed.1) && Time_IsZero (ns_DeletionTimestamp ns)
     && negb (nonnil computed.1.2)
  then
    if looked.1.2 || negb (bool_decide (Set_Len computed.1.1 = 0))
    then ∃ middle,
           calls = lookups ++ middle ++ [Mgr_unlockNamespaceInfoCache name]
           ∧ Forall (λ c, is_unlock c = false) middle
    else calls = lookups
  else
    calls = [NamespaceLister_Get name]
    ∨ calls = [NamespaceLister_Get name;
               Klog Infof "Deleting namespace reference %s" [LStr name];
               Mgr_processDeleteNamespace name]
    ∨ calls = [NamespaceLister_Get name; Mgr_getPoliciesForNamespace name].
Proof.
  intros name listed computed looked lookups calls.
  subst calls lookups looked computed listed name. unfold syncNamespace.
  cbn [mbind prog_bind bind do exec silent].
  destruct (h (NamespaceLister_Get (ns_Name ns)) s) as [err s1]. cbn [exec fst snd].
  destruct err as [e|]; cbn [nonnil negb andb IsNotFound].
  { destruct (error_IsNotFound e); cbn [negb orb]; [|by left].
    right; left. simpl.
    by destruct (h (Mgr_processDeleteNamespace (ns_Name ns)) s1) as [d s2]. }
  cbn [orb]. destruct (Time_IsZero (ns_DeletionTimestamp ns)); cbn [negb andb].
  2:{ right; left. simpl.
      by destruct (h (Mgr_processDeleteNamespace (ns_Name ns)) s1) as [d s2]. }
  cbn [mbind prog_bind bind do exec silent klog].
  destruct (h (Mgr_getPoliciesForNamespace (ns_Name ns)) s1) as [[matches err2] s2].
  cbn [fst snd].
  destruct err2 as [e2|]; cbn [nonnil negb]; [by right; right|].
  cbn [mbind prog_bind bind do exec silent klog].
  destruct (h (Mgr_getNamespaceInfoFromCache (ns_Name ns)) s2) as [[cacheInfo found] s3].
  cbn [fst snd].
  assert (Hcond : negb found && bool_decide (Set_Len matches = 0)
                  = negb (found || negb (bool_decide (Set_Len matches = 0)))).
  { by destruct found, (bool_decide (Set_Len matches = 0)). }
  rewrite Hcond. destruct (found || negb (bool_decide (Set_Len matches = 0))) eqn:Hgo;
    cbn [negb]; [|done].
  match goal with
  | |- context [exec h (defer ?d ?b) ?s0] =>
      pose proof (exec_defer_unlock_trace h (ns_Name ns) b s0) as Htr;
      assert (Hav : avoids is_unlock b);
      [| pose proof (avoids_trace h is_unlock b s0 Hav) as Hno;
         destruct (exec h (defer d b) s0) as [[o s4] tr];
         destruct (exec h b s0) as [[o' s4'] tr'] ]
  end.
  { clear Htr. destruct found, cacheInfo; avoid. }
  unfold trace in *; simpl in *. subst tr. by exists tr'.
Qed.

(** ** [syncNamespace]: the three processing paths *)

(** X9.  Delete path of [syncNamespace]: when the lister reports NotFound, or
    when the namespace is listed but the deletion timestamp of the event
    object is set, the sync calls [processDeleteNamespace] on the name and
    returns its answer as it is.  The matching policies are not computed, the
    cache entry is neither looked up nor unlocked. *)
Theorem syncNamespace_delete_path {S} (h : handler S) (ns : Namespace) (s0 s1 s2 : S)
    (err derr : option error) :
  let name := ns_Name ns in
  h (NamespaceLister_Get name) s0 = (err, s1) →
  IsNotFound err = true ∨ (err = None ∧ Time_IsZero (ns_DeletionTimestamp ns) = false) →
  h (Mgr_processDeleteNamespace name) s1 = (derr, s2) →
  exec h (syncNamespace ns) s0 =
    (Returned derr, s2,
     [NamespaceLister_Get name; Klog Infof "Deleting namespace reference %s" [LStr name];
      Mgr_processDeleteNamespace name]).
Proof.
  intros name H1 Hgone H2.
  apply (syncNamespace_delete h ns s0 s1 s2 err derr H1); [| |done].
  - destruct Hgone as [Hnf | [-> _]]; [|done]. rewrite Hnf. apply andb_false_r.
  - destruct Hgone as [Hnf | [-> Hz]]; [by rewrite Hnf|]. by rewrite Hz.
Qed.

(** The delete event of ns1 in the reconciled cluster, where ns1 is still
    listed: the entry is torn down.  The unlisted ns9: the lister reports
    NotFound and [processDeleteNamespace] is the only call to the manager. *)
Lemma syncNamespace_delete_path_witness :
  (let e := cluster_cached false in
   let r := exec ref_handler (syncNamespace namespace_ns1_terminating) e in
   ref_handler (NamespaceLister_Get "ns1") e = (None, e)
   ∧ Time_IsZero (ns_DeletionTimestamp namespace_ns1_terminating) = false
   ∧ result r = Returned None
   ∧ final r = ref_processDeleteNamespace "ns1" e
   ∧ nsCache (final r) !! "ns1" = None)
  ∧ (let r := exec ref_handler (syncNamespace namespace_ns9) cluster0 in
     IsNotFound (ref_handler (NamespaceLister_Get "ns9") cluster0).1 = true
     ∧ trace r = [NamespaceLister_Get "ns9";
                  Klog Infof "Deleting namespace reference %s" [LStr "ns9"];
                  Mgr_processDeleteNamespace "ns9"]).
Proof.
  split.
  - intros e r.
    pose proof (syncNamespace_delete_path ref_handler namespace_ns1_terminating
                  e e (ref_processDeleteNamespace "ns1" e) None None
                  eq_refl (or_intror (conj eq_refl eq_refl)) eq_refl) as Hrun.
    assert (Hfin : final r = ref_processDeleteNamespace "ns1" e).
    { subst r. unfold final. by rewrite Hrun. }
    split_and!; [reflexivity | reflexivity | subst r; unfold result; by rewrite Hrun
                | exact Hfin | rewrite Hfin; vm_compute; reflexivity].
  - intros r.
    pose proof (syncNamespace_delete_path ref_handler namespace_ns9
                  cluster0 cluster0 (ref_processDeleteNamespace "ns9" cluster0)
                  (ref_handler (NamespaceLister_Get "ns9") cluster0).1 None
                  eq_refl (or_introl eq_refl) eq_refl) as Hrun.
    split; [reflexivity|]. subst r. unfold trace. by rewrite Hrun.
Defined.

(** X10.  Add path of [syncNamespace]: a listed, live namespace without cache
    entry that at least one policy matches.  The sync creates the entry,
    stores the matching policies in it, then calls [processAddNamespace] with
    the namespace and that same entry, returns its answer as it is, and
    releases the lock last.  The entry is created and filled before the
    manager processes it, also when the manager then fails. *)
Theorem syncNamespace_add_path {S} (h : handler S) (ns : Namespace)
    (s0 s1 s2 s3 s4 s5 s6 s7 : S) (matches : StringSet) (cacheInfo : option loc)
    (l : loc) (aerr : option error) :
  let name := ns_Name ns in
  h (NamespaceLister_Get name) s0 = (None, s1) →
  Time_IsZero (ns_DeletionTimestamp ns) = true →
  h (Mgr_getPoliciesForNamespace name) s1 = ((matches, None), s2) →
  h (Mgr_getNamespaceInfoFromCache name) s2 = ((cacheInfo, false), s3) →
  Set_Len matches ≠ 0 →
  h (Mgr_newNamespaceInfoInCache name) s3 = (Some l, s4) →
  h (Store_Policies l matches) s4 = (tt, s5) →
  h (Mgr_processAddNamespace ns (Some l)) s5 = (aerr, s6) →
  h (Mgr_unlockNamespaceInfoCache name) s6 = (tt, s7) →
  exec h (syncNamespace ns) s0 =
    (Returned aerr, s7,
     [NamespaceLister_Get name; Mgr_getPoliciesForNamespace name;
      Mgr_getNamespaceInfoFromCache name; Mgr_newNamespaceInfoInCache name;
      Store_Policies l matches; Mgr_processAddNamespace ns (Some l);
      Mgr_unlockNamespaceInfoCache name]).
Proof.
  intros name H1 Hz H2 H3 Hlen H4 H5 H6 H7. subst name.
  by apply (syncNamespace_add h ns s0 s1 s2 s3 s4 s5 s6 s7 matches cacheInfo l aerr).
Qed.

(** From the empty caches, ns1 matched by policy P: the entry is created,
    filled with P and processed; the entry then carries P. *)
Lemma syncNamespace_add_path_witness :
  let matches := Some (matching_policies cluster0 "ns1") in
  let r := exec ref_handler (syncNamespace namespace_ns1) cluster0 in
  Set_Len matches ≠ 0
  ∧ ref_handler (Mgr_getNamespaceInfoFromCache "ns1") cluster0 = ((None, false), cluster0)
  ∧ result r = Returned None
  ∧ trace r =
      [NamespaceLister_Get "ns1"; Mgr_getPoliciesForNamespace "ns1";
       Mgr_getNamespaceInfoFromCache "ns1"; Mgr_newNamespaceInfoInCache "ns1";
       Store_Policies (addr "ns1") matches;
       Mgr_processAddNamespace namespace_ns1 (Some (addr "ns1"));
       Mgr_unlockNamespaceInfoCache "ns1"].
Proof.
  intros matches r.
  assert (Hlen : Set_Len matches ≠ 0).
  { intros H. vm_compute in H. discriminate H. }
  pose (s4 := (ref_handler (Mgr_newNamespaceInfoInCache "ns1") cluster0).2).
  pose (s5 := (ref_handler (Store_Policies (addr "ns1") matches) s4).2).
  pose (c := Mgr_processAddNamespace namespace_ns1 (Some (addr "ns1"))).
  assert (Hadd : (ref_handler c s5).1 = None) by (vm_compute; reflexivity).
  pose proof (syncNamespace_add_path ref_handler namespace_ns1
                cluster0 cluster0 cluster0 cluster0 s4 s5
                (ref_handler c s5).2 (ref_handler c s5).2
                matches None (addr "ns1") None
                eq_refl eq_refl eq_refl eq_refl Hlen eq_refl eq_refl
                (pair_eta _ _ Hadd) eq_refl) as Hrun.
  split_and!; [exact Hlen | reflexivity | subst r; unfold result; by rewrite Hrun
              | subst r; unfold trace; by rewrite Hrun].
Defined.

(** X11.  Update path of [syncNamespace]: a listed, live namespace whose
    cache entry is live and holds policies that differ, as a set, from the
    recomputed matches.  The sync calls [processUpdateNamespace] with the
    cached policies, the new matches and the entry, returns its answer as it
    is, and releases the lock last.  It does not store the new policies
    itself: the entry is left to the manager. *)
Theorem syncNamespace_update_path {S} (h : handler S) (ns : Namespace)
    (s0 s1 s2 s3 s4 s5 s6 s7 s8 : S) (matches policies policies' : StringSet)
    (l : loc) (uerr : option error) :
  let name := ns_Name ns in
  h (NamespaceLister_Get name) s0 = (None, s1) →
  Time_IsZero (ns_DeletionTimestamp ns) = true →
  h (Mgr_getPoliciesForNamespace name) s1 = ((matches, None), s2) →
  h (Mgr_getNamespaceInfoFromCache name) s2 = ((Some l, true), s3) →
  h (Load_markForDelete l) s3 = (false, s4) →
  h (Load_Policies l) s4 = (policies, s5) →
  set_elems policies ≠ set_elems matches →
  h (Load_Policies l) s5 = (policies', s6) →
  h (Mgr_processUpdateNamespace name policies' matches (Some l)) s6 = (uerr, s7) →
  h (Mgr_unlockNamespaceInfoCache name) s7 = (tt, s8) →
  let r := exec h (syncNamespace ns) s0 in
  result r = Returned uerr
  ∧ final r = s8
  ∧ trace r =
      [NamespaceLister_Get name; Mgr_getPoliciesForNamespace name;
       Mgr_getNamespaceInfoFromCache name; Load_markForDelete l; Load_Policies l;
       Load_Policies l; Mgr_processUpdateNamespace name policies' matches (Some l);
       Mgr_unlockNamespaceInfoCache name]
  ∧ (∀ l' v, Store_Policies l' v ∉ trace r).
Proof.
  intros name H1 Hz H2 H3 H4 H5 Hne H6 H7 H8 r. subst r.
  assert (Hne' : Set_Equal policies matches = false).
  { unfold Set_Equal. by rewrite bool_decide_eq_false_2. }
  rewrite (syncNamespace_update h ns s0 s1 s2 s3 s4 s5 s6 s7 s8 matches l policies policies'
             uerr H1 Hz H2 H3 H4 H5 Hne' H6 H7 H8).
  split_and!; try done. intros l' v. unfold trace; simpl. not_in_list.
Qed.

(** In the reconciled cluster, ns1 relabelled so that P no longer matches:
    the cached policies [{P}] and the empty matches are handed to
    [processUpdateNamespace]. *)
Lemma syncNamespace_update_path_witness :
  let e := cluster_relabelled in
  let matches := Some (matching_policies e "ns1") in
  let r := exec ref_handler (syncNamespace namespace_ns1_relabelled) e in
  set_elems (Some {[ "P" ]}) ≠ set_elems matches
  ∧ ref_handler (Load_Policies (addr "ns1")) e = (Some {[ "P" ]}, e)
  ∧ result r = Returned None
  ∧ Mgr_processUpdateNamespace "ns1" (Some {[ "P" ]}) matches (Some (addr "ns1")) ∈ trace r.
Proof.
  intros e matches r.
  assert (Hne : set_elems (Some {[ "P" ]}) ≠ set_elems matches).
  { intros H. apply (f_equal size) in H. vm_compute in H. discriminate H. }
  pose (c := Mgr_processUpdateNamespace "ns1" (Some {[ "P" ]}) matches (Some (addr "ns1"))).
  assert (Hupd : (ref_handler c e).1 = None) by (vm_compute; reflexivity).
  pose proof (syncNamespace_update_path ref_handler namespace_ns1_relabelled
                e e e e e e e (ref_handler c e).2 (ref_handler c e).2
                matches (Some {[ "P" ]}) (Some {[ "P" ]}) (addr "ns1") None
                eq_refl eq_refl eq_refl eq_refl eq_refl eq_refl Hne eq_refl
                (pair_eta _ _ Hupd) eq_refl) as (Hres & _ & Htr & _).
  split_and!; [exact Hne | reflexivity | exact Hres |].
  fold r in Htr. rewrite Htr. fold c. rewrite !elem_of_cons. tauto.
Defined.

(** ** [syncNamespace]: nil entries *)

(** X12.  [syncNamespace] dereferences the entry that the manager hands out.
    When the manager reports the entry as found and hands out a nil pointer,
    or when [newNamespaceInfoInCache] returns nil, the sync panics; the
    deferred unlock still runs, and neither [processAddNamespace] nor
    [processUpdateNamespace] is called.  Conversely, with a manager that
    never does either, [syncNamespace] always returns. *)
Theorem syncNamespace_nil_entry {S} (h : handler S) (ns : Namespace) :
  let name := ns_Name ns in
  let nil_deref := "invalid memory address or nil pointer dereference" in
  (∀ (s0 s1 s2 s3 s4 : S) (matches : StringSet),
     h (NamespaceLister_Get name) s0 = (None, s1) →
     Time_IsZero (ns_DeletionTimestamp ns) = true →
     h (Mgr_getPoliciesForNamespace name) s1 = ((matches, None), s2) →
     h (Mgr_getNamespaceInfoFromCache name) s2 = ((None, true), s3) →
     h (Mgr_unlockNamespaceInfoCache name) s3 = (tt, s4) →
     exec h (syncNamespace ns) s0 =
       (Panicked nil_deref, s4,
        [NamespaceLister_Get name; Mgr_getPoliciesForNamespace name;
         Mgr_getNamespaceInfoFromCache name; Mgr_unlockNamespaceInfoCache name]))
  ∧ (∀ (s0 s1 s2 s3 s4 s5 : S) (matches : StringSet) (cacheInfo : option loc),
       h (NamespaceLister_Get name) s0 = (None, s1) →
       Time_IsZero (ns_DeletionTimestamp ns) = true →
       h (Mgr_getPoliciesForNamespace name) s1 = ((matches, None), s2) →
       h (Mgr_getNamespaceInfoFromCache name) s2 = ((cacheInfo, false), s3) →
       Set_Len matches ≠ 0 →
       h (Mgr_newNamespaceInfoInCache name) s3 = (None, s4) →
       h (Mgr_unlockNamespaceInfoCache name) s4 = (tt, s5) →
       exec h (syncNamespace ns) s0 =
         (Panicked nil_deref, s5,
          [NamespaceLister_Get name; Mgr_getPoliciesForNamespace name;
           Mgr_getNamespaceInfoFromCache name; Mgr_newNamespaceInfoInCache name;
           Mgr_unlockNamespaceInfoCache name]))
  ∧ ((∀ s, (h (Mgr_getNamespaceInfoFromCache name) s).1 ≠ (None, true)) →
     (∀ s, (h (Mgr_newNamespaceInfoInCache name) s).1 ≠ None) →
     ∀ s, ∃ err, result (exec h (syncNamespace ns) s) = Returned err).
Proof.
  intros name nil_deref. subst name nil_deref. split_and!.
  - intros s0 s1 s2 s3 s4 matches H1 Hz H2 H3 H4. unfold syncNamespace. path.
  - intros s0 s1 s2 s3 s4 s5 matches cacheInfo H1 Hz H2 H3 Hlen H4 H5.
    unfold syncNamespace. path.
  - intros Hfound Hnew s. unfold syncNamespace.
    cbn [mbind prog_bind bind do exec silent].
    destruct (h (NamespaceLister_Get (ns_Name ns)) s) as [err s1]. cbn [exec].
    destruct (nonnil err && negb (IsNotFound err)); [by eexists|].
    destruct (IsNotFound err || negb (Time_IsZero (ns_DeletionTimestamp ns))).
    { simpl. destruct (h (Mgr_processDeleteNamespace (ns_Name ns)) s1) as [d s2].
      by eexists. }
    cbn [mbind prog_bind bind do exec silent klog].
    destruct (h (Mgr_getPoliciesForNamespace (ns_Name ns)) s1) as [[matches err2] s2].
    destruct (nonnil err2); [by eexists|].
    cbn [mbind prog_bind bind do exec silent klog].
    specialize (Hfound s2).
    destruct (h (Mgr_getNamespaceInfoFromCache (ns_Name ns)) s2) as [[cacheInfo found] s3].
    destruct (negb found && bool_decide (Set_Len matches = 0)); [by eexists|].
    destruct found.
    + destruct cacheInfo as [l|]; [|done]. simpl.
      destruct (h (Load_markForDelete l) s3) as [[] s4]; simpl.
      { destruct (h (Mgr_unlockNamespaceInfoCache (ns_Name ns)) s4) as [[] s5].
        by eexists. }
      destruct (h (Load_Policies l) s4) as [policies s5]; simpl.
      destruct (negb (Set_Equal policies matches)); simpl.
      * destruct (h (Load_Policies l) s5) as [policies' s6]; simpl.
        destruct (h (Mgr_processUpdateNamespace _ _ _ _) s6) as [[e|] s7]; simpl;
          destruct (h (Mgr_unlockNamespaceInfoCache (ns_Name ns)) s7) as [[] s8];
          by eexists.
      * destruct (h (Mgr_unlockNamespaceInfoCache (ns_Name ns)) s5) as [[] s6].
        by eexists.
    + simpl. specialize (Hnew s3).
      destruct (h (Mgr_newNamespaceInfoInCache (ns_Name ns)) s3) as [[l|] s4]; [|done].
      simpl. destruct (h (Store_Policies l matches) s4) as [[] s5]; simpl.
      destruct (h (Mgr_processAddNamespace ns (Some l)) s5) as [aerr s6]; simpl.
      destruct (h (Mgr_unlockNamespaceInfoCache (ns_Name ns)) s6) as [[] s7].
      by eexists.
Qed.

(** A manager that reports the entry of ns1 as found and hands out nil, and
    one whose new entry is nil, make the sync of ns1 panic after the unlock;
    the reference manager does neither and the sync returns. *)
Lemma syncNamespace_nil_entry_witness :
  result (exec (nil_entry_handler true false) (syncNamespace namespace_ns1) cluster0)
  = Panicked "invalid memory address or nil pointer dereference"
  ∧ trace (exec (nil_entry_handler false true) (syncNamespace namespace_ns1) cluster0)
    = [NamespaceLister_Get "ns1"; Mgr_getPoliciesForNamespace "ns1";
       Mgr_getNamespaceInfoFromCache "ns1"; Mgr_newNamespaceInfoInCache "ns1";
       Mgr_unlockNamespaceInfoCache "ns1"]
  ∧ ∃ err, result (exec ref_handler (syncNamespace namespace_ns1) cluster0) = Returned err.
Proof.
  pose proof (syncNamespace_nil_entry (nil_entry_handler true false) namespace_ns1) as H1.
  pose proof (syncNamespace_nil_entry (nil_entry_handler false true) namespace_ns1) as H2.
  pose proof (syncNamespace_nil_entry ref_handler namespace_ns1) as H3.
  cbv zeta in H1, H2, H3.
  destruct H1 as (Hfound & _ & _), H2 as (_ & Hnew & _), H3 as (_ & _ & Hreturns).
  assert (Hlen : Set_Len (Some (matching_policies cluster0 "ns1")) ≠ 0).
  { intros H. vm_compute in H. discriminate H. }
  split_and!.
  - unfold result.
    by rewrite (Hfound cluster0 cluster0 cluster0 cluster0 cluster0
                  (Some (matching_policies cluster0 "ns1"))
                  eq_refl eq_refl eq_refl eq_refl eq_refl).
  - unfold trace.
    by rewrite (Hnew cluster0 cluster0 cluster0 cluster0 cluster0 cluster0
                  (Some (matching_policies cluster0 "ns1")) None
                  eq_refl eq_refl eq_refl eq_refl Hlen eq_refl eq_refl).
  - apply Hreturns.
    + intros s Heq. cbn in Heq. unfold ref_getNamespaceInfoFromCache in Heq.
      destruct (nsCache s !! _) in Heq; discriminate Heq.
    + intros s. simpl. intros Heq. discriminate Heq.
Defined.

(** ** What the parts of the controller never call *)

Ltac avoid_handler :=
  repeat first
    [ done
    | progress simpl
    | progress intros
    | split
    | match goal with
      | |- avoids _ (match ?x with _ => _ end) => destruct x
      | |- avoids _ (if ?b then _ else _) => destruct b
      end ].

(** X13.  Separation of the three layers.  The syncs and the read API never
    call a work queue; the read API makes no cache-mutating call; the nine
    event handlers never call a lister or the manager: admission is decided
    on the event objects alone. *)
Theorem layers_are_separate {S} (h : handler S) (s : S) :
  (∀ p, Forall (λ c, is_queue_call c = false) (trace (exec h (syncRoutePolicy p) s)))
  ∧ (∀ ns, Forall (λ c, is_queue_call c = false) (trace (exec h (syncNamespace ns) s)))
  ∧ (∀ pod, Forall (λ c, is_queue_call c = false) (trace (exec h (syncPod pod) s)))
  ∧ (∀ name,
       let calls :=
         trace (exec h (GetAdminPolicyBasedExternalRouteIPsForTargetNamespace name) s) in
       Forall (λ c, is_queue_call c = false) calls ∧ read_only calls)
  ∧ (∀ obj old new,
       Forall (λ c, is_lister_or_manager_call c = false)
         (trace (exec h (onPolicyAdd obj) s)
          ++ trace (exec h (onPolicyUpdate old new) s)
          ++ trace (exec h (onPolicyDelete obj) s)
          ++ trace (exec h (onNamespaceAdd obj) s)
          ++ trace (exec h (onNamespaceUpdate old new) s)
          ++ trace (exec h (onNamespaceDelete obj) s)
          ++ trace (exec h (onPodAdd obj) s)
          ++ trace (exec h (onPodUpdate old new) s)
          ++ trace (exec h (onPodDelete obj) s))).
Proof.
  split_and!.
  - intros p. apply avoids_trace, syncRoutePolicy_no_queue_call.
  - intros ns. apply avoids_trace, syncNamespace_no_queue_call.
  - intros pod. apply avoids_trace, syncPod_no_queue_call.
  - intros name calls. subst calls. split.
    + apply avoids_trace. unfold GetAdminPolicyBasedExternalRouteIPsForTargetNamespace.
      avoid.
    + apply (avoids_trace h mutates_cache).
      unfold GetAdminPolicyBasedExternalRouteIPsForTargetNamespace. avoid.
  - intros obj old new. rewrite !Forall_app. split_and!; apply avoids_trace.
    + unfold onPolicyAdd, assertPolicy_ok. avoid_handler.
    + unfold onPolicyUpdate, assertPolicy_ok. avoid_handler.
    + unfold onPolicyDelete, assertPolicy_ok, assertTombstone_ok. avoid_handler.
    + unfold onNamespaceAdd, assertNamespace_ok. avoid_handler.
    + unfold onNamespaceUpdate, assertNamespace_ok. avoid_handler.
    + unfold onNamespaceDelete, assertNamespace_ok, assertTombstone_ok. avoid_handler.
    + unfold onPodAdd, assertPod_ok. avoid_handler.
    + unfold onPodUpdate, assertPod_ok. avoid_handler.
    + unfold onPodDelete, assertPod_ok, assertTombstone_ok. avoid_handler.
Qed.

(** ** [syncRoutePolicy]: where its errors come from *)

(** X14.  An error returned by [syncRoutePolicy] is either the error of the
    lister, which is then not NotFound and was returned after that one call,
    or an error of the manager wrapped with one of the three messages of the
    Delete, Add and Update paths and the name of the policy.  A NotFound
    answer of the lister is never returned: it selects the Delete path. *)
Theorem syncRoutePolicy_error_provenance {S} (h : handler S)
    (p : AdminPolicyBasedExternalRoute) (s : S) (e : error) :
  let name := apb_Name p in
  let r := exec h (syncRoutePolicy p) s in
  result r = Returned (Some e) →
  ((h (RouteLister_Get name) s).1 = Some e
   ∧ error_IsNotFound e = false
   ∧ trace r = [RouteLister_Get name])
  ∨ (∃ format e',
       e = Errorf_w format [OpString name] e'
       ∧ format ∈ ["failed to delete Admin Policy Based External Route %s:%w";
                   "failed to create Admin Policy Based External Route %s:%w";
                   "failed to update Admin Policy Based External Route %s:%w"]).
Proof.
  intros name r. subst name r. unfold syncRoutePolicy, result, trace.
  cbn [mbind prog_bind bind do exec silent].
  destruct (h (RouteLister_Get (apb_Name p)) s) as [err s1]. cbn [fst snd].
  destruct err as [e0|]; cbn [nonnil IsNotFound andb negb].
  - destruct (error_IsNotFound e0) eqn:Hnf; cbn [negb].
    + simpl. destruct (h (Mgr_processDeletePolicy (apb_Name p)) s1) as [[e1|] s2]; simpl;
        intros [= <-]. right. eexists _, e1. split; [done|]. rewrite !elem_of_cons. tauto.
    + simpl. intros [= <-]. by left.
  - simpl.
    destruct (h (Mgr_getRoutePolicyFromCache (apb_Name p)) s1) as [[[cur found] marked] s2].
    destruct marked; simpl; [intros [=]|].
    destruct found; simpl.
    + destruct (h (Mgr_processUpdatePolicy cur p) s2) as [[e1|] s3]; simpl; intros [= <-].
      right. eexists _, e1. split; [done|]. rewrite !elem_of_cons. tauto.
    + destruct (h (Mgr_processAddPolicy p) s2) as [[e1|] s3]; simpl; intros [= <-].
      right. eexists _, e1. split; [done|]. rewrite !elem_of_cons. tauto.
Qed.

(** With a lister that cannot answer, the error of [syncRoutePolicy] on
    policy P is the lister's. *)
Lemma syncRoutePolicy_error_provenance_witness :
  result (exec lister_failing_handler (syncRoutePolicy policy_P) cluster0)
  = Returned (Some lister_error)
  ∧ ((lister_failing_handler (RouteLister_Get "P") cluster0).1 = Some lister_error
     ∧ error_IsNotFound lister_error = false
     ∧ trace (exec lister_failing_handler (syncRoutePolicy policy_P) cluster0)
       = [RouteLister_Get "P"]
     ∨ ∃ format e',
         lister_error = Errorf_w format [OpString "P"] e'
         ∧ format ∈ ["failed to delete Admin Policy Based External Route %s:%w";
                     "failed to create Admin Policy Based External Route %s:%w";
                     "failed to update Admin Policy Based External Route %s:%w"]).
Proof.
  split; [reflexivity|].
  exact (syncRoutePolicy_error_provenance lister_failing_handler policy_P cluster0
           lister_error eq_refl).
Defined.
